(** * NixOps machine backends: reachability, health check and key upload

    A shallow embedding of [nixops/backends/__init__.py]
    ([MachineDefinition], [MachineState], [CheckResult]) together with the
    properties of the secret provisioning protocol ([send_keys]), of the
    reachability transition ([wait_for_ssh]) and of the unit classification
    of the health check ([_check]).

    Python strings are [string], a character standing for the code point
    of its number (the curly quotes of the log messages, which lie beyond
    255, are spelled as their UTF-8 bytes; no method reads a log message
    back); a [dict] keyed by strings whose iteration order is irrelevant
    is a [gmap string _]; the ordered [keys] dictionary is an association
    list.  Every call that leaves the process (SSH, scp, local
    subprocesses, local files, logging) is an [action] handed to an
    environment; the methods are written in a state-and-exception monad
    over the machine object, the environment and the trace of the actions
    performed, each with its outcome.  The command lines sent to the
    machine are kept as the text the source builds; the reference
    environment reads that text as a shell does and runs what it reads. *)

From Stdlib Require Import Ascii String List Bool Arith Lia.
From stdpp Require Import base option strings gmap list.
From stdpp Require Import pretty.

(** ** Python string primitives used by the module *)

Module Py.

(** [s.rstrip(c)] for a one-character argument. *)
Fixpoint rstrip (c : ascii) (s : string) : string :=
  match s with
  | EmptyString => EmptyString
  | String a s' =>
      match rstrip c s' with
      | EmptyString => if Ascii.eqb a c then EmptyString else String a EmptyString
      | r => String a r
      end
  end.

(** [s.replace(c, by)] for a one-character pattern. *)
Fixpoint replace (c : ascii) (by_ : string) (s : string) : string :=
  match s with
  | EmptyString => EmptyString
  | String a s' =>
      if Ascii.eqb a c then by_ +:+ replace c by_ s'
      else String a (replace c by_ s')
  end.

(** [s.startswith(p)]. *)
Definition startswith (s p : string) : bool := String.prefix p s.

(** [s.split(c)] for a one-character separator: never empty, and
    [len(s.split(c)) = s.count(c) + 1]. *)
Fixpoint split (c : ascii) (s : string) : list string :=
  match s with
  | EmptyString => [EmptyString]
  | String a s' =>
      if Ascii.eqb a c then EmptyString :: split c s'
      else match split c s' with
           | [] => [String a EmptyString]
           | w :: ws => String a w :: ws
           end
  end.

(** [sep.join(l)]. *)
Definition join (sep : string) (l : list string) : string := String.concat sep l.

(** The characters removed by [s.rstrip()] without argument, those of
    [str.isspace]: a character of a [string] stands for the code point
    of its number, below 256, and the whitespace among them is U+0009 to
    U+000D, U+001C to U+001F, the space, U+0085 (next line) and U+00A0
    (no-break space). *)
Definition is_whitespace (a : ascii) : bool :=
  match a with
  | "009" | "010" | "011" | "012" | "013" | "028" | "029" | "030" | "031" | " "
  | "133" | "160" => true
  | _ => false
  end%char.

(** [s.rstrip()]. *)
Fixpoint rstrip_ws (s : string) : string :=
  match s with
  | EmptyString => EmptyString
  | String a s' =>
      match rstrip_ws s' with
      | EmptyString => if is_whitespace a then EmptyString else String a EmptyString
      | r => String a r
      end
  end.

(** [c in s] for a character. *)
Fixpoint contains (c : ascii) (s : string) : bool :=
  match s with
  | EmptyString => false
  | String a s' => Ascii.eqb a c || contains c s'
  end.

End Py.

(** [all(P(a) for a in s)]. *)
Fixpoint str_forall (P : ascii -> bool) (s : string) : bool :=
  match s with
  | EmptyString => true
  | String a s' => P a && str_forall P s'
  end.

(** ** The shell on the machine *)

(** How a POSIX shell reads the command lines it is sent.

    [word] reads one word made of single-quoted parts, backslash
    escapes and ordinary characters: inside single quotes every character
    stands for itself up to the closing quote; outside, a backslash makes
    the next character stand for itself, and is dropped with it when that
    character is a newline.  [None]: the text is not one complete word of
    this kind.

    [lex] and [parse] read a whole command line of the fragment the
    methods write: words as above, blanks, the operators [;], [&&], [||],
    [(], [)] and the redirection of the standard output to [/dev/null].
    Everything else (a pipe, [&], a variable, a glob, a double quote, a
    comment, a newline between commands, a reserved word, an assignment in
    command position) is [Foreign]: the fragment says nothing about such
    a line. *)
Module Sh.

(** Characters that stand for themselves outside quotes. *)
Definition is_plain (c : ascii) : bool :=
  let n := nat_of_ascii c in
  (Nat.leb 48 n && Nat.leb n 57) || (Nat.leb 65 n && Nat.leb n 90)
  || (Nat.leb 97 n && Nat.leb n 122)
  || bool_decide (c ∈ ["/"; "."; "_"; "-"; "+"; ":"; ","; "@"; "%"]%char).

Fixpoint word (quoted : bool) (s : string) : option string :=
  match s with
  | EmptyString => if quoted then None else Some EmptyString
  | String c r =>
      if quoted then
        if Ascii.eqb c "'" then word false r else String c <$> word true r
      else if Ascii.eqb c "'" then word true r
      else if Ascii.eqb c "\" then
        match r with
        | String c' r' =>
            if Ascii.eqb c' "010" then word false r' else String c' <$> word false r'
        | EmptyString => None
        end
      else if is_plain c then String c <$> word false r
      else None
  end.

(** *** Tokens *)

Inductive op : Type := Semi | AndIf | OrIf | LParen | RParen | Great.

Inductive token : Type :=
| TWord (w : string)
| TOp (o : op).

(** What the shell makes of a line: its tokens; a line that ends
    inside single quotes, which every shell refuses as a whole; or a line
    with something outside the fragment. *)
Inductive lexed : Type :=
| Tokens (ts : list token)
| Unterminated
| Foreign.

(** Where the reader is: in ordinary text, inside single quotes, after
    a backslash, after one [&] or after one [|]. *)
Inductive place : Type := Plain | Quoted | Escaped | Amp | Bar.

(** The reader of a line: where it is, the word it is reading, if any,
    and the tokens it has read. *)
Record reader : Type := mkReader {
  at_ : place;
  cur : option string;
  toks : list token;
}.

Definition start : reader := mkReader Plain None [].

(** The tokens read once the word in progress, if any, has ended. *)
Definition flush (r : reader) : list token :=
  toks r ++ match cur r with Some w => [TWord w] | None => [] end.

(** [c] joins the word in progress, or starts one. *)
Definition grow (r : reader) (c : ascii) : option string :=
  Some (default EmptyString (cur r) +:+ String c EmptyString).

(** One character.  [None]: the line has left the fragment.  A NUL
    cannot be sent at all.  [>] is read as a redirection only between
    words, where no file descriptor number precedes it. *)
Definition step (r : reader) (c : ascii) : option reader :=
  if Ascii.eqb c "000" then None
  else
    match at_ r with
    | Quoted =>
        if Ascii.eqb c "'" then Some (mkReader Plain (cur r) (toks r))
        else Some (mkReader Quoted (grow r c) (toks r))
    | Escaped =>
        if Ascii.eqb c "010" then Some (mkReader Plain (cur r) (toks r))
        else Some (mkReader Plain (grow r c) (toks r))
    | Amp =>
        if Ascii.eqb c "&" then Some (mkReader Plain None (toks r ++ [TOp AndIf])) else None
    | Bar =>
        if Ascii.eqb c "|" then Some (mkReader Plain None (toks r ++ [TOp OrIf])) else None
    | Plain =>
        if Ascii.eqb c "'"
        then Some (mkReader Quoted (Some (default EmptyString (cur r))) (toks r))
        else if Ascii.eqb c "\" then Some (mkReader Escaped (cur r) (toks r))
        else if Ascii.eqb c " " || Ascii.eqb c "009" then Some (mkReader Plain None (flush r))
        else if Ascii.eqb c ";" then Some (mkReader Plain None (flush r ++ [TOp Semi]))
        else if Ascii.eqb c "(" then Some (mkReader Plain None (flush r ++ [TOp LParen]))
        else if Ascii.eqb c ")" then Some (mkReader Plain None (flush r ++ [TOp RParen]))
        else if Ascii.eqb c ">" then
          match cur r with
          | None => Some (mkReader Plain None (toks r ++ [TOp Great]))
          | Some _ => None
          end
        else if Ascii.eqb c "&" then Some (mkReader Amp None (flush r))
        else if Ascii.eqb c "|" then Some (mkReader Bar None (flush r))
        else if is_plain c || Ascii.eqb c "=" then Some (mkReader Plain (grow r c) (toks r))
        else None
    end.

Fixpoint scan (r : option reader) (s : string) : option reader :=
  match s with
  | EmptyString => r
  | String c s' => scan (r ≫= fun x => step x c) s'
  end.

Definition lex (s : string) : lexed :=
  match scan (Some start) s with
  | Some r =>
      match at_ r with
      | Plain => Tokens (flush r)
      | Quoted => Unterminated
      | _ => Foreign
      end
  | None => Foreign
  end.

(** A character that stands for itself inside single quotes. *)
Definition inert (c : ascii) : bool :=
  negb (Ascii.eqb c "'") && negb (Ascii.eqb c "000").

(** *** Commands *)

(** [Run argv]: a simple command; [Quiet p]: [p >/dev/null];
    [Seq p q]: [p ; q]; [And p q]: [p && q]; [Or p q]: [p || q];
    [Sub p]: [( p )]. *)
Inductive prog : Type :=
| Run (argv : list string)
| Quiet (p : prog)
| Seq (p q : prog)
| And (p q : prog)
| Or (p q : prog)
| Sub (p : prog).

(** Words the shell reserves in command position. *)
Definition reserved (w : string) : bool :=
  bool_decide (w ∈ ["if"; "then"; "else"; "elif"; "fi"; "do"; "done"; "case"; "esac";
                    "while"; "until"; "for"; "in"; "function"; "select"; "time";
                    "coproc"]).

(** The words and redirections of a simple command, up to the next
    operator. *)
Fixpoint simple (ts : list token) : option (list string * bool * list token) :=
  match ts with
  | TWord w :: ts' =>
      match simple ts' with
      | Some (argv, q, rest) => Some (w :: argv, q, rest)
      | None => None
      end
  | TOp Great :: TWord w :: ts' =>
      if String.eqb w "/dev/null" then
        match simple ts' with
        | Some (argv, _, rest) => Some (argv, true, rest)
        | None => None
        end
      else None
  | TOp Great :: _ => None
  | _ => Some ([], false, ts)
  end.

(** A command name is a word that is neither reserved nor an
    assignment. *)
Definition command_of (argv : list string) (q : bool) : option prog :=
  match argv with
  | [] => None
  | w :: _ =>
      if reserved w || Py.contains "=" w then None
      else Some (if q then Quiet (Run argv) else Run argv)
  end.

(** A list of and-or chains separated by [;], a chain of commands
    joined by [&&] and [||] from left to right, a command in
    parentheses or a simple one.  [n] bounds the depth of the reading. *)
Fixpoint p_list (n : nat) (ts : list token) {struct n} : option (prog * list token) :=
  match n with
  | O => None
  | S n =>
      match p_and_or n ts with
      | Some (p, TOp Semi :: ts1) =>
          match ts1 with
          | [] | TOp RParen :: _ => Some (p, ts1)
          | _ =>
              match p_list n ts1 with
              | Some (q, ts2) => Some (Seq p q, ts2)
              | None => None
              end
          end
      | r => r
      end
  end
with p_and_or (n : nat) (ts : list token) {struct n} : option (prog * list token) :=
  match n with
  | O => None
  | S n =>
      match p_cmd n ts with
      | Some (p, ts1) => p_chain n p ts1
      | None => None
      end
  end
with p_chain (n : nat) (p : prog) (ts : list token) {struct n}
    : option (prog * list token) :=
  match n with
  | O => None
  | S n =>
      match ts with
      | TOp AndIf :: ts1 =>
          match p_cmd n ts1 with
          | Some (q, ts2) => p_chain n (And p q) ts2
          | None => None
          end
      | TOp OrIf :: ts1 =>
          match p_cmd n ts1 with
          | Some (q, ts2) => p_chain n (Or p q) ts2
          | None => None
          end
      | _ => Some (p, ts)
      end
  end
with p_cmd (n : nat) (ts : list token) {struct n} : option (prog * list token) :=
  match n with
  | O => None
  | S n =>
      match ts with
      | TOp LParen :: ts1 =>
          match p_list n ts1 with
          | Some (p, TOp RParen :: ts2) => Some (Sub p, ts2)
          | _ => None
          end
      | _ =>
          match simple ts with
          | Some (argv, q, rest) =>
              match command_of argv q with
              | Some p => Some (p, rest)
              | None => None
              end
          | None => None
          end
      end
  end.

Definition parse (ts : list token) : option prog :=
  match p_list (4 * List.length ts + 4) ts with
  | Some (p, []) => Some p
  | _ => None
  end.

(** What the shell makes of a line: the commands to run; a refusal
    of the whole line, of which nothing runs; or nothing the fragment
    can tell. *)
Inductive reading : Type :=
| Program (p : prog)
| Refused
| Beyond.

Definition read (text : string) : reading :=
  match lex text with
  | Tokens ts =>
      match parse ts with
      | Some p => Program p
      | None => Beyond
      end
  | Unterminated => Refused
  | Foreign => Beyond
  end.

(** *** Operands *)

Definition is_letter (c : ascii) : bool :=
  let n := nat_of_ascii c in
  (Nat.leb 65 n && Nat.leb n 90) || (Nat.leb 97 n && Nat.leb n 122).

Definition is_digit (c : ascii) : bool :=
  let n := nat_of_ascii c in Nat.leb 48 n && Nat.leb n 57.

Definition is_octal (c : ascii) : bool :=
  let n := nat_of_ascii c in Nat.leb 48 n && Nat.leb n 55.

(** A character of a file name the fragment speaks about. *)
Definition name_char (c : ascii) : bool := is_plain c && negb (Ascii.eqb c "/").

(** One component of a path: not empty, neither [.] nor [..]. *)
Definition component (w : string) : bool :=
  negb (String.eqb w EmptyString) && negb (String.eqb w ".") && negb (String.eqb w "..")
  && str_forall name_char w.

(** An absolute path in its one canonical spelling, the root apart:
    on a machine without links, two such paths name the same file only
    when they are the same text. *)
Definition is_path (p : string) : bool :=
  match p with
  | String a r => Ascii.eqb a "/" && forallb component (Py.split "/" r)
  | EmptyString => false
  end.

(** The directory a path lies in. *)
Definition parent (p : string) : string :=
  match Py.join "/" (removelast (Py.split "/" p)) with
  | EmptyString => "/"
  | d => d
  end.

(** The name of an account: a letter or underscore, then letters,
    digits, underscores and hyphens.  (A number would be read as an
    identifier, not as a name.) *)
Definition is_name (u : string) : bool :=
  match u with
  | String a r =>
      (is_letter a || Ascii.eqb a "_")
      && str_forall (fun c => is_letter c || is_digit c || Ascii.eqb c "_" || Ascii.eqb c "-") r
  | EmptyString => false
  end.

(** A mode written as three or four octal digits. *)
Definition octal_mode (p : string) : bool :=
  str_forall is_octal p
  && (Nat.eqb (String.length p) 3 || Nat.eqb (String.length p) 4).

(** A mode without the set-user-ID and set-group-ID bits, which a
    change of owner would clear. *)
Definition ordinary_mode (p : string) : bool :=
  octal_mode p
  && match p with
     | String a (String _ (String _ (String _ EmptyString))) =>
         Ascii.eqb a "0" || Ascii.eqb a "1"
     | _ => true
     end.

(** The operand [user:group] of [chown]. *)
Definition owner_spec (w : string) : option (string * string) :=
  match Py.split ":" w with
  | [u; g] => if is_name u && is_name g then Some (u, g) else None
  | _ => None
  end.

(** An operand [NAME=value] of [export]. *)
Definition is_assignment (w : string) : bool :=
  match Py.split "=" w with
  | n :: _ :: _ =>
      match n with
      | String a r =>
          (is_letter a || Ascii.eqb a "_")
          && str_forall (fun c => is_letter c || is_digit c || Ascii.eqb c "_") r
      | EmptyString => false
      end
  | _ => false
  end.

End Sh.

(** ['{0}'.format(v)]: a value put between single quotes as it is. *)
Definition bare_quote (v : string) : string := "'" +:+ v +:+ "'".

(** ** Regular expressions of the health check *)

(** The fragment of Python's [re] used by [_check]: literals, one group,
    greedy [*] and [+] over a character set, and the two anchors.
    [re_match] is [re.match(pattern, s)] followed by [.group(1)]: the
    search is anchored at the start of [s], backtracks from the longest
    repetition, and succeeds as soon as the pattern is exhausted. *)
Module Re.

Inductive cset : Type :=
| Dot                      (* [.] : any character but a newline *)
| NotChar (c : ascii).     (* [[^c]] *)

Inductive tok : Type :=
| Bol                      (* [^] *)
| Eol                      (* [$] *)
| Open                     (* [(] *)
| Close                    (* [)] *)
| Lit (s : string)
| Star (c : cset)
| Plus (c : cset).

Definition cset_mem (c : cset) (a : ascii) : bool :=
  match c with
  | Dot => negb (Ascii.eqb a "010"%char)
  | NotChar x => negb (Ascii.eqb a x)
  end.

(** [strip_prefix p s = Some r] when [s = p ++ r]. *)
Fixpoint strip_prefix (p s : string) : option string :=
  match p, s with
  | EmptyString, _ => Some s
  | String a p', String b s' => if Ascii.eqb a b then strip_prefix p' s' else None
  | String _ _, EmptyString => None
  end.

(** [$] matches at the end of the string and before a final newline. *)
Definition at_eol (s : string) : bool :=
  match s with
  | EmptyString => true
  | String a EmptyString => Ascii.eqb a "010"%char
  | _ => false
  end.

Section Matcher.
Context {R : Type}.

(** Greedy repetition: the continuation [k] receives the text taken
    by the repetition and the rest, the longest repetition first. *)
Fixpoint star_greedy (c : cset) (s : string)
    (k : string -> string -> option R) : option R :=
  match s with
  | String a s' =>
      if cset_mem c a then
        match star_greedy c s' (fun m r => k (String a m) r) with
        | Some x => Some x
        | None => k EmptyString s
        end
      else k EmptyString s
  | EmptyString => k EmptyString s
  end.
End Matcher.

Definition extend (cur : option string) (m : string) : option string :=
  match cur with Some g => Some (g +:+ m) | None => None end.

(** [run p bol cur g1 s]: match [p] against [s]; [bol] tells whether
    the position is the start of the subject, [cur] is the text of the
    group being captured, [g1] the text of the closed group. *)
Fixpoint run (p : list tok) (bol : bool) (cur g1 : option string) (s : string)
    : option (option string) :=
  match p with
  | [] => Some g1
  | Bol :: p' => if bol then run p' bol cur g1 s else None
  | Eol :: p' => if at_eol s then run p' bol cur g1 s else None
  | Open :: p' => run p' bol (Some EmptyString) g1 s
  | Close :: p' => run p' bol None cur s
  | Lit l :: p' =>
      match strip_prefix l s with
      | Some r =>
          run p' (bol && bool_decide (l = EmptyString)) (extend cur l) g1 r
      | None => None
      end
  | Star c :: p' =>
      star_greedy c s (fun m r =>
        run p' (bol && bool_decide (m = EmptyString)) (extend cur m) g1 r)
  | Plus c :: p' =>
      match s with
      | String a s' =>
          if cset_mem c a then
            star_greedy c s' (fun m r => run p' false (extend cur (String a m)) g1 r)
          else None
      | EmptyString => None
      end
  end.

(** [m = re.match(p, s)]; [Some g] stands for a match object whose
    [group(1)] is [g]. *)
Definition re_match (p : list tok) (s : string) : option string :=
  match run p true None None s with
  | Some (Some g) => Some g
  | _ => None
  end.

(** ["^([^ ]+) .* failed .*$"] *)
Definition failed_re : list tok :=
  [Bol; Open; Plus (NotChar " "); Close; Lit " "; Star Dot; Lit " failed "; Star Dot; Eol].

(** ["^([^ ]+) .* activating .*$"] *)
Definition activating_re : list tok :=
  [Bol; Open; Plus (NotChar " "); Close; Lit " "; Star Dot; Lit " activating "; Star Dot; Eol].

(** ["^([^\.]+\.mount) .* inactive .*$"] *)
Definition inactive_mount_re : list tok :=
  [Bol; Open; Plus (NotChar "."); Lit ".mount"; Close; Lit " "; Star Dot;
   Lit " inactive "; Star Dot; Eol].

End Re.

(** ** Resource states *)

(** Modelled from the spec: the state constants [UNKNOWN] ... [RESCUE] are
    class attributes of [nixops.resources.ResourceState], which is not part
    of this file; only their pairwise distinctness is used. *)
Inductive State : Type :=
| UNKNOWN | MISSING | STARTING | UP | STOPPING | STOPPED | UNREACHABLE | RESCUE.

#[global] Instance State_eq_dec : EqDecision State.
Proof. solve_decision. Defined.

(** ** The machine object *)

(** One secret specification: the [opts] dictionary of a key. *)
Abbreviation key_options := (gmap string string).

(** The attributes of [MachineState] read or written by the methods
    below; [name] is inherited from [ResourceState] and [tempdir] is
    [self.depl.tempdir]. *)
Record MachineState : Type := mkMachineState {
  name : string;
  tempdir : string;
  state : State;
  ssh_pinged : bool;
  _ssh_pinged_this_time : bool;
  ssh_port : nat;
  has_fast_connection : bool;
  store_keys_on_machine : bool;
  keys : list (string * key_options);
}.

Definition set_state (v : State) (m : MachineState) : MachineState :=
  mkMachineState (name m) (tempdir m) v (ssh_pinged m) (_ssh_pinged_this_time m)
    (ssh_port m) (has_fast_connection m) (store_keys_on_machine m) (keys m).

Definition set_ssh_pinged (v : bool) (m : MachineState) : MachineState :=
  mkMachineState (name m) (tempdir m) (state m) v (_ssh_pinged_this_time m)
    (ssh_port m) (has_fast_connection m) (store_keys_on_machine m) (keys m).

Definition set__ssh_pinged_this_time (v : bool) (m : MachineState) : MachineState :=
  mkMachineState (name m) (tempdir m) (state m) (ssh_pinged m) v
    (ssh_port m) (has_fast_connection m) (store_keys_on_machine m) (keys m).

(** [CheckResult]: every attribute starts as [None], [messages] as [[]]. *)
Record CheckResult : Type := mkCheckResult {
  exists_ : option bool;
  is_up : option bool;
  is_reachable : option bool;
  disks_ok : option bool;
  failed_units : option (list string);
  in_progress_units : option (list string);
  load : option (list string);
  messages : list string;
}.

Definition CheckResult_init : CheckResult :=
  mkCheckResult None None None None None None None [].

Definition set_is_reachable (v : bool) (r : CheckResult) : CheckResult :=
  mkCheckResult (exists_ r) (is_up r) (Some v) (disks_ok r) (failed_units r)
    (in_progress_units r) (load r) (messages r).

Definition set_load (v : list string) (r : CheckResult) : CheckResult :=
  mkCheckResult (exists_ r) (is_up r) (is_reachable r) (disks_ok r) (failed_units r)
    (in_progress_units r) (Some v) (messages r).

Definition set_failed_units (v : list string) (r : CheckResult) : CheckResult :=
  mkCheckResult (exists_ r) (is_up r) (is_reachable r) (disks_ok r) (Some v)
    (in_progress_units r) (load r) (messages r).

Definition set_in_progress_units (v : list string) (r : CheckResult) : CheckResult :=
  mkCheckResult (exists_ r) (is_up r) (is_reachable r) (disks_ok r) (failed_units r)
    (Some v) (load r) (messages r).

(** ** Remote commands *)

(** The command lines handed to [run_command] by the methods below, one
    constructor per call site; [command_string] is the text the source
    builds. *)
Inductive remote_cmd : Type :=
| CatLoadavg
| SystemctlList
| FstabProbe
| EnsureDir (destDir : string)
| RmStale (outfile tmp_outfile : string)
| ChownChmod (tmp_outfile user group permissions : string)
| Rename (tmp_outfile outfile : string)
| KeysDone.

#[global] Instance remote_cmd_eq_dec : EqDecision remote_cmd.
Proof. solve_decision. Defined.

(** ["'" + p.replace("'", r"'\''") + "'"]. *)
Definition shell_escape (p : string) : string :=
  "'" +:+ Py.replace "'"%char "'\''" p +:+ "'".

Definition command_string (c : remote_cmd) : string :=
  match c with
  | CatLoadavg => "cat /proc/loadavg"
  | SystemctlList => "systemctl --all --full --no-legend"
  | FstabProbe => "cat /etc/fstab | cut -d' ' -f 2 | grep '^/tmp$' &> /dev/null"
  | EnsureDir d =>
      "test -d '" +:+ d +:+ "' || ( mkdir -m 0750 -p '" +:+ d +:+
      "' && chown root:keys  '" +:+ d +:+ "';)"
  | RmStale outfile tmp_outfile =>
      "rm -f " +:+ shell_escape outfile +:+ " " +:+ shell_escape tmp_outfile
  | ChownChmod tmp_outfile user group permissions =>
      let t := shell_escape tmp_outfile in
      Py.join " "
        [ "(";
          " getent passwd '" +:+ user +:+ "' >/dev/null &&";
          " getent group '" +:+ group +:+ "' >/dev/null &&";
          " chown '" +:+ user +:+ ":" +:+ group +:+ "' " +:+ t;
          ");";
          "chmod '" +:+ permissions +:+ "' " +:+ t ]
  | Rename tmp_outfile outfile =>
      "mv " +:+ shell_escape tmp_outfile +:+ " " +:+ shell_escape outfile
  | KeysDone =>
      "mkdir -m 0750 -p /run/keys && " +:+
      "chown root:keys  /run/keys && " +:+
      "touch /run/keys/done"
  end.

(** ** Actions, exceptions and the monad of methods *)

(** Calls that leave the process.  [SshRun rescue c] is
    [self.ssh.run_command] on [command_string c], prefixed by the locale
    reset when [rescue] holds. *)
Inductive action : Type :=
| Log (msg : string)
| SshRun (rescue : bool) (c : remote_cmd)
| Scp (source target : string)
| WriteFile (path text : string)
| Popen (cmd path : string)
| LoggedExec (argv : list string)
| OsRemove (path : string)
| WaitForTcpPort (port : nat).

#[global] Instance action_eq_dec : EqDecision action.
Proof. solve_decision. Defined.

(** The text sent over the channel by [run_command]. *)
Definition ssh_command_line (rescue : bool) (c : remote_cmd) : string :=
  if rescue then "export LANG= LC_ALL= LC_TIME=; " +:+ command_string c
  else command_string c.

Inductive exn : Type :=
| Exception (msg : string)
| KeyError (key : string)
| AssertionError
| SSHConnectionFailed
| SSHCommandFailed
| CommandFailed
| OSError.

#[global] Instance exn_eq_dec : EqDecision exn.
Proof. solve_decision. Defined.

(** What an action answered: an exception, or the captured output. *)
Definition event : Type := action * (exn + string).

Section Methods.

(** The environment: its state, and how it answers an action, either
    by raising or by returning the captured output. *)
Variable World : Type.
Variable perform : action -> World -> (exn + string) * World.

Record ctx : Type := mkCtx {
  self : MachineState;
  world : World;
  trace : list event;
}.

Definition M (A : Type) : Type := ctx -> (exn + A) * ctx.

#[global] Instance M_ret : MRet M := fun A (a : A) s => (inr a, s).
#[global] Instance M_bind : MBind M := fun A B (k : A -> M B) (m : M A) s =>
  match m s with
  | (inl e, s') => (inl e, s')
  | (inr a, s') => k a s'
  end.

Definition ret {A} (a : A) : M A := mret a.
Definition raise {A} (e : exn) : M A := fun s => (inl e, s).

(** [try: m except: h], a bare [except] clause. *)
Definition try_except {A} (m : M A) (h : exn -> M A) : M A :=
  fun s => match m s with
           | (inl e, s') => h e s'
           | (inr a, s') => (inr a, s')
           end.

Definition get_self : M MachineState := fun s => (inr (self s), s).
Definition modify_self (f : MachineState -> MachineState) : M unit :=
  fun s => (inr tt, mkCtx (f (self s)) (world s) (trace s)).

Definition call (a : action) : M string :=
  fun s => let (r, w') := perform a (world s) in
           (r, mkCtx (self s) w' (trace s ++ [(a, r)])).

(** [for x in l: body x]. *)
Fixpoint for_each {A} (l : list A) (body : A -> M unit) : M unit :=
  match l with
  | [] => ret tt
  | x :: l' => body x ;; for_each l' body
  end.

(** [opts[key]]. *)
Definition getitem (opts : key_options) (key : string) : M string :=
  match opts !! key with
  | Some v => ret v
  | None => raise (KeyError key)
  end.

(** *** Channel helpers *)

(** [self.log], [self.log_start], [self.log_end]: recorded in the
    trace; logging neither fails nor touches the environment. *)
Definition log (msg : string) : M unit :=
  fun s => (inr tt, mkCtx (self s) (world s) (trace s ++ [(Log msg, inr EmptyString)])).

Definition run_command (c : remote_cmd) : M string :=
  m ← get_self;
  call (SshRun (bool_decide (state m = RESCUE)) c).

Definition _logged_exec (argv : list string) : M string :=
  call (LoggedExec argv).

Definition upload_file (source target : string) : M string :=
  call (Scp source target).

Definition get_keys : M (list (string * key_options)) :=
  m ← get_self; ret (keys m).

(** *** [send_keys] *)

Definition outfile_of (destDir k : string) : string := destDir +:+ "/" +:+ k.
Definition tmp_outfile_of (destDir k : string) : string :=
  destDir +:+ "/." +:+ k +:+ ".tmp".
Definition scratch_of (m : MachineState) : string :=
  tempdir m +:+ "/key-" +:+ name m.

(** Materialising the secret into the local scratch file. *)
Definition write_scratch (k : string) (opts : key_options) (tmp : string) : M unit :=
  match opts !! "text" with
  | Some text => call (WriteFile tmp text) ;; ret tt
  | None =>
      match opts !! "keyCmd" with
      | Some cmd => call (Popen cmd tmp) ;; ret tt
      | None =>
          match opts !! "keyFile" with
          | Some f => _logged_exec ["cp"; f; tmp] ;; ret tt
          | None =>
              raise (Exception
                ("Neither 'text' or 'keyFile' options were set for key '" +:+ k +:+ "'."))
          end
      end
  end.

(** The body of the loop over [self.get_keys().items()]. *)
Definition send_key (k : string) (opts : key_options) : M unit :=
  log ("uploading key ‘" +:+ k +:+ "’...") ;;
  m ← get_self;
  let tmp := scratch_of m in
  match opts !! "destDir" with
  | None => raise (Exception ("Key '" +:+ k +:+ "' has no 'destDir' specified."))
  | Some d =>
      let destDir := Py.rstrip "/"%char d in
      run_command (EnsureDir destDir) ;;
      write_scratch k opts tmp ;;
      let outfile := outfile_of destDir k in
      let tmp_outfile := tmp_outfile_of destDir k in
      run_command (RmStale outfile tmp_outfile) ;;
      upload_file tmp tmp_outfile ;;
      user ← getitem opts "user";
      group ← getitem opts "group";
      permissions ← getitem opts "permissions";
      run_command (ChownChmod tmp_outfile user group permissions) ;;
      run_command (Rename tmp_outfile outfile) ;;
      call (OsRemove tmp) ;;
      ret tt
  end.

Definition send_keys : M unit :=
  m ← get_self;
  if bool_decide (state m = RESCUE) then ret tt
  else if store_keys_on_machine m then ret tt
  else
    ks ← get_keys;
    for_each ks (fun '(k, opts) => send_key k opts) ;;
    run_command KeysDone ;;
    ret tt.

(** *** [wait_for_ssh] *)

Definition wait_for_ssh (check : bool) : M unit :=
  m ← get_self;
  if ssh_pinged m && (negb check || _ssh_pinged_this_time m) then ret tt
  else
    log "waiting for SSH..." ;;
    call (WaitForTcpPort (ssh_port m)) ;;
    log EmptyString ;;
    m' ← get_self;
    (if bool_decide (state m' <> RESCUE) then modify_self (set_state UP) else ret tt) ;;
    modify_self (set_ssh_pinged true) ;;
    modify_self (set__ssh_pinged_this_time true).

(** *** [get_load_avg] and [_check] *)

Definition get_load_avg : M (option (list string)) :=
  try_except
    (out ← run_command CatLoadavg;
     let res := Py.split " " (Py.rstrip_ws out) in
     if Nat.leb 3 (List.length res) then ret (Some res) else raise AssertionError)
    (fun e => match e with
              | SSHConnectionFailed | SSHCommandFailed => ret None
              | _ => raise e
              end).

(** [res.failed_units.append(u)] and [res.in_progress_units.append(u)]. *)
Definition append_failed_unit (u : string) (res : CheckResult) : CheckResult :=
  set_failed_units (default [] (failed_units res) ++ [u]) res.
Definition append_in_progress_unit (u : string) (res : CheckResult) : CheckResult :=
  set_in_progress_units (default [] (in_progress_units res) ++ [u]) res.

(** The body of [for l in out:]. *)
Definition check_line (l : string) (res : CheckResult) : M CheckResult :=
  let res :=
    match Re.re_match Re.failed_re l with
    | Some g => append_failed_unit g res
    | None => res
    end in
  let res :=
    match Re.re_match Re.activating_re l with
    | Some g => append_in_progress_unit g res
    | None => res
    end in
  let match_ := Re.re_match Re.inactive_mount_re l in
  let res :=
    match match_ with
    | Some g =>
        if negb (Py.startswith g "sys-") && negb (Py.startswith g "dev-")
           && negb (String.eqb g "tmp.mount")
        then append_failed_unit g res else res
    | None => res
    end in
  match match_ with
  | Some g =>
      if String.eqb g "tmp.mount" then
        probed ← try_except (run_command FstabProbe ;; ret true) (fun _ => ret false);
        if probed : bool then ret (append_failed_unit g res) else ret res
      else ret res
  | None => ret res
  end.

Fixpoint check_lines (out : list string) (res : CheckResult) : M CheckResult :=
  match out with
  | [] => ret res
  | l :: out' => res' ← check_line l res; check_lines out' res'
  end.

Definition _check (res : CheckResult) : M CheckResult :=
  avg ← get_load_avg;
  match avg with
  | None =>
      m ← get_self;
      (if bool_decide (state m = UP) then modify_self (set_state UNREACHABLE) else ret tt) ;;
      ret (set_is_reachable false res)
  | Some avg =>
      modify_self (set_state UP) ;;
      modify_self (set_ssh_pinged true) ;;
      modify_self (set__ssh_pinged_this_time true) ;;
      let res := set_load avg (set_is_reachable true res) in
      out ← run_command SystemctlList;
      let out := Py.split "010"%char out in
      let res := set_in_progress_units [] (set_failed_units [] res) in
      check_lines out res
  end.

Definition check : M CheckResult := _check CheckResult_init.

End Methods.

Arguments mkCtx {World}.
Arguments self {World}.
Arguments world {World}.
Arguments trace {World}.
Arguments ret {World A}.
Arguments raise {World A}.
Arguments try_except {World A}.
Arguments get_self {World}.
Arguments modify_self {World}.
Arguments call {World}.
Arguments for_each {World A}.
Arguments getitem {World}.
Arguments log {World}.
Arguments run_command {World}.
Arguments _logged_exec {World}.
Arguments upload_file {World}.
Arguments get_keys {World}.
Arguments write_scratch {World}.
Arguments send_key {World}.
Arguments send_keys {World}.
Arguments wait_for_ssh {World}.
Arguments get_load_avg {World}.
Arguments check_line {World}.
Arguments check_lines {World}.
Arguments _check {World}.
Arguments check {World}.

(** ** A reference environment *)

(** The remote machine as the commands of [send_keys] see it: files with
    content, owner, group and mode; directories; the account databases
    read by [getent]; and, on the local side, the files of the deployment
    host and the output of the shell commands it runs.  The machine has
    no links and no set-group-ID directories, its standard utilities are
    installed, and the commands run as [root].

    A command line is not given its effect by hand: [run_line] reads the
    text sent over the channel with [Sh.lex] and [Sh.parse] and runs the
    commands it is made of, in the order and under the conditions the
    operators [;], [&&], [||] dictate.  A utility has an effect here only
    for operands the model can speak about ([Sh.is_path], [Sh.is_name],
    [Sh.octal_mode]); a line that ends inside a quote is refused by the
    shell as a whole; for every other line, and for an upload whose
    target is not such a path or is a directory, the environment answers
    by itself through [beyond], about which nothing is assumed.

    [upload_mode] is the mode [scp] gives a file it creates,
    [new_file_mode] the one [touch] gives.  [history] records every
    state of the remote files a concurrent reader can observe, in order;
    an upload is not atomic and shows each prefix of the content at its
    target.  [link_budget] is the number of
    remote operations the transport still carries before the connection
    drops ([None]: it never drops).  [child_progress] is how many
    characters a child process started with [Popen] has written when the
    parent goes on, since the parent does not wait for it. *)
Module Posix.

Record rfile : Type := mkFile {
  content : string;
  owner : string;
  group : string;
  mode : string;
}.

#[global] Instance rfile_eq_dec : EqDecision rfile.
Proof. solve_decision. Defined.

Record rdir : Type := mkDir {
  dir_owner : string;
  dir_group : string;
  dir_mode : string;
}.

Record env : Type := mkEnv {
  remote_files : gmap string rfile;
  remote_dirs : gmap string rdir;
  passwd : list string;
  groups : list string;
  upload_mode : string;
  new_file_mode : string;
  loadavg_out : string;
  units_out : string;
  beyond : action -> gmap string string -> gmap string rfile -> gmap string rdir ->
           (exn + string) * gmap string rfile * gmap string rdir;
  local_files : gmap string string;
  shell_stdout : string -> string;
  child_progress : nat;
  link_budget : option nat;
  history : list (gmap string rfile);
}.

Definition with_remote (fs : gmap string rfile) (ds : gmap string rdir)
    (seen : list (gmap string rfile)) (e : env) : env :=
  mkEnv fs ds (passwd e) (groups e) (upload_mode e) (new_file_mode e) (loadavg_out e)
    (units_out e) (beyond e) (local_files e) (shell_stdout e)
    (child_progress e) (link_budget e) (history e ++ seen).

Definition with_local (ls : gmap string string) (e : env) : env :=
  mkEnv (remote_files e) (remote_dirs e) (passwd e) (groups e)
    (upload_mode e) (new_file_mode e) (loadavg_out e) (units_out e) (beyond e) ls
    (shell_stdout e) (child_progress e) (link_budget e) (history e).

Definition with_budget (b : option nat) (e : env) : env :=
  mkEnv (remote_files e) (remote_dirs e) (passwd e) (groups e)
    (upload_mode e) (new_file_mode e) (loadavg_out e) (units_out e) (beyond e)
    (local_files e) (shell_stdout e) (child_progress e) b (history e).

(** *** The utilities *)

(** What a command leaves: whether it exits with status 0, what it
    prints on its standard output, and the machine afterwards.  [None]:
    the model does not speak about this call. *)
Definition result : Type := option (bool * string * env).

Definition silent (ok : bool) (e : env) : result := Some (ok, EmptyString, e).

Definition is_dir (e : env) (p : string) : bool :=
  bool_decide (is_Some (remote_dirs e !! p)).

(** Do [getent passwd u] and [getent group g] both succeed? *)
Definition resolves (e : env) (u g : string) : bool :=
  bool_decide (u ∈ passwd e) && bool_decide (g ∈ groups e).

(** [chown u:g] and [chmod p] on a file. *)
Definition chowned (u g : string) (f : rfile) : rfile :=
  mkFile (content f) u g (mode f).
Definition chmodded (p : string) (f : rfile) : rfile :=
  mkFile (content f) (owner f) (group f) p.

(** [test -d p]. *)
Definition test_ (args : list string) (e : env) : result :=
  match args with
  | [flag; p] =>
      if String.eqb flag "-d" && Sh.is_path p then silent (is_dir e p) e else None
  | _ => None
  end.

(** [mkdir -m mode -p d]: nothing to do for a directory that exists;
    no directory can take the place of a file; a missing directory whose
    parent exists is created with that mode. *)
Definition mkdir_ (args : list string) (e : env) : result :=
  match args with
  | [m; md; p; d] =>
      if String.eqb m "-m" && Sh.octal_mode md && String.eqb p "-p" && Sh.is_path d then
        match remote_dirs e !! d, remote_files e !! d with
        | Some _, _ => silent true e
        | None, Some _ => silent false e
        | None, None =>
            if is_dir e (Sh.parent d) then
              silent true
                (with_remote (remote_files e)
                   (<[d := mkDir "root" "root" md]> (remote_dirs e)) [] e)
            else None
        end
      else None
  | _ => None
  end.

(** [chown u:g p]: fails when the user or the group is unknown or
    [p] does not exist.  For a file with the set-user-ID or set-group-ID
    bit the model is silent. *)
Definition chown_ (args : list string) (e : env) : result :=
  match args with
  | [spec; p] =>
      match Sh.owner_spec spec with
      | Some (u, g) =>
          if Sh.is_path p then
            if resolves e u g then
              match remote_dirs e !! p, remote_files e !! p with
              | Some d, _ =>
                  silent true
                    (with_remote (remote_files e)
                       (<[p := mkDir u g (dir_mode d)]> (remote_dirs e)) [] e)
              | None, Some f =>
                  if Sh.ordinary_mode (mode f) then
                    let fs := <[p := chowned u g f]> (remote_files e) in
                    silent true (with_remote fs (remote_dirs e) [fs] e)
                  else None
              | None, None => silent false e
              end
            else silent false e
          else None
      | None => None
      end
  | _ => None
  end.

(** [chmod mode p]. *)
Definition chmod_ (args : list string) (e : env) : result :=
  match args with
  | [md; p] =>
      if Sh.octal_mode md && Sh.is_path p then
        match remote_dirs e !! p, remote_files e !! p with
        | Some d, _ =>
            silent true
              (with_remote (remote_files e)
                 (<[p := mkDir (dir_owner d) (dir_group d) md]> (remote_dirs e)) [] e)
        | None, Some f =>
            let fs := <[p := chmodded md f]> (remote_files e) in
            silent true (with_remote fs (remote_dirs e) [fs] e)
        | None, None => silent false e
        end
      else None
  | _ => None
  end.

(** [rm -f p ...]: each file named is removed, a missing one is passed
    over, a directory is an error and stays. *)
Fixpoint rm_f (ps : list string) (ds : gmap string rdir) (fs : gmap string rfile)
    : bool * gmap string rfile * list (gmap string rfile) :=
  match ps with
  | [] => (true, fs, [])
  | p :: ps' =>
      match ds !! p with
      | Some _ => let '(_, fs', seen) := rm_f ps' ds fs in (false, fs', seen)
      | None =>
          let '(ok, fs', seen) := rm_f ps' ds (delete p fs) in
          (ok, fs', delete p fs :: seen)
      end
  end.

Definition rm_ (args : list string) (e : env) : result :=
  match args with
  | flag :: ps =>
      if String.eqb flag "-f" && forallb Sh.is_path ps then
        let '(ok, fs, seen) := rm_f ps (remote_dirs e) (remote_files e) in
        silent ok (with_remote fs (remote_dirs e) seen e)
      else None
  | [] => None
  end.

(** [mv t o] of a file onto a path of the same directory that is not
    a directory: a rename, which a reader sees as one step. *)
Definition mv_ (args : list string) (e : env) : result :=
  match args with
  | [t; o] =>
      if Sh.is_path t && Sh.is_path o && negb (is_dir e t) && negb (is_dir e o)
         && String.eqb (Sh.parent t) (Sh.parent o) && is_dir e (Sh.parent o) then
        match remote_files e !! t with
        | Some f =>
            if String.eqb t o then silent false e
            else
              let fs := <[o := f]> (delete t (remote_files e)) in
              silent true (with_remote fs (remote_dirs e) [fs] e)
        | None => silent false e
        end
      else None
  | _ => None
  end.

(** [touch p]: what exists is left alone, a missing file is created
    empty in a directory that exists. *)
Definition touch (path um : string) (fs : gmap string rfile) : gmap string rfile :=
  match fs !! path with
  | Some _ => fs
  | None => <[path := mkFile EmptyString "root" "root" um]> fs
  end.

Definition touch_ (args : list string) (e : env) : result :=
  match args with
  | [p] =>
      if Sh.is_path p then
        if is_dir e p then silent true e
        else if is_dir e (Sh.parent p) then
          let fs := touch p (new_file_mode e) (remote_files e) in
          silent true (with_remote fs (remote_dirs e) [fs] e)
        else match remote_files e !! p with
             | Some _ => silent true e
             | None => silent false e
             end
      else None
  | _ => None
  end.

(** [getent passwd u] and [getent group g]: the entry printed is not
    modelled, so the call is spoken about only when its output is
    discarded. *)
Definition getent_ (quiet : bool) (args : list string) (e : env) : result :=
  match args with
  | [db; n] =>
      if quiet && Sh.is_name n then
        if String.eqb db "passwd" then silent (bool_decide (n ∈ passwd e)) e
        else if String.eqb db "group" then silent (bool_decide (n ∈ groups e)) e
        else None
      else None
  | _ => None
  end.

(** [cat /proc/loadavg] and [systemctl --all --full --no-legend]. *)
Definition cat_ (args : list string) (e : env) : result :=
  match args with
  | [p] => if String.eqb p "/proc/loadavg" then Some (true, loadavg_out e, e) else None
  | _ => None
  end.

Definition systemctl_ (args : list string) (e : env) : result :=
  match args with
  | [a; b; c] =>
      if String.eqb a "--all" && String.eqb b "--full" && String.eqb c "--no-legend"
      then Some (true, units_out e, e) else None
  | _ => None
  end.

(** [export NAME=value ...]: the locale does not bear on the other
    utilities. *)
Definition export_ (args : list string) (e : env) : result :=
  match args with
  | [] => None
  | _ => if forallb Sh.is_assignment args then silent true e else None
  end.

Definition mute (quiet : bool) (r : result) : result :=
  match r with
  | Some (ok, out, e) => Some (ok, if quiet then EmptyString else out, e)
  | None => None
  end.

Definition utility (quiet : bool) (argv : list string) (e : env) : result :=
  match argv with
  | cmd :: args =>
      if String.eqb cmd "test" then test_ args e
      else if String.eqb cmd "mkdir" then mkdir_ args e
      else if String.eqb cmd "chown" then chown_ args e
      else if String.eqb cmd "chmod" then chmod_ args e
      else if String.eqb cmd "rm" then rm_ args e
      else if String.eqb cmd "mv" then mv_ args e
      else if String.eqb cmd "touch" then touch_ args e
      else if String.eqb cmd "getent" then getent_ quiet args e
      else if String.eqb cmd "cat" then mute quiet (cat_ args e)
      else if String.eqb cmd "systemctl" then mute quiet (systemctl_ args e)
      else if String.eqb cmd "export" then export_ args e
      else None
  | [] => None
  end.

(** *** Command lines *)

(** [;] runs both commands and answers with the status of the second;
    [&&] runs the second only after a first that succeeded, [||] only
    after a first that failed; the outputs follow each other. *)
Fixpoint run (quiet : bool) (p : Sh.prog) (e : env) : result :=
  match p with
  | Sh.Run argv => utility quiet argv e
  | Sh.Quiet p => run true p e
  | Sh.Sub p => run quiet p e
  | Sh.Seq p q =>
      match run quiet p e with
      | Some (_, out1, e1) =>
          match run quiet q e1 with
          | Some (ok, out2, e2) => Some (ok, out1 +:+ out2, e2)
          | None => None
          end
      | None => None
      end
  | Sh.And p q =>
      match run quiet p e with
      | Some (true, out1, e1) =>
          match run quiet q e1 with
          | Some (ok, out2, e2) => Some (ok, out1 +:+ out2, e2)
          | None => None
          end
      | r => r
      end
  | Sh.Or p q =>
      match run quiet p e with
      | Some (false, out1, e1) =>
          match run quiet q e1 with
          | Some (ok, out2, e2) => Some (ok, out1 +:+ out2, e2)
          | None => None
          end
      | r => r
      end
  end.

(** One line of text handed to the shell of the machine. *)
Definition run_line (text : string) (e : env) : result :=
  match Sh.read text with
  | Sh.Program p => run false p e
  | Sh.Refused => silent false e
  | Sh.Beyond => None
  end.

(** One remote command: the text [run_command] sends for it. *)
Definition exec_remote (rescue : bool) (c : remote_cmd) (e : env) : result :=
  run_line (ssh_command_line rescue c) e.

(** The answer of the environment where the model is silent. *)
Definition unknown (a : action) (e : env) : (exn + string) * env :=
  let '(r, fs, ds) := beyond e a (local_files e) (remote_files e) (remote_dirs e) in
  (r, with_remote fs ds [fs] e).

(** *** Uploads *)

(** The file [scp] leaves at [target] once [c] has arrived: a new file
    belongs to the uploading identity and has mode [um], an existing one
    keeps its owner and mode. *)
Definition uploaded (fs : gmap string rfile) (um target c : string) : rfile :=
  match fs !! target with
  | Some f => mkFile c (owner f) (group f) (mode f)
  | None => mkFile c "root" "root" um
  end.

Definition scp_stages (fs : gmap string rfile) (um target c : string)
    : list (gmap string rfile) :=
  map (fun n => <[target := uploaded fs um target (String.substring 0 n c)]> fs)
      (seq 0 (String.length c)).

(** Does the transport carry one more remote operation? *)
Definition link_up (e : env) : bool :=
  match link_budget e with Some 0 => false | _ => true end.
Definition use_link (e : env) : env :=
  with_budget (pred <$> link_budget e) e.

Definition perform (a : action) (e : env) : (exn + string) * env :=
  match a with
  | Log _ => (inr EmptyString, e)
  | WaitForTcpPort _ => (inr EmptyString, e)
  | SshRun rescue c =>
      if link_up e then
        match exec_remote rescue c (use_link e) with
        | Some (true, out, e') => (inr out, e')
        | Some (false, _, e') => (inl SSHCommandFailed, e')
        | None => unknown a (use_link e)
        end
      else (inl SSHConnectionFailed, e)
  | Scp source target =>
      if link_up e then
        let e := use_link e in
        match local_files e !! source with
        | None => (inl CommandFailed, e)
        | Some c =>
            if Sh.is_path target && negb (is_dir e target) then
              if is_dir e (Sh.parent target) then
                let fs := remote_files e in
                let fs' := <[target := uploaded fs (upload_mode e) target c]> fs in
                (inr EmptyString,
                 with_remote fs' (remote_dirs e)
                   (scp_stages fs (upload_mode e) target c ++ [fs']) e)
              else (inl CommandFailed, e)
            else unknown a e
        end
      else (inl CommandFailed, e)
  | WriteFile path text => (inr EmptyString, with_local (<[path := text]> (local_files e)) e)
  | Popen cmd path =>
      let written := String.substring 0 (child_progress e) (shell_stdout e cmd) in
      (inr EmptyString, with_local (<[path := written]> (local_files e)) e)
  | LoggedExec ["cp"; src; dst] =>
      match local_files e !! src with
      | Some c =>
          if String.eqb src dst then (inl CommandFailed, e)
          else (inr EmptyString, with_local (<[dst := c]> (local_files e)) e)
      | None => (inl CommandFailed, e)
      end
  | LoggedExec _ => (inr EmptyString, e)
  | OsRemove path =>
      match local_files e !! path with
      | Some _ => (inr EmptyString, with_local (delete path (local_files e)) e)
      | None => (inl OSError, e)
      end
  end.

(** Running a method of a machine in this environment. *)
Definition exec {A} (m : M env A) (self0 : MachineState) (e : env)
    : (exn + A) * ctx env :=
  m (mkCtx self0 e []).

(** *** What a well-formed secret specification provisions *)

(** The content of the scratch file once [write_scratch] has returned. *)
Definition scratch_content (e : env) (opts : key_options) : option string :=
  match opts !! "text" with
  | Some text => Some text
  | None =>
      match opts !! "keyCmd" with
      | Some cmd => Some (String.substring 0 (child_progress e) (shell_stdout e cmd))
      | None =>
          match opts !! "keyFile" with
          | Some f => local_files e !! f
          | None => None
          end
      end
  end.

(** The file a complete run of the protocol publishes for content [c]. *)
Definition published (e : env) (c u g p : string) : rfile :=
  if resolves e u g then mkFile c u g p else mkFile c "root" "root" p.

(** For a user and a group that are names and permissions in octal,
    the shell reads the ownership and mode command as written. *)
Definition provisioned_file (e : env) (opts : key_options) : option rfile :=
  c ← scratch_content e opts;
  u ← opts !! "user";
  g ← opts !! "group";
  p ← opts !! "permissions";
  if Sh.is_name u && Sh.is_name g && Sh.octal_mode p
  then Some (published e c u g p) else None.

Definition dest_dir (opts : key_options) : option string :=
  Py.rstrip "/" <$> opts !! "destDir".

Definition dest_path (k : string) (opts : key_options) : option string :=
  (fun d => outfile_of d k) <$> dest_dir opts.

Definition tmp_path (k : string) (opts : key_options) : option string :=
  (fun d => tmp_outfile_of d k) <$> dest_dir opts.

(** The remote paths the protocol touches for a list of keys, and the
    directories it puts them in. *)
Definition key_paths (ks : list (string * key_options)) : list string :=
  ks ≫= (fun '(k, opts) => option_list (dest_path k opts) ++ option_list (tmp_path k opts)).

Definition key_dirs (ks : list (string * key_options)) : list string :=
  omap (fun ko => dest_dir ko.2) ks.

(** A specification the protocol can carry out in [e] for machine
    [m]: the name is one path component and the directory a path, so
    that quoting and the upload leave them as they are; the content is
    written out before the upload (the source is [text] or [keyFile], a
    [keyCmd] is not waited for); user, group and permissions are there in
    the shape [provisioned_file] asks for; and the key file is not the
    scratch file itself. *)
Definition well_formed (e : env) (m : MachineState) (ko : string * key_options) : Prop :=
  Sh.component ko.1 = true /\
  (exists d, dest_dir ko.2 = Some d /\ Sh.is_path d = true) /\
  (ko.2 !! "text" = None -> ko.2 !! "keyCmd" = None) /\
  is_Some (provisioned_file e ko.2) /\
  ko.2 !! "keyFile" <> Some (scratch_of m).

(** A directory the protocol can rely on: it exists, or its parent
    does and no file is in its place. *)
Definition dir_ready (e : env) (d : string) : Prop :=
  is_Some (remote_dirs e !! d) \/
  (remote_files e !! d = None /\ is_Some (remote_dirs e !! Sh.parent d)).

(** The machine is laid out for the directories [dirs] and the files
    [paths]: each directory is ready, and no file path is a directory or
    one of [dirs]. *)
Definition laid_out (e : env) (dirs paths : list string) : Prop :=
  Forall (dir_ready e) dirs /\
  Forall (fun q => remote_dirs e !! q = None /\ q ∉ dirs) paths.

(** The layout [send_keys] needs for its keys and its readiness
    marker. *)
Definition staged (e : env) (ks : list (string * key_options)) : Prop :=
  laid_out e (key_dirs ks ++ ["/run/keys"]) (key_paths ks ++ ["/run/keys/done"]).

(** The states a reader saw since the history had [n] entries. *)
Definition seen_since (n : nat) (e : env) : list (gmap string rfile) :=
  drop n (history e).

(** The parts of the environment no action of [send_keys] changes. *)
Definition same_static (e e' : env) : Prop :=
  passwd e' = passwd e /\ groups e' = groups e /\
  upload_mode e' = upload_mode e /\ new_file_mode e' = new_file_mode e /\
  shell_stdout e' = shell_stdout e /\
  child_progress e' = child_progress e /\ link_budget e' = link_budget e /\
  beyond e' = beyond e.

End Posix.

(** ** Vocabulary of the properties *)

(** [creates ev p]: the action of [ev] brings a file into existence at
    the remote path [p]. *)
Definition creates (ev : event) (p : string) : Prop :=
  match ev.1 with
  | Scp _ target => target = p
  | SshRun _ (Rename _ outfile) => outfile = p
  | SshRun _ KeysDone => p = "/run/keys/done"
  | _ => False
  end.

(** The events [seg] of one iteration of the loop of [send_keys], for the
    key [k] with options [opts], publish the secret atomically: the
    upload goes to the temporary path, files appear at the temporary and
    the final path only, nothing but the rename creates the final path,
    and the rename comes right after the upload and the ownership and
    mode command, both of which returned. *)
Definition atomic_publication (m : MachineState) (k : string) (opts : key_options)
    (seg : list event) : Prop :=
  match opts !! "destDir" with
  | None => forall ev p, ev ∈ seg -> ~ creates ev p
  | Some d =>
      let destDir := Py.rstrip "/" d in
      let o := outfile_of destDir k in
      let t := tmp_outfile_of destDir k in
      t <> o /\
      (forall src tgt r, (Scp src tgt, r) ∈ seg -> tgt = t) /\
      (forall ev p, ev ∈ seg -> creates ev p -> p = o \/ p = t) /\
      (forall ev, ev ∈ seg -> creates ev o -> exists b r, ev = (SshRun b (Rename t o), r)) /\
      (forall b r, (SshRun b (Rename t o), r) ∈ seg ->
         exists pre post u g p out1 out2,
           opts !! "user" = Some u /\ opts !! "group" = Some g /\
           opts !! "permissions" = Some p /\
           seg = pre ++ [(Scp (scratch_of m) t, inr out1);
                         (SshRun b (ChownChmod t u g p), inr out2);
                         (SshRun b (Rename t o), r)] ++ post /\
           forall ev, ev ∈ pre ++ post -> ~ creates ev o /\ ~ creates ev t)
  end.

(** A [permissions] value that closes the quotes it is put between and
    names another file: the line then ends in
    [chmod 'p1' 'q'; chmod 'p2' t]. *)
Definition smuggled (p1 q p2 : string) : string :=
  p1 +:+ "' '" +:+ q +:+ "'; chmod '" +:+ p2.

(** Is [ev] one of the commands that finish a publication? *)
Definition finishes_publication (ev : event) : Prop :=
  match ev.1 with
  | SshRun _ (ChownChmod _ _ _ _) | SshRun _ (Rename _ _) => True
  | _ => False
  end.

(** A unit name as the listing prints it: not empty, no space. *)
Definition unit_token (tok : string) : Prop :=
  tok <> EmptyString /\ Py.contains " " tok = false.

(** The stem of a mount unit matched by [[^\.]+]: not empty, no dot. *)
Definition mount_stem (bar : string) : Prop :=
  bar <> EmptyString /\ Py.contains "." bar = false.

(** The line [unit ... marker ...] of a listing, with [a] and [b] for
    the elided parts. *)
Definition listing_line (unit a marker b : string) : string :=
  unit +:+ " " +:+ a +:+ " " +:+ marker +:+ " " +:+ b.

Definition failed_of (res : CheckResult) : list string := default [] (failed_units res).
Definition in_progress_of (res : CheckResult) : list string :=
  default [] (in_progress_units res).

(** The state of [res] when the loop over the listing starts. *)
Definition fresh_units (res : CheckResult) : CheckResult :=
  set_in_progress_units [] (set_failed_units [] res).

(** A pattern tail that cannot start on any character but [c]. *)
Definition needs_char (c : ascii) (p : list Re.tok) : Prop :=
  forall bol cur g1 a r, a <> c -> Re.run p bol cur g1 (String a r) = None.

(** The shape shared by the two patterns anchored on a unit token. *)
Definition token_re (marker : string) : list Re.tok :=
  [Re.Bol; Re.Open; Re.Plus (Re.NotChar " "); Re.Close; Re.Lit " "; Re.Star Re.Dot;
   Re.Lit marker; Re.Star Re.Dot; Re.Eol].

(** What the rule for inactive mounts lets through. *)
Definition inactive_rule (u : string) : bool :=
  negb (Py.startswith u "sys-") && negb (Py.startswith u "dev-")
  && negb (String.eqb u "tmp.mount").

(** ** Sample machines and environments *)

Module Sample.

Definition base_opts : key_options :=
  <["destDir" := "/run/keys/"]> (<["user" := "alice"]> (<["group" := "keys"]>
    (<["permissions" := "0640"]> ∅))).

Definition text_opts : key_options := <["text" := "s3cr3t"]> base_opts.
Definition cmd_opts : key_options := <["keyCmd" := "pass show db"]> base_opts.
Definition no_source_opts : key_options := base_opts.
Definition no_destdir_opts : key_options := delete "destDir" text_opts.
Definition stranger_opts : key_options := <["user" := "mallory"]> text_opts.

Definition machine (st : State) (store : bool) (ks : list (string * key_options))
    : MachineState :=
  mkMachineState "web" "/tmp/nixops" st true false 22 true store ks.

(** An environment that refuses whatever the model is silent about,
    the probe of [/etc/fstab] for one. *)
Definition refuse (a : action) (ls : gmap string string)
    (fs : gmap string Posix.rfile) (ds : gmap string Posix.rdir)
    : (exn + string) * gmap string Posix.rfile * gmap string Posix.rdir :=
  (inl (match a with Scp _ _ => CommandFailed | _ => SSHCommandFailed end), fs, ds).

(** A machine after boot: [/run] is there, [/run/keys] not yet. *)
Definition booted : gmap string Posix.rdir :=
  <["/" := Posix.mkDir "root" "root" "0755"]>
    (<["/run" := Posix.mkDir "root" "root" "0755"]> ∅).

Definition host : Posix.env :=
  Posix.mkEnv ∅ booted ["root"; "alice"] ["root"; "keys"] "0600" "0644"
    "0.10 0.20 0.30 1/200 1234" EmptyString refuse ∅ (fun _ => "hunter2") 0 None [].

(** The same host, whose connection is down. *)
Definition offline : Posix.env := Posix.with_budget (Some 0) host.

Definition start (m : MachineState) (e : Posix.env) : ctx Posix.env := mkCtx m e [].

(** A machine that was never reached. *)
Definition fresh_machine : MachineState :=
  mkMachineState "web" "/tmp/nixops" STARTING false false 22 true false [].

(** A machine with one inline secret, and one with two. *)
Definition one_key : MachineState := machine UP false [("db", text_opts)].
Definition two_keys : MachineState :=
  machine UP false [("db", text_opts); ("tls", stranger_opts)].

Definition nl : string := String "010" EmptyString.

(** A unit listing as [systemctl --all --full --no-legend] prints it. *)
Definition listing : string :=
  "foo.service loaded failed failed Foo daemon" +:+ nl +:+
  "baz.service loaded activating start Baz daemon" +:+ nl +:+
  "bar.mount loaded inactive dead /bar" +:+ nl +:+
  "dev-hugepages.mount loaded failed failed Huge Pages File System" +:+ nl +:+
  "sys-kernel-config.mount loaded inactive dead Kernel Configuration File System".

End Sample.

(** ** Machine definitions read from XML *)

(** The part of [xml.etree.ElementTree] used by [MachineDefinition]: an
    element has a tag, a dictionary of attributes and its child elements
    in document order.  A path such as [attrs/attr[@name='keys']/attrs/attr]
    is a list of steps; each step maps the elements selected so far, in
    order, to the next selection, as [ElementPath.iterfind] does.  The
    text of an element is never read and is left out. *)
Module ET.

#[local] Set Warnings "-register-all".

Inductive Element : Type :=
| mkElement (tag : string) (attrib : gmap string string) (children : list Element).

Definition tag (e : Element) : string :=
  match e with mkElement t _ _ => t end.
Definition attrib (e : Element) : gmap string string :=
  match e with mkElement _ a _ => a end.
Definition children (e : Element) : list Element :=
  match e with mkElement _ _ c => c end.

(** [e.get(key)]. *)
Definition get (e : Element) (key : string) : option string := attrib e !! key.

Inductive step : Type :=
| Child (tag : string)              (* [tag] *)
| AttrIs (key value : string).      (* [[@key='value']] *)

Definition select (st : step) (result : list Element) : list Element :=
  match st with
  | Child t => result ≫= (fun elem => filter (fun e => tag e = t) (children elem))
  | AttrIs key value => filter (fun elem => get elem key = Some value) result
  end.

(** [e.findall(path)] and [e.find(path)]. *)
Definition findall (path : list step) (e : Element) : list Element :=
  foldl (fun result st => select st result) [e] path.

Definition find (path : list step) (e : Element) : option Element :=
  head (findall path e).

End ET.

(** [d[k] = v] on a dictionary kept in insertion order: a key already
    present keeps its place and takes the new value. *)
Fixpoint dict_set {K V : Type} `{EqDecision K} (k : K) (v : V) (d : list (K * V))
    : list (K * V) :=
  match d with
  | [] => [(k, v)]
  | (k', v') :: d' =>
      if decide (k' = k) then (k', v) :: d' else (k', v') :: dict_set k v d'
  end.

(** [d.get(k)]. *)
Fixpoint dict_get {K V : Type} `{EqDecision K} (k : K) (d : list (K * V)) : option V :=
  match d with
  | [] => None
  | (k', v') :: d' => if decide (k' = k) then Some v' else dict_get k d'
  end.

(** [MachineDefinition.__init__], after the inherited initialiser
    ([nixops.resources.ResourceDefinition.__init__], which is not part
    of this file).  The name of a key is [k.get("name")], so it is [None]
    for an element without that attribute. *)
Module MachineDefinition.

Inductive error : Type :=
| AttributeError      (* [None.get]: the element looked for is absent *)
| TypeError           (* [int(None)] *)
| ValueError.         (* [int(text)] on a text that is no integer *)

Record t : Type := mk {
  store_keys_on_machine : bool;
  ssh_port : Z;
  always_activate : bool;
  owners : list (option string);
  has_fast_connection : bool;
  keys : list (option string * key_options);
}.

(** ["attrs/attr[@name='{0}']/{1}".format(name, xmlType)]. *)
Definition attr_path (name xmlType : string) : list ET.step :=
  [ET.Child "attrs"; ET.Child "attr"; ET.AttrIs "name" name; ET.Child xmlType].

(** ["attrs/attr[@name='owners']/list/string"]. *)
Definition owners_path : list ET.step :=
  [ET.Child "attrs"; ET.Child "attr"; ET.AttrIs "name" "owners"; ET.Child "list";
   ET.Child "string"].

(** ["attrs/attr[@name='keys']/attrs/attr"]. *)
Definition keys_path : list ET.step :=
  [ET.Child "attrs"; ET.Child "attr"; ET.AttrIs "name" "keys"; ET.Child "attrs";
   ET.Child "attr"].

(** The options [_extract_key_options] looks for, each with the XML
    type of its value. *)
Definition key_fields : list (string * string) :=
  [("text", "string"); ("keyFile", "path"); ("destDir", "string");
   ("user", "string"); ("group", "string"); ("permissions", "string")].

Definition _extract_key_options (x : ET.Element) : key_options :=
  foldl (fun opts '(key, xmlType) =>
           match ET.find (attr_path key xmlType) x with
           | Some elem =>
               match ET.get elem "value" with
               | Some value => <[key := value]> opts
               | None => opts
               end
           | None => opts
           end) ∅ key_fields.

(** [{k.get("name"): _extract_key_options(k) for k in elems}]. *)
Definition keys_of (elems : list ET.Element) : list (option string * key_options) :=
  foldl (fun d k => dict_set (ET.get k "name") (_extract_key_options k) d) [] elems.

(** [xml.find(path).get("value") == "true"]. *)
Definition flag (name : string) (xml : ET.Element) : error + bool :=
  match ET.find (attr_path name "bool") xml with
  | None => inl AttributeError
  | Some e => inr (bool_decide (ET.get e "value" = Some "true"))
  end.

Section Init.

(** Python's [int] on a text: [None] stands for [ValueError]. *)
Variable int : string -> option Z.

(** [int(xml.find(path).get("value"))]. *)
Definition port (xml : ET.Element) : error + Z :=
  match ET.find (attr_path "targetPort" "int") xml with
  | None => inl AttributeError
  | Some e =>
      match ET.get e "value" with
      | None => inl TypeError
      | Some v => match int v with Some n => inr n | None => inl ValueError end
      end
  end.

Definition __init__ (xml : ET.Element) : error + t :=
  match flag "storeKeysOnMachine" xml with
  | inl e => inl e
  | inr store =>
      match port xml with
      | inl e => inl e
      | inr p =>
          match flag "alwaysActivate" xml with
          | inl e => inl e
          | inr activate =>
              let owners := (fun e => ET.get e "value") <$> ET.findall owners_path xml in
              match flag "hasFastConnection" xml with
              | inl e => inl e
              | inr fast =>
                  inr (mk store p activate owners fast
                         (keys_of (ET.findall keys_path xml)))
              end
          end
      end
  end.

End Init.

End MachineDefinition.

(** ** Rebooting *)

(** The [started] property. *)
Definition started (m : MachineState) : bool :=
  bool_decide (state m = STARTING) || bool_decide (state m = UP).

(** [get_ssh_flags(scp)]: the port, as [scp] or as [ssh] wants it. *)
Definition get_ssh_flags (scp : bool) (m : MachineState) : list string :=
  if scp then ["-P"; pretty (ssh_port m)] else ["-p"; pretty (ssh_port m)].

(** The calls of [reboot] and [reboot_sync] that [action] does not
    have: [self.ssh.run_command(command, flags, check=False)], which
    answers with the exit status of the command instead of raising on a
    non-zero one; [self.ssh.reset()]; and
    [nixops.util.wait_for_tcp_port(host, port, open=...)], whose callback
    only prints progress dots. *)
Inductive more_action : Type :=
| SshRunUnchecked (command : string) (flags : list string)
| SshReset
| WaitForTcpPortOn (host : string) (port : nat) (open : bool).

#[global] Instance more_action_eq_dec : EqDecision more_action.
Proof. solve_decision. Defined.

(** One entry of the journal of a session: an action of [action] or
    one of [more_action], with its outcome. *)
Definition entry : Type := event + more_action * (exn + Z).

Section Lifecycle.

Variable World : Type.
Variable perform : action -> World -> (exn + string) * World.
Variable perform_more : more_action -> World -> (exn + Z) * World.

(** [get_ssh_name] is abstract in this class ([assert False]); a
    backend overrides it. *)
Variable get_ssh_name : MachineState -> exn + string.

(** The environment together with the journal of everything asked of
    it, in order. *)
Record session : Type := mkSession {
  inner : World;
  journal : list entry;
}.

Definition perform_in (a : action) (w : session) : (exn + string) * session :=
  let (r, e) := perform a (inner w) in (r, mkSession e (journal w ++ [inl (a, r)])).

Definition call_more (c : more_action) : M session Z :=
  fun s => let (r, e) := perform_more c (inner (world s)) in
           (r, mkCtx (self s) (mkSession e (journal (world s) ++ [inr (c, r)])) (trace s)).

Definition ssh_name : M session string :=
  fun s => (get_ssh_name (self s), s).

(** [self.run_command(command, check=False)]. *)
Definition run_command_unchecked (command : string) : M session Z :=
  m ← get_self;
  let command :=
    if bool_decide (state m = RESCUE)
    then "export LANG= LC_ALL= LC_TIME=; " +:+ command else command in
  call_more (SshRunUnchecked command (get_ssh_flags false m)).

Definition reboot (hard : bool) : M session unit :=
  log "rebooting..." ;;
  m ← get_self;
  let reboot_command :=
    if bool_decide (state m = RESCUE) then "(sleep 2; reboot) &" else "systemctl reboot" in
  run_command_unchecked reboot_command ;;
  modify_self (set_state STARTING) ;;
  call_more SshReset ;;
  ret tt.

Definition reboot_sync (hard : bool) : M session unit :=
  reboot hard ;;
  log "waiting for the machine to finish rebooting..." ;;
  host ← ssh_name;
  m ← get_self;
  call_more (WaitForTcpPortOn host (ssh_port m) false) ;;
  log "[down]" ;;
  host ← ssh_name;
  m ← get_self;
  call_more (WaitForTcpPortOn host (ssh_port m) true) ;;
  log "[up]" ;;
  modify_self (set_state UP) ;;
  modify_self (set_ssh_pinged true) ;;
  modify_self (set__ssh_pinged_this_time true) ;;
  send_keys perform_in.

End Lifecycle.

Arguments mkSession {World}.
Arguments inner {World}.
Arguments journal {World}.
Arguments perform_in {World}.
Arguments call_more {World}.
Arguments ssh_name {World}.
Arguments run_command_unchecked {World}.
Arguments reboot {World}.
Arguments reboot_sync {World}.

(** ** Vocabulary of the further properties *)

(** [c * n]. *)
Fixpoint repeat_char (c : ascii) (n : nat) : string :=
  match n with O => EmptyString | S n => String c (repeat_char c n) end.

(** What an event of the loop body of [send_keys] may be, for the key
    [k] with options [opts] on the machine [m]: the announcement; a
    remote command on the paths of the key, prefixed or not as the state
    of the machine commands; the upload of the scratch file to the
    temporary path; the write of the secret into the scratch file from
    the source that takes precedence ([text], then [keyCmd], then
    [keyFile]); the removal of the scratch file. *)
Definition key_event (m : MachineState) (k : string) (opts : key_options)
    (ev : event) : Prop :=
  let tmp := scratch_of m in
  match ev.1 with
  | Log msg => msg = "uploading key ‘" +:+ k +:+ "’..."
  | SshRun b c =>
      b = bool_decide (state m = RESCUE) /\
      exists d, opts !! "destDir" = Some d /\
        let destDir := Py.rstrip "/" d in
        let o := outfile_of destDir k in
        let t := tmp_outfile_of destDir k in
        match c with
        | EnsureDir x => x = destDir
        | RmStale x y => x = o /\ y = t
        | ChownChmod x u g p =>
            x = t /\ opts !! "user" = Some u /\ opts !! "group" = Some g /\
            opts !! "permissions" = Some p
        | Rename x y => x = t /\ y = o
        | _ => False
        end
  | Scp src tgt =>
      src = tmp /\ exists d, opts !! "destDir" = Some d /\
        tgt = tmp_outfile_of (Py.rstrip "/" d) k
  | WriteFile path text => path = tmp /\ opts !! "text" = Some text
  | Popen cmd path =>
      path = tmp /\ opts !! "text" = None /\ opts !! "keyCmd" = Some cmd
  | LoggedExec argv =>
      exists f, argv = ["cp"; f; tmp] /\ opts !! "text" = None /\
        opts !! "keyCmd" = None /\ opts !! "keyFile" = Some f
  | OsRemove path => path = tmp
  | WaitForTcpPort _ => False
  end.

(** [needle in hay] for two strings. *)
Fixpoint str_in (needle hay : string) : bool :=
  String.prefix needle hay ||
  match hay with
  | EmptyString => false
  | String _ r => str_in needle r
  end.

(** A line of the listing that shows none of the three markers. *)
Definition quiet (l : string) : bool :=
  negb (str_in " failed " l) && negb (str_in " activating " l)
  && negb (str_in " inactive " l).

(** The attributes of a [CheckResult] the health check never assigns. *)
Definition untouched (r r' : CheckResult) : Prop :=
  exists_ r' = exists_ r /\ is_up r' = is_up r /\ disks_ok r' = disks_ok r /\
  messages r' = messages r.

(** The machine object once the health check has found it reachable. *)
Definition marked_up (m : MachineState) : MachineState :=
  set__ssh_pinged_this_time true (set_ssh_pinged true (set_state UP m)).

(** The fields of a load average line. *)
Definition load_fields (out : string) : list string :=
  Py.split " " (Py.rstrip_ws out).

(** The local path an action writes, removes or uploads from. *)
Definition scratch_use (a : action) : option string :=
  match a with
  | WriteFile path _ => Some path
  | Popen _ path => Some path
  | LoggedExec ["cp"; _; dst] => Some dst
  | OsRemove path => Some path
  | Scp source _ => Some source
  | _ => None
  end.

(** ** Further samples *)

Module Lab.
Import Sample.

(** An environment in which the SSH port never opens. *)
Definition unplugged (a : action) (w : unit) : (exn + string) * unit :=
  match a with
  | WaitForTcpPort _ => (inl (Exception "timed out"), w)
  | _ => (inr EmptyString, w)
  end.

(** The sample host with the sample listing of units. *)
Definition busy : Posix.env :=
  Posix.mkEnv ∅ booted ["root"; "alice"] ["root"; "keys"] "0600" "0644"
    "0.10 0.20 0.30 1/200 1234" listing refuse ∅ (fun _ => "hunter2") 0 None [].

(** The sample host, whose connection carries one command only. *)
Definition flaky : Posix.env := Posix.with_budget (Some 1) host.

(** A machine that was reached before and is in the rescue system. *)
Definition rescued : MachineState :=
  mkMachineState "web" "/tmp/nixops" RESCUE true true 22 true false [("db", text_opts)].

(** Three secrets, the second of which has no destination. *)
Definition three_keys : MachineState :=
  machine UP false [("db", text_opts); ("bad", no_destdir_opts); ("tls", stranger_opts)].

(** Two secrets in one directory, the first named as the temporary
    file of the second. *)
Definition shadowed : MachineState :=
  machine UP false [(".db.tmp", text_opts); ("db", <["text" := "hunter2"]> stranger_opts)].

(** Another machine of the same deployment. *)
Definition neighbour : MachineState :=
  mkMachineState "db1" "/tmp/nixops" UP true false 22 true false [].

(** The sample host once the secret of [one_key] has been provisioned,
    on a link that carries two more remote operations. *)
Definition interrupted : Posix.env :=
  Posix.with_budget (Some 2)
    (world (Posix.exec (send_keys Posix.perform) one_key host).2).

(** The sample host once the secret of [one_key] has been provisioned,
    and a second secret whose permissions reach for the first. *)
Definition provisioned : Posix.env :=
  world (Posix.exec (send_keys Posix.perform) one_key host).2.

Definition reaching_opts : key_options :=
  <["permissions" := smuggled "0666" "/run/keys/db" "0600"]> text_opts.

(** A channel on which every unchecked command exits with status 1,
    and a backend that knows the address of the machine. *)
Definition grudging (c : more_action) (e : Posix.env) : (exn + Z) * Posix.env :=
  match c with
  | SshRunUnchecked _ _ => (inr 1%Z, e)
  | _ => (inr 0%Z, e)
  end.

Definition address (m : MachineState) : exn + string := inr "192.0.2.10".

Definition session0 (m : MachineState) (e : Posix.env) : ctx (session Posix.env) :=
  mkCtx m (mkSession e []) [].

(** An [int] for the samples: plain decimal digits. *)
Definition digit (a : ascii) : option Z :=
  let n := nat_of_ascii a in
  if Nat.leb 48 n && Nat.leb n 57 then Some (Z.of_nat (n - 48)) else None.

Fixpoint decimal_from (acc : Z) (s : string) : option Z :=
  match s with
  | EmptyString => Some acc
  | String a r =>
      match digit a with
      | Some d => decimal_from (10 * acc + d) r
      | None => None
      end
  end.

Definition decimal (s : string) : option Z :=
  match s with
  | EmptyString => None
  | _ => decimal_from 0 s
  end.

(** A machine definition as [nix-instantiate --xml] prints it, with
    the key [db] given twice and an option the extraction does not
    know. *)
Definition leaf (tag value : string) : ET.Element :=
  ET.mkElement tag {[ "value" := value ]} [].

Definition attr (name : string) (value : ET.Element) : ET.Element :=
  ET.mkElement "attr" {[ "name" := name ]} [value].

Definition attrs (l : list ET.Element) : ET.Element := ET.mkElement "attrs" ∅ l.

Definition key (name text : string) : ET.Element :=
  attr name (attrs [attr "text" (leaf "string" text);
                    attr "destDir" (leaf "string" "/run/keys");
                    attr "user" (leaf "string" "alice");
                    attr "group" (leaf "string" "keys");
                    attr "permissions" (leaf "string" "0640");
                    attr "keyCmd" (leaf "string" "pass show db")]).

Definition xml : ET.Element :=
  attr "web"
    (attrs [attr "storeKeysOnMachine" (leaf "bool" "false");
            attr "targetPort" (leaf "int" "22");
            attr "alwaysActivate" (leaf "bool" "true");
            attr "owners" (ET.mkElement "list" ∅ [leaf "string" "ops"]);
            attr "hasFastConnection" (leaf "bool" "true");
            attr "keys" (attrs [key "db" "first"; key "tls" "cert"; key "db" "second"])]).

End Lab.

(** * Facts about strings *)

Module StrFacts.

Lemma append_nil_l s : EmptyString +:+ s = s.
Proof. reflexivity. Qed.

Lemma append_cons a s t : String a s +:+ t = String a (s +:+ t).
Proof. reflexivity. Qed.

Lemma append_nil_r s : s +:+ EmptyString = s.
Proof. induction s as [|a s IH]; [reflexivity|]. rewrite append_cons, IH. reflexivity. Qed.

Lemma append_assoc s t u : (s +:+ t) +:+ u = s +:+ (t +:+ u).
Proof. induction s as [|a s IH]; [reflexivity|]. rewrite !append_cons, IH. reflexivity. Qed.

Lemma length_append s t : String.length (s +:+ t) = String.length s + String.length t.
Proof.
  induction s as [|a s IH]; [reflexivity|].
  rewrite append_cons. cbn. rewrite IH. reflexivity.
Qed.

Lemma str_forall_append P s t :
  str_forall P (s +:+ t) = str_forall P s && str_forall P t.
Proof.
  induction s as [|a s IH]; [reflexivity|].
  rewrite append_cons. cbn. rewrite IH. apply andb_assoc.
Qed.

Lemma contains_forall c s :
  Py.contains c s = negb (str_forall (fun a => negb (Ascii.eqb a c)) s).
Proof.
  induction s as [|a s IH]; [reflexivity|]. cbn. rewrite IH.
  destruct (Ascii.eqb a c); reflexivity.
Qed.

Lemma not_contains_forall c s :
  Py.contains c s = false -> str_forall (fun a => negb (Ascii.eqb a c)) s = true.
Proof. rewrite contains_forall. apply negb_false_iff. Qed.

Lemma contains_append c s t :
  Py.contains c (s +:+ t) = Py.contains c s || Py.contains c t.
Proof.
  induction s as [|a s IH]; [reflexivity|].
  rewrite append_cons. cbn. rewrite IH. apply orb_assoc.
Qed.

(** No element of [s.split(c)] contains [c]. *)
Lemma split_no_sep c s : Forall (fun l => Py.contains c l = false) (Py.split c s).
Proof.
  induction s as [|a s IH]; cbn.
  - repeat constructor.
  - destruct (Ascii.eqb a c) eqn:Ha.
    + constructor; [reflexivity|exact IH].
    + destruct (Py.split c s) as [|w ws].
      * repeat constructor. cbn. rewrite Ha. reflexivity.
      * inversion IH as [|? ? Hw Hws]; subst. constructor; [|exact Hws].
        cbn. rewrite Ha, Hw. reflexivity.
Qed.

Lemma strip_prefix_append p r : Re.strip_prefix p (p +:+ r) = Some r.
Proof.
  induction p as [|a p IH]; [reflexivity|].
  rewrite append_cons. cbn. rewrite Ascii.eqb_refl. exact IH.
Qed.

Lemma strip_prefix_sound p s r : Re.strip_prefix p s = Some r -> s = p +:+ r.
Proof.
  revert s. induction p as [|a p IH]; intros s; cbn.
  - intros [= <-]. reflexivity.
  - destruct s as [|b s]; [discriminate|].
    destruct (Ascii.eqb a b) eqn:Hab; [|discriminate].
    apply Ascii.eqb_eq in Hab as ->. intros H. rewrite (IH _ H). reflexivity.
Qed.

Lemma tmp_outfile_ne d k : tmp_outfile_of d k <> outfile_of d k.
Proof.
  unfold tmp_outfile_of, outfile_of. intros H.
  apply (inj (String.app d)) in H.
  apply (f_equal String.length) in H.
  rewrite !length_append in H. cbn in H. lia.
Qed.

End StrFacts.

Module SplitFacts.
Import StrFacts.

Lemma split_nonempty c s : Py.split c s <> [].
Proof.
  destruct s as [|a s]; cbn [Py.split]; [discriminate|].
  destruct (Ascii.eqb a c); [discriminate|].
  destruct (Py.split c s); discriminate.
Qed.

Lemma concat_cons sep x y ys :
  String.concat sep (x :: y :: ys) = x +:+ sep +:+ String.concat sep (y :: ys).
Proof. reflexivity. Qed.

(** [c.join(s.split(c)) == s]. *)
Lemma join_split c s : Py.join (String c EmptyString) (Py.split c s) = s.
Proof.
  unfold Py.join. induction s as [|a s IH]; [reflexivity|].
  pose proof (split_nonempty c s) as Hne.
  cbn [Py.split]. destruct (Ascii.eqb a c) eqn:Hac.
  - apply Ascii.eqb_eq in Hac as ->.
    destruct (Py.split c s) as [|w ws]; [done|].
    rewrite concat_cons, IH. reflexivity.
  - destruct (Py.split c s) as [|w ws]; [done|].
    destruct ws as [|w' ws].
    + cbn in IH. subst w. reflexivity.
    + rewrite concat_cons in *. rewrite append_cons, IH. reflexivity.
Qed.

Lemma concat_infix sep ls l :
  l ∈ ls -> exists a b, String.concat sep ls = a +:+ l +:+ b.
Proof.
  induction ls as [|x ls IH]; [intros []%elem_of_nil|].
  destruct ls as [|y ls].
  - intros ->%list_elem_of_singleton. exists EmptyString, EmptyString.
    cbn. rewrite append_nil_r. reflexivity.
  - rewrite concat_cons. intros [->|Hin]%elem_of_cons.
    + exists EmptyString. eexists. reflexivity.
    + destruct (IH Hin) as (a & b & ->). exists (x +:+ sep +:+ a), b.
      rewrite !append_assoc. reflexivity.
Qed.

(** Every element of [s.split(c)] is a part of [s]. *)
Lemma split_infix c s l : l ∈ Py.split c s -> exists a b, s = a +:+ l +:+ b.
Proof.
  intros Hin.
  destruct (concat_infix (String c EmptyString) _ _ Hin) as (a & b & H).
  pose proof (join_split c s) as J. unfold Py.join in J. rewrite J in H. eauto.
Qed.

End SplitFacts.

(** * Facts about the matcher *)

Module ReFacts.
Import StrFacts Re.

Lemma star_greedy_sound {R} c s (k : string -> string -> option R) x :
  star_greedy c s k = Some x ->
  exists m r, s = m +:+ r /\ str_forall (cset_mem c) m = true /\ k m r = Some x.
Proof.
  revert k. induction s as [|a s IH]; intros k; cbn.
  - intros H. exists EmptyString, EmptyString. auto.
  - destruct (cset_mem c a) eqn:Ha.
    + destruct (star_greedy c s _) as [y|] eqn:Hs.
      * intros [= ->]. apply IH in Hs as (m & r & -> & Hm & Hk).
        exists (String a m), r. cbn. rewrite Ha, Hm. auto.
      * intros H. exists EmptyString, (String a s). auto.
    + intros H. exists EmptyString, (String a s). auto.
Qed.

Lemma star_greedy_complete {R} c m r (k : string -> string -> option R) x :
  str_forall (cset_mem c) m = true -> k m r = Some x ->
  exists y, star_greedy c (m +:+ r) k = Some y.
Proof.
  revert k. induction m as [|a m IH]; intros k Hm Hk.
  - rewrite append_nil_l. destruct r as [|b r]; cbn; [eauto|].
    destruct (cset_mem c b); [|eauto].
    destruct (star_greedy c r _); eauto.
  - rewrite append_cons.
    change (cset_mem c a && str_forall (cset_mem c) m = true) in Hm.
    apply andb_true_iff in Hm as [Ha Hm].
    cbn. rewrite Ha.
    destruct (IH (fun m r => k (String a m) r) Hm Hk) as [y ->]. eauto.
Qed.

(** A pattern without [Close] returns the group it was given. *)
Lemma run_no_close p : Close ∉ p ->
  forall bol cur g1 s y, run p bol cur g1 s = Some y -> y = g1.
Proof.
  induction p as [|t p IH]; intros Hc bol cur g1 s y; cbn.
  - congruence.
  - assert (Close ∉ p) as Hp by (intros ?; apply Hc; by right).
    specialize (IH Hp).
    destruct t.
    + destruct bol; [apply IH|discriminate].
    + destruct (at_eol s); [apply IH|discriminate].
    + apply IH.
    + exfalso. apply Hc. by left.
    + destruct (strip_prefix s0 s); [apply IH|discriminate].
    + intros H. apply star_greedy_sound in H as (m & r & _ & _ & H). eapply IH, H.
    + destruct s as [|a s]; [discriminate|].
      destruct (cset_mem c a); [|discriminate].
      intros H. apply star_greedy_sound in H as (m & r & _ & _ & H). eapply IH, H.
Qed.

(** [.*lit.*$] finds [lit] wherever it stands in a text without newline. *)
Lemma run_dots_lit lit a b bol cur g1 :
  str_forall (cset_mem Dot) a = true -> str_forall (cset_mem Dot) b = true ->
  run [Star Dot; Lit lit; Star Dot; Eol] bol cur g1 (a +:+ lit +:+ b) = Some g1.
Proof.
  intros Ha Hb.
  assert (exists y, run [Star Dot; Lit lit; Star Dot; Eol] bol cur g1 (a +:+ lit +:+ b) = Some y)
    as [y Hy].
  { cbn. eapply (star_greedy_complete Dot a (lit +:+ b)); [exact Ha|].
    rewrite strip_prefix_append.
    instantiate (1 := g1).
    pose proof (star_greedy_complete Dot b EmptyString
      (fun m r => if at_eol r then Some g1 else None) g1 Hb eq_refl) as [z Hz].
    rewrite append_nil_r in Hz.
    rewrite Hz. f_equal.
    apply star_greedy_sound in Hz as (? & r' & _ & _ & Hz).
    destruct (at_eol r'); congruence. }
  rewrite Hy. f_equal.
  eapply run_no_close in Hy; [exact Hy|].
  repeat (apply not_elem_of_cons; split; [discriminate|]). apply not_elem_of_nil.
Qed.

(** Conversely, a match of [.*lit.*$] exhibits [lit]. *)
Lemma run_dots_lit_sound lit bol cur g1 s y :
  run [Star Dot; Lit lit; Star Dot; Eol] bol cur g1 s = Some y ->
  exists a b, s = a +:+ lit +:+ b.
Proof.
  cbn. intros H.
  apply star_greedy_sound in H as (a & r & -> & _ & H).
  destruct (strip_prefix lit r) as [r'|] eqn:Hr; [|discriminate].
  apply strip_prefix_sound in Hr as ->. eauto.
Qed.

Lemma star_greedy_until {R} c m r (k : string -> string -> option R) :
  str_forall (cset_mem (NotChar c)) m = true ->
  (forall m' a r', a <> c -> k m' (String a r') = None) ->
  star_greedy (NotChar c) (m +:+ String c r) k = k m (String c r).
Proof.
  revert k. induction m as [|a m IH]; intros k Hm Hk.
  - rewrite append_nil_l. cbn. rewrite Ascii.eqb_refl. reflexivity.
  - rewrite append_cons.
    change (cset_mem (NotChar c) a && str_forall (cset_mem (NotChar c)) m = true) in Hm.
    apply andb_true_iff in Hm as [Ha Hm].
    cbn [star_greedy]. rewrite Ha. rewrite IH; [|exact Hm|].
    + destruct (k (String a m) (String c r)) eqn:Hkk; [reflexivity|].
      cbn in Ha. apply negb_true_iff, Ascii.eqb_neq in Ha.
      rewrite Hk by exact Ha. reflexivity.
    + intros m' a' r' Ha'. apply Hk. exact Ha'.
Qed.

(** [[^c]+] followed by something that needs [c] takes everything up
    to the first [c]. *)
Lemma run_plus_until c p a0 m r bol cur g1 :
  needs_char c p -> a0 <> c -> str_forall (cset_mem (NotChar c)) m = true ->
  run (Plus (NotChar c) :: p) bol cur g1 (String a0 (m +:+ String c r)) =
  run p false (extend cur (String a0 m)) g1 (String c r).
Proof.
  intros Hp Ha Hm. cbn [run].
  assert (cset_mem (NotChar c) a0 = true) as ->.
  { cbn. apply negb_true_iff, Ascii.eqb_neq. exact Ha. }
  rewrite star_greedy_until; [reflexivity|exact Hm|].
  intros m' a r' Hne. apply Hp. exact Hne.
Qed.

Lemma run_bol_open p cur g1 s :
  run (Bol :: Open :: p) true cur g1 s = run p true (Some EmptyString) g1 s.
Proof. reflexivity. Qed.

Lemma run_close_lit p l bol cur g1 r :
  run (Close :: Lit l :: p) bol cur g1 (l +:+ r) =
  run p (bol && bool_decide (l = EmptyString)) None cur r.
Proof. cbn [run]. rewrite strip_prefix_append. reflexivity. Qed.

Lemma run_lit p l bol cur g1 r :
  run (Lit l :: p) bol cur g1 (l +:+ r) =
  run p (bol && bool_decide (l = EmptyString)) (extend cur l) g1 r.
Proof. cbn [run]. rewrite strip_prefix_append. reflexivity. Qed.

Lemma run_close_lit_inv p l bol cur g1 s y :
  run (Close :: Lit l :: p) bol cur g1 s = Some y ->
  exists r, s = l +:+ r /\
    run p (bol && bool_decide (l = EmptyString)) None cur r = Some y.
Proof.
  cbn [run]. destruct (strip_prefix l s) as [r|] eqn:Hr; [|discriminate].
  apply strip_prefix_sound in Hr as ->. eauto.
Qed.

Lemma run_plus_inv c p bol cur g1 s y :
  run (Plus c :: p) bol cur g1 s = Some y ->
  exists a0 m r, s = String a0 (m +:+ r) /\
    run p false (extend cur (String a0 m)) g1 r = Some y.
Proof.
  cbn [run]. destruct s as [|a0 s]; [discriminate|].
  destruct (cset_mem c a0); [|discriminate].
  intros H. apply star_greedy_sound in H as (m & r & -> & _ & H). eauto.
Qed.

Lemma no_newline_dots s :
  Py.contains "010" s = false -> str_forall (cset_mem Dot) s = true.
Proof. apply not_contains_forall. Qed.

Lemma token_re_match marker tok a b :
  unit_token tok ->
  Py.contains "010" a = false -> Py.contains "010" b = false ->
  re_match (token_re marker) (tok +:+ " " +:+ a +:+ marker +:+ b) = Some tok.
Proof.
  intros [Hne Hsp] Ha Hb. destruct tok as [|a0 tok]; [done|].
  cbn in Hsp. apply orb_false_iff in Hsp as [Ha0 Htok].
  apply Ascii.eqb_neq in Ha0.
  unfold re_match, token_re. rewrite run_bol_open, append_cons.
  change (" " +:+ a +:+ marker +:+ b) with (String " " (a +:+ marker +:+ b)).
  rewrite run_plus_until; [|intros bol cur g1 x r Hx| exact Ha0|].
  - change (String " " (a +:+ marker +:+ b)) with (" " +:+ a +:+ marker +:+ b).
    rewrite run_close_lit.
    rewrite run_dots_lit by (apply no_newline_dots; assumption).
    reflexivity.
  - cbn [run strip_prefix]. destruct (Ascii.eqb " " x) eqn:E; [|reflexivity].
    apply Ascii.eqb_eq in E. congruence.
  - apply (not_contains_forall " "). exact Htok.
Qed.

Lemma token_re_sound marker l g :
  re_match (token_re marker) l = Some g ->
  exists a b, l = g +:+ " " +:+ a +:+ marker +:+ b.
Proof.
  unfold re_match, token_re. rewrite run_bol_open.
  destruct (run _ _ _ _ _) as [y|] eqn:H; [|discriminate].
  apply run_plus_inv in H as (a0 & m & r & -> & H).
  apply run_close_lit_inv in H as (r' & -> & H).
  pose proof H as H'. apply run_dots_lit_sound in H' as (a & b & ->).
  apply run_no_close in H;
    [|repeat (apply not_elem_of_cons; split; [discriminate|]); apply not_elem_of_nil].
  subst y. cbn [extend]. intros [= <-]. exists a, b.
  reflexivity.
Qed.

Lemma inactive_mount_re_match bar a b :
  mount_stem bar ->
  Py.contains "010" a = false -> Py.contains "010" b = false ->
  re_match inactive_mount_re (bar +:+ ".mount" +:+ " " +:+ a +:+ " inactive " +:+ b)
    = Some (bar +:+ ".mount").
Proof.
  intros [Hne Hdot] Ha Hb. destruct bar as [|a0 bar]; [done|].
  cbn in Hdot. apply orb_false_iff in Hdot as [Ha0 Hbar].
  apply Ascii.eqb_neq in Ha0.
  unfold re_match, inactive_mount_re. rewrite run_bol_open, append_cons.
  change (".mount" +:+ " " +:+ a +:+ " inactive " +:+ b)
    with (String "." ("mount" +:+ " " +:+ a +:+ " inactive " +:+ b)).
  rewrite run_plus_until; [|intros bol cur g1 x r Hx| exact Ha0|].
  - change (String "." ("mount" +:+ " " +:+ a +:+ " inactive " +:+ b))
      with (".mount" +:+ String " " (a +:+ " inactive " +:+ b)).
    rewrite run_lit.
    change (String " " (a +:+ " inactive " +:+ b)) with (" " +:+ a +:+ " inactive " +:+ b).
    rewrite run_close_lit.
    rewrite run_dots_lit by (apply no_newline_dots; assumption).
    reflexivity.
  - cbn [run strip_prefix]. destruct (Ascii.eqb "." x) eqn:E; [|reflexivity].
    apply Ascii.eqb_eq in E. congruence.
  - apply (not_contains_forall "."). exact Hbar.
Qed.

End ReFacts.

(** * Facts about the methods, in any environment *)

Section MethodFacts.
Import StrFacts.
Context {World : Type} (perform : action -> World -> (exn + string) * World).

Lemma bind_ok {A B} (m : M World A) (k : A -> M World B) s a s1 :
  m s = (inr a, s1) -> (m ≫= k) s = k a s1.
Proof. intros H. unfold mbind, M_bind. rewrite H. reflexivity. Qed.

Lemma bind_raise {A B} (m : M World A) (k : A -> M World B) s e s1 :
  m s = (inl e, s1) -> (m ≫= k) s = (inl e, s1).
Proof. intros H. unfold mbind, M_bind. rewrite H. reflexivity. Qed.

Ltac unfold_M :=
  repeat progress unfold send_key, write_scratch, run_command, upload_file, _logged_exec,
    getitem, get_keys, log, call, get_self, modify_self, raise, ret, mret, mbind,
    M_ret, M_bind in *.

Ltac inv_elem H :=
  repeat (apply elem_of_cons in H as [H|H]; [try discriminate H|]);
  try (apply elem_of_nil in H; destruct H).

(** ** [send_keys]: the guards *)

(** Claim C9.  Whenever the machine is in the [RESCUE] state, or
    [store_keys_on_machine] is true, [send_keys] returns at once as a
    no-op: the result is a normal return and the whole context is the one
    it started from, so no remote command was issued, nothing was uploaded
    (the trace and the environment are unchanged) and every attribute of
    the machine object is unchanged. *)
Theorem send_keys_noop (s : ctx World) :
  state (self s) = RESCUE \/ store_keys_on_machine (self s) = true ->
  send_keys perform s = (inr tt, s).
Proof.
  intros H. unfold send_keys, mbind, M_bind, get_self.
  destruct H as [H|H].
  - rewrite bool_decide_eq_true_2 by exact H. reflexivity.
  - rewrite H. destruct (bool_decide _); reflexivity.
Qed.

(** ** [wait_for_ssh] *)

(** Claim C4, as amended.  After [wait_for_ssh] returns normally, for
    either value of [check], [ssh_pinged] is true.  When the call did not
    take the early return (the machine was not yet pinged, or [check] was
    asked and the machine was not pinged in this run), it polled the port
    once, the state is [UP] unless it was [RESCUE] beforehand, which is
    kept, and the run-local flag is true.  On the early return nothing
    changes at all: the state stays whatever it was. *)
Theorem wait_for_ssh_reachable (check : bool) (s s' : ctx World) :
  wait_for_ssh perform check s = (inr tt, s') ->
  ssh_pinged (self s') = true /\
  (if ssh_pinged (self s) && (negb check || _ssh_pinged_this_time (self s))
   then s' = s
   else state (self s') = (if bool_decide (state (self s) = RESCUE) then RESCUE else UP)
        /\ _ssh_pinged_this_time (self s') = true
        /\ exists out,
             trace s' = trace s ++
               [(Log "waiting for SSH...", inr EmptyString);
                (WaitForTcpPort (ssh_port (self s)), inr out);
                (Log EmptyString, inr EmptyString)]).
Proof.
  unfold wait_for_ssh, mbind, M_bind, get_self, log, call, modify_self, ret, mret, M_ret.
  cbn.
  destruct (ssh_pinged (self s) && _) eqn:Hg.
  - intros [= <-]. split; [|reflexivity].
    apply andb_true_iff in Hg. tauto.
  - destruct (perform _ _) as [[e|out] w'] eqn:Hp; [discriminate|]. cbn.
    destruct (state (self s)) eqn:Hst; cbn; intros [= <-]; cbn;
      rewrite <- ?app_assoc; eauto.
Qed.

(** ** [send_keys]: one key *)

Lemma send_key_self k opts (s : ctx World) :
  self (send_key perform k opts s).2 = self s.
Proof.
  unfold_M. cbn.
  repeat (case_match; simplify_eq/=); auto.
Qed.

Lemma send_key_atomic k opts (s : ctx World) :
  exists seg,
    trace (send_key perform k opts s).2 = trace s ++ seg /\
    atomic_publication (self s) k opts seg.
Proof.
  unfold atomic_publication.
  destruct (send_key perform k opts s) as [r s'] eqn:H.
  unfold_M. cbn in H.
  destruct (opts !! "destDir") as [d|] eqn:Hd.
  2:{ simplify_eq/=. eexists. split; [reflexivity|].
      intros ev p ->%list_elem_of_singleton. cbn. tauto. }
  pose proof (tmp_outfile_ne (Py.rstrip "/" d) k) as Hne.
  repeat (case_match; simplify_eq/=); rewrite <- ?app_assoc; cbn;
    (eexists; split; [reflexivity|]).
  all: split; [exact Hne|].
  all: split; [intros src tgt r0 Hin; inv_elem Hin; congruence|].
  all: split; [intros ev p Hin Hc; unfold creates in Hc; inv_elem Hin; subst ev;
               cbn in Hc; try contradiction; auto|].
  all: split; [intros ev Hin Hc; unfold creates in Hc; inv_elem Hin; subst ev;
               cbn in Hc; try contradiction; eauto|].
  all: intros b r0 Hin; inv_elem Hin.
  all: injection Hin as <- <-.
  all: eexists [_; _; _; _], _, _, _, _, _, _.
  all: split; [reflexivity|]; split; [reflexivity|]; split; [reflexivity|].
  all: split; [reflexivity|].
  all: intros ev Hev; unfold creates; inv_elem Hev; subst ev; cbn; tauto.
Qed.

(** ** [send_keys]: the loop *)

Lemma for_each_send_key ks (s : ctx World) :
  let run := for_each ks (fun '(k, opts) => send_key perform k opts) s in
  self run.2 = self s /\
  exists segs,
    trace run.2 = trace s ++ concat segs /\
    Forall2 (fun ko seg => atomic_publication (self s) ko.1 ko.2 seg)
      (take (length segs) ks) segs /\
    (run.1 = inr tt -> length segs = length ks).
Proof.
  revert s. induction ks as [|[k opts] ks IH]; intros s; cbn [for_each].
  - cbn. split; [reflexivity|]. exists []. cbn. rewrite app_nil_r. auto.
  - pose proof (send_key_self k opts s) as Hself.
    destruct (send_key_atomic k opts s) as (seg & Htr & Hseg).
    destruct (send_key perform k opts s) as [[e|[]] s1] eqn:Hk; cbn [snd] in *.
    + erewrite bind_raise by exact Hk. cbn. split; [exact Hself|].
      exists [seg]. cbn. rewrite app_nil_r. split; [exact Htr|].
      split; [|discriminate]. constructor; [exact Hseg|constructor].
    + erewrite bind_ok by exact Hk.
      destruct (IH s1) as (Hself1 & segs & Htr1 & Hsegs & Hlen).
      split; [congruence|].
      exists (seg :: segs). cbn. rewrite Htr1, Htr, <- app_assoc.
      split; [reflexivity|]. split; [|auto].
      constructor; [exact Hseg|]. rewrite <- Hself. exact Hsegs.
Qed.


(** Claim C10, as amended.  Past the two guards, the command
    [send_keys] issues after its loop creates [/run/keys] with mode 0750,
    gives it to group [keys] and touches [/run/keys/done].  With an empty
    [keys] mapping that command is the one and only action of the call.
    Whenever the loop over the secrets completes without raising, that
    command is issued as the last action of the call; whenever the call
    returns normally, it succeeded.  (When the loop raises, the call ends
    there.) *)
Theorem send_keys_done_marker (s : ctx World) :
  state (self s) <> RESCUE -> store_keys_on_machine (self s) = false ->
  let run := send_keys perform s in
  let loop := for_each (keys (self s)) (fun '(k, opts) => send_key perform k opts) s in
  command_string KeysDone =
    "mkdir -m 0750 -p /run/keys && chown root:keys  /run/keys && touch /run/keys/done" /\
  (keys (self s) = [] ->
     exists res, trace run.2 = trace s ++ [(SshRun false KeysDone, res)]) /\
  (loop.1 = inr tt ->
     exists res, trace run.2 = trace loop.2 ++ [(SshRun false KeysDone, res)]) /\
  (run.1 = inr tt ->
     exists t out, trace run.2 = t ++ [(SshRun false KeysDone, inr out)]).
Proof.
  intros Hst Hsk run loop. split; [reflexivity|]. subst run loop.
  unfold send_keys. erewrite bind_ok by reflexivity.
  rewrite bool_decide_eq_false_2 by exact Hst. rewrite Hsk.
  unfold get_keys. erewrite bind_ok by reflexivity.
  destruct (for_each_send_key (keys (self s)) s) as (Hself & _).
  destruct (for_each _ _ s) as [[e|[]] s1] eqn:Hloop; cbn [fst snd] in *.
  - erewrite bind_raise by exact Hloop. cbn [fst snd].
    split; [|split; discriminate].
    intros Hk. rewrite Hk in Hloop. discriminate Hloop.
  - erewrite bind_ok by exact Hloop.
    repeat progress unfold run_command, call, get_self, ret, mret, mbind, M_ret, M_bind.
    cbn [self world trace]. rewrite Hself, bool_decide_eq_false_2 by exact Hst.
    split; [|split].
    + intros Hk. rewrite Hk in Hloop. injection Hloop as <-.
      destruct (perform _ _) as [[e|out] w']; cbn [snd trace]; eauto.
    + intros _. destruct (perform _ _) as [[e|out] w']; cbn [snd trace]; eauto.
    + destruct (perform _ _) as [[e|out] w']; cbn [fst snd trace]; [discriminate|eauto].
Qed.

(** ** [send_keys]: malformed specifications *)

(** Claim C3, as amended.  For one secret: when [destDir] is absent,
    the loop body raises the configuration error having done nothing but
    log, so before any remote command for that secret.  When [destDir] is
    present and none of [text], [keyCmd], [keyFile] is, the body has
    already sent the command that ensures the destination directory when
    it raises; that command is the only remote action for that secret,
    and the error is the configuration error when that command
    returned. *)
Theorem send_key_configuration_errors k opts (s : ctx World) :
  let announce := (Log ("uploading key ‘" +:+ k +:+ "’..."), inr EmptyString) in
  (opts !! "destDir" = None ->
     send_key perform k opts s =
       (inl (Exception ("Key '" +:+ k +:+ "' has no 'destDir' specified.")),
        mkCtx (self s) (world s) (trace s ++ [announce]))) /\
  (forall d, opts !! "destDir" = Some d ->
     opts !! "text" = None -> opts !! "keyCmd" = None -> opts !! "keyFile" = None ->
     let mkdir := SshRun (bool_decide (state (self s) = RESCUE))
                    (EnsureDir (Py.rstrip "/" d)) in
     exists e,
       send_key perform k opts s =
         (inl e, mkCtx (self s) (perform mkdir (world s)).2
                   (trace s ++ [announce; (mkdir, (perform mkdir (world s)).1)])) /\
       (forall out, (perform mkdir (world s)).1 = inr out ->
          e = Exception
                ("Neither 'text' or 'keyFile' options were set for key '" +:+ k +:+ "'."))).
Proof.
  intros announce. split.
  - intros Hd. unfold_M. cbn. rewrite Hd. reflexivity.
  - intros d Hd Ht Hc Hf mkdir. unfold send_key.
    erewrite bind_ok by reflexivity. erewrite bind_ok by reflexivity.
    cbn [self]. rewrite Hd. unfold write_scratch. rewrite Ht, Hc, Hf.
    unfold_M. cbn [self world trace]. fold mkdir.
    destruct (perform mkdir (world s)) as [[e|out] w']; cbn [fst snd];
      rewrite <- ?app_assoc; eexists; (split; [reflexivity|]).
    + intros out0 [=].
    + reflexivity.
Qed.

(** A secret whose [user] or [group] field is absent never reaches the
    ownership command: the loop body raises, at the latest on the lookup
    of the missing field, and neither the ownership and mode command nor
    the rename is issued. *)
Lemma send_key_missing_owner k opts (s : ctx World) :
  opts !! "user" = None \/ opts !! "group" = None ->
  (exists e, (send_key perform k opts s).1 = inl e) /\
  exists seg,
    trace (send_key perform k opts s).2 = trace s ++ seg /\
    forall ev, ev ∈ seg -> ~ finishes_publication ev.
Proof.
  intros Hmiss.
  destruct (send_key perform k opts s) as [r s'] eqn:H.
  unfold_M. cbn in H.
  repeat (case_match; simplify_eq/=); rewrite <- ?app_assoc; cbn;
    try (destruct Hmiss; congruence).
  all: (split; [eauto|]); eexists; (split; [reflexivity|]).
  all: intros ev Hin; unfold finishes_publication; inv_elem Hin; subst ev; cbn; tauto.
Qed.

End MethodFacts.

(** * Facts about the health check *)

Section CheckFacts.
Import StrFacts ReFacts.
Context {World : Type} (perform : action -> World -> (exn + string) * World).

Lemma failed_re_token : Re.failed_re = token_re " failed ".
Proof. reflexivity. Qed.

Lemma activating_re_token : Re.activating_re = token_re " activating ".
Proof. reflexivity. Qed.

Lemma failed_of_append_failed u res :
  failed_of (append_failed_unit u res) = failed_of res ++ [u].
Proof. reflexivity. Qed.

Lemma in_progress_of_append_failed u res :
  in_progress_of (append_failed_unit u res) = in_progress_of res.
Proof. reflexivity. Qed.

Lemma failed_of_append_in_progress u res :
  failed_of (append_in_progress_unit u res) = failed_of res.
Proof. reflexivity. Qed.

Lemma in_progress_of_append_in_progress u res :
  in_progress_of (append_in_progress_unit u res) = in_progress_of res ++ [u].
Proof. reflexivity. Qed.

Ltac units_simpl :=
  rewrite ?failed_of_append_failed, ?in_progress_of_append_failed,
    ?failed_of_append_in_progress, ?in_progress_of_append_in_progress,
    ?elem_of_app, ?list_elem_of_singleton in *.

(** One line: the loop body returns, keeps what was collected, and
    adds exactly what the three patterns command. *)
Lemma check_line_spec l res (s : ctx World) :
  exists res' s',
    check_line perform l res s = (inr res', s') /\
    self s' = self s /\
    (forall u, u ∈ failed_of res -> u ∈ failed_of res') /\
    (forall u, u ∈ in_progress_of res -> u ∈ in_progress_of res') /\
    (forall g, Re.re_match Re.failed_re l = Some g -> g ∈ failed_of res') /\
    (forall g, Re.re_match Re.activating_re l = Some g -> g ∈ in_progress_of res') /\
    (forall g, Re.re_match Re.inactive_mount_re l = Some g ->
               inactive_rule g = true -> g ∈ failed_of res') /\
    (forall u, u ∈ failed_of res' ->
       u ∈ failed_of res \/ Re.re_match Re.failed_re l = Some u \/
       (Re.re_match Re.inactive_mount_re l = Some u /\
        Py.startswith u "sys-" = false /\ Py.startswith u "dev-" = false)).
Proof.
  unfold check_line.
  destruct (Re.re_match Re.failed_re l) as [gf|];
  destruct (Re.re_match Re.activating_re l) as [ga|];
  destruct (Re.re_match Re.inactive_mount_re l) as [gi|].
  all: try (destruct (String.eqb gi "tmp.mount") eqn:Htmp;
            destruct (Py.startswith gi "sys-") eqn:Hsys;
            destruct (Py.startswith gi "dev-") eqn:Hdev;
            cbn [negb andb]).
  all: try (apply String.eqb_eq in Htmp; subst gi;
            try (vm_compute in Hsys; discriminate Hsys);
            try (vm_compute in Hdev; discriminate Hdev)).
  all: repeat progress unfold try_except, run_command, call, get_self, ret, mret, mbind,
         M_ret, M_bind.
  all: cbn [self world trace].
  all: try destruct (perform _ _) as [[e|out] w'].
  all: eexists _, _; (split; [reflexivity|]); (split; [reflexivity|]).
  all: units_simpl.
  all: repeat split; intros; simplify_eq; units_simpl; auto.
  all: try match goal with
       | H : inactive_rule _ = true |- _ =>
           unfold inactive_rule in H; rewrite ?Hsys, ?Hdev, ?Htmp in H; discriminate
       end.
  all: try (destruct_or!; subst; auto 10).
  all: try (right; right; by repeat split).
Qed.

(** The loop over the listing. *)
Lemma check_lines_spec out res (s : ctx World) :
  exists res' s',
    check_lines perform out res s = (inr res', s') /\
    self s' = self s /\
    (forall u, u ∈ failed_of res -> u ∈ failed_of res') /\
    (forall u, u ∈ in_progress_of res -> u ∈ in_progress_of res') /\
    (forall l g, l ∈ out -> Re.re_match Re.failed_re l = Some g -> g ∈ failed_of res') /\
    (forall l g, l ∈ out -> Re.re_match Re.activating_re l = Some g ->
                 g ∈ in_progress_of res') /\
    (forall l g, l ∈ out -> Re.re_match Re.inactive_mount_re l = Some g ->
                 inactive_rule g = true -> g ∈ failed_of res') /\
    (forall u, u ∈ failed_of res' ->
       u ∈ failed_of res \/
       exists l, l ∈ out /\
         (Re.re_match Re.failed_re l = Some u \/
          (Re.re_match Re.inactive_mount_re l = Some u /\
           Py.startswith u "sys-" = false /\ Py.startswith u "dev-" = false))).
Proof.
  revert res s. induction out as [|l out IH]; intros res s.
  - exists res, s. cbn [check_lines].
    repeat split; auto; try (intros ? ? []%elem_of_nil).
  - destruct (check_line_spec l res s)
      as (res1 & s1 & Hl & Hself1 & Hf1 & Hp1 & Hfm & Ham & Him & Hinv1).
    destruct (IH res1 s1)
      as (res' & s' & Hls & Hself & Hf & Hp & Hfms & Hams & Hims & Hinv).
    exists res', s'. cbn [check_lines].
    unfold mbind, M_bind. rewrite Hl. split; [exact Hls|].
    split; [congruence|].
    split; [auto|]. split; [auto|].
    split; [|split; [|split]].
    + intros l0 g [->|Hin]%elem_of_cons Hg; eauto.
    + intros l0 g [->|Hin]%elem_of_cons Hg; eauto.
    + intros l0 g [->|Hin]%elem_of_cons Hg Hr; eauto.
    + intros u Hu. destruct (Hinv u Hu) as [Hu1|(l0 & Hin & Hl0)].
      * destruct (Hinv1 u Hu1) as [?|Hl0]; [by left|].
        right. exists l. split; [by left|exact Hl0].
      * right. exists l0. split; [by right|exact Hl0].
Qed.

Lemma listing_line_parts c u a marker b :
  Py.contains c (listing_line u a marker b) = false ->
  Py.contains c a = false /\ Py.contains c b = false.
Proof.
  unfold listing_line. rewrite !contains_append, !orb_false_iff. tauto.
Qed.

(** Property X29.  The loop over the lines of the listing
    always returns, and for every line of the listing: a line
    [tok ... failed ...] puts the unit token [tok] into [failed_units]; a
    line [tok ... activating ...] puts [tok] into [in_progress_units]; a
    line [bar.mount ... inactive ...] whose stem [bar] has no dot puts
    [bar.mount] into [failed_units] unless the name starts with [sys-] or
    [dev-] or is [tmp.mount]; and a name starting with [sys-] or [dev-]
    is in [failed_units] only when some line carries it with the failed
    marker, so an inactive [sys-kernel-config.mount] is never added. *)
Theorem check_lines_classification output res (s : ctx World) :
  let out := Py.split "010" output in
  exists res' s',
    check_lines perform out (fresh_units res) s = (inr res', s') /\
    (forall tok a b, unit_token tok -> listing_line tok a "failed" b ∈ out ->
       tok ∈ failed_of res') /\
    (forall tok a b, unit_token tok -> listing_line tok a "activating" b ∈ out ->
       tok ∈ in_progress_of res') /\
    (forall bar a b, mount_stem bar ->
       listing_line (bar +:+ ".mount") a "inactive" b ∈ out ->
       Py.startswith (bar +:+ ".mount") "sys-" = false ->
       Py.startswith (bar +:+ ".mount") "dev-" = false ->
       bar +:+ ".mount" <> "tmp.mount" ->
       bar +:+ ".mount" ∈ failed_of res') /\
    (forall u, Py.startswith u "sys-" = true \/ Py.startswith u "dev-" = true ->
       u ∈ failed_of res' -> exists a b, listing_line u a "failed" b ∈ out).
Proof.
  intros out.
  destruct (check_lines_spec out (fresh_units res) s)
    as (res' & s' & Hrun & _ & _ & _ & Hfm & Ham & Him & Hinv).
  exists res', s'. split; [exact Hrun|].
  assert (forall l, l ∈ out -> Py.contains "010" l = false) as Hnl.
  { apply Forall_forall, split_no_sep. }
  split; [|split; [|split]].
  - intros tok a b Htok Hin. apply (Hfm _ _ Hin).
    apply Hnl, listing_line_parts in Hin as [Ha Hb].
    rewrite failed_re_token. apply (token_re_match " failed " tok a b); assumption.
  - intros tok a b Htok Hin. apply (Ham _ _ Hin).
    apply Hnl, listing_line_parts in Hin as [Ha Hb].
    rewrite activating_re_token. apply (token_re_match " activating " tok a b); assumption.
  - intros bar a b Hbar Hin Hsys Hdev Htmp. apply (Him _ _ Hin).
    + apply Hnl, listing_line_parts in Hin as [Ha Hb].
      unfold listing_line. rewrite append_assoc.
      apply (inactive_mount_re_match bar a b); assumption.
    + unfold inactive_rule. rewrite Hsys, Hdev.
      apply String.eqb_neq in Htmp. rewrite Htmp. reflexivity.
  - intros u Hu Hin. destruct (Hinv u Hin) as [[]%elem_of_nil|(l & Hl & Hm)].
    destruct Hm as [Hm|(_ & Hsys & Hdev)].
    + rewrite failed_re_token in Hm. apply token_re_sound in Hm as (a & b & ->).
      exists a, b. exact Hl.
    + destruct Hu; congruence.
Qed.

(** Claim C7.  On a line showing [tmp.mount] inactive, the loop body
    runs the probe of [/etc/fstab] once and returns normally whatever the
    probe answers.  To what [failed_units] held, and to what the failed
    marker of the same line may add, it appends [tmp.mount] if and only
    if the probe returned; when the probe raised, whatever the
    exception, nothing is appended. *)
Theorem check_line_tmp_mount a b res (s : ctx World) :
  Py.contains "010" a = false -> Py.contains "010" b = false ->
  let l := listing_line "tmp.mount" a "inactive" b in
  let probe := SshRun (bool_decide (state (self s) = RESCUE)) FstabProbe in
  let by_marker :=
    match Re.re_match Re.failed_re l with Some g => [g] | None => [] end in
  exists res',
    check_line perform l res s =
      (inr res', mkCtx (self s) (perform probe (world s)).2
                   (trace s ++ [(probe, (perform probe (world s)).1)])) /\
    failed_of res' =
      failed_of res ++ by_marker ++
      match (perform probe (world s)).1 with
      | inr _ => ["tmp.mount"]
      | inl _ => []
      end.
Proof.
  intros Ha Hb l probe by_marker.
  assert (Re.re_match Re.inactive_mount_re l = Some "tmp.mount") as Hm.
  { apply (inactive_mount_re_match "tmp" a b); [|exact Ha|exact Hb].
    split; [discriminate|reflexivity]. }
  unfold check_line. rewrite Hm. subst by_marker.
  change (String.eqb "tmp.mount" "tmp.mount") with true.
  change (Py.startswith "tmp.mount" "sys-") with false.
  change (Py.startswith "tmp.mount" "dev-") with false.
  cbn [negb andb].
  repeat progress unfold try_except, run_command, call, get_self, ret, mret, mbind,
    M_ret, M_bind.
  cbn [self world trace]. fold probe.
  destruct (perform probe (world s)) as [[e|o] w'].
  all: destruct (Re.re_match Re.failed_re l);
       destruct (Re.re_match Re.activating_re l);
       eexists; (split; [reflexivity|]); cbn [fst];
       repeat (rewrite failed_of_append_failed || rewrite failed_of_append_in_progress);
       rewrite <- ?app_assoc, ?app_nil_r; reflexivity.
Qed.

(** When the load probe answers and the listing arrives, [_check] marks
    the machine up and pinged and runs the loop over the lines of the
    listing, starting from empty unit lists. *)
Lemma _check_reachable res (s s1 : ctx World) avg out w2 :
  get_load_avg perform s = (inr (Some avg), s1) ->
  perform (SshRun false SystemctlList) (world s1) = (inr out, w2) ->
  _check perform res s =
    check_lines perform (Py.split "010" out)
      (fresh_units (set_load avg (set_is_reachable true res)))
      (mkCtx (set__ssh_pinged_this_time true (set_ssh_pinged true (set_state UP (self s1))))
         w2 (trace s1 ++ [(SshRun false SystemctlList, inr out)])).
Proof.
  intros Hload Hlist. unfold _check.
  erewrite bind_ok by exact Hload.
  repeat progress unfold run_command, call, get_self, modify_self, ret, mret, mbind,
    M_ret, M_bind.
  cbn [self world trace]. cbn [state set_state set_ssh_pinged set__ssh_pinged_this_time].
  rewrite bool_decide_eq_false_2 by discriminate.
  rewrite Hlist. reflexivity.
Qed.

(** When the load probe fails on the connection or on the command, the
    machine is reported unreachable and an [UP] machine becomes
    [UNREACHABLE]; [ssh_pinged] is not reset. *)
Lemma _check_unreachable res (s s1 : ctx World) :
  get_load_avg perform s = (inr None, s1) ->
  _check perform res s =
    (inr (set_is_reachable false res),
     mkCtx (if bool_decide (state (self s1) = UP) then set_state UNREACHABLE (self s1)
            else self s1) (world s1) (trace s1)).
Proof.
  intros Hload. unfold _check.
  erewrite bind_ok by exact Hload.
  repeat progress unfold get_self, modify_self, ret, mret, mbind, M_ret, M_bind.
  cbn [self world trace].
  destruct (bool_decide (state (self s1) = UP)); [reflexivity|].
  destruct s1; reflexivity.
Qed.
End CheckFacts.

(** * Facts about the shell *)

Module ShFacts.
Import StrFacts SplitFacts.

(** ** Reading a line piece by piece *)

Lemma scan_app r a b : Sh.scan r (a +:+ b) = Sh.scan (Sh.scan r a) b.
Proof.
  revert r. induction a as [|c a IH]; intros r; [reflexivity|].
  rewrite append_cons. cbn [Sh.scan]. apply IH.
Qed.

(** Inside single quotes a text of inert characters joins the word as
    it is. *)
Lemma scan_quoted v : forall w ts,
  str_forall Sh.inert v = true ->
  Sh.scan (Some (Sh.mkReader Sh.Quoted (Some w) ts)) v =
    Some (Sh.mkReader Sh.Quoted (Some (w +:+ v)) ts).
Proof.
  induction v as [|c v IH]; intros w ts.
  - intros _. cbn. rewrite append_nil_r. reflexivity.
  - cbn [str_forall]. intros [Hc Hv]%andb_true_iff.
    unfold Sh.inert in Hc. apply andb_true_iff in Hc as [Hq Hz].
    apply negb_true_iff in Hq, Hz.
    cbn [Sh.scan]. unfold mbind, option_bind, Sh.step. cbn [Sh.at_ Sh.cur Sh.toks].
    rewrite Hz, Hq. unfold Sh.grow. cbn [Sh.cur default].
    rewrite (IH _ _ Hv), append_assoc. reflexivity.
Qed.

Lemma scan_quoted_empty v ts :
  str_forall Sh.inert v = true ->
  Sh.scan (Some (Sh.mkReader Sh.Quoted (Some EmptyString) ts)) v =
    Some (Sh.mkReader Sh.Quoted (Some v) ts).
Proof. intros H. rewrite (scan_quoted v _ _ H). reflexivity. Qed.

(** ** Classes of characters *)

Lemma str_forall_impl (P Q : ascii -> bool) s :
  (forall c, P c = true -> Q c = true) ->
  str_forall P s = true -> str_forall Q s = true.
Proof.
  intros HPQ. induction s as [|a s IH]; [reflexivity|]. cbn.
  intros [Ha Hs]%andb_true_iff. rewrite (HPQ _ Ha), (IH Hs). reflexivity.
Qed.

Lemma plain_inert c : Sh.is_plain c = true -> Sh.inert c = true.
Proof. destruct c as [[] [] [] [] [] [] [] []]; vm_compute; congruence. Qed.

Lemma name_char_plain c : Sh.name_char c = true -> Sh.is_plain c = true.
Proof. unfold Sh.name_char. intros [H _]%andb_true_iff. exact H. Qed.

Lemma name_char_slash c : Sh.name_char c = true -> Ascii.eqb c "/" = false.
Proof. unfold Sh.name_char. intros [_ H]%andb_true_iff. apply negb_true_iff, H. Qed.

Lemma name_char_colon_free c :
  (Sh.is_letter c || Sh.is_digit c || Ascii.eqb c "_" || Ascii.eqb c "-") = true ->
  Sh.inert c = true /\ Ascii.eqb c ":" = false.
Proof. destruct c as [[] [] [] [] [] [] [] []]; vm_compute; intuition congruence. Qed.

Lemma octal_inert c : Sh.is_octal c = true -> Sh.inert c = true.
Proof. destruct c as [[] [] [] [] [] [] [] []]; vm_compute; congruence. Qed.

Lemma component_chars k : Sh.component k = true -> str_forall Sh.name_char k = true.
Proof. unfold Sh.component. intros [_ H]%andb_true_iff. exact H. Qed.

Lemma component_no_slash k : Sh.component k = true -> Py.contains "/" k = false.
Proof.
  intros H%component_chars. rewrite contains_forall. apply negb_false_iff.
  eapply str_forall_impl; [|exact H].
  intros c Hc. rewrite (name_char_slash c Hc). reflexivity.
Qed.

Lemma component_inert k : Sh.component k = true -> str_forall Sh.inert k = true.
Proof.
  intros H%component_chars. eapply str_forall_impl; [|exact H].
  intros c Hc. apply plain_inert, name_char_plain, Hc.
Qed.

Lemma is_name_chars u :
  Sh.is_name u = true ->
  str_forall (fun c => Sh.is_letter c || Sh.is_digit c || Ascii.eqb c "_" || Ascii.eqb c "-") u
    = true.
Proof.
  destruct u as [|a r]; [discriminate|]. cbn [Sh.is_name str_forall].
  intros [Ha Hr]%andb_true_iff. rewrite Hr, andb_true_r.
  destruct (Sh.is_letter a); [reflexivity|]. cbn in *.
  rewrite Ha. destruct (Sh.is_digit a); reflexivity.
Qed.

Lemma is_name_inert u : Sh.is_name u = true -> str_forall Sh.inert u = true.
Proof.
  intros H%is_name_chars. eapply str_forall_impl; [|exact H].
  intros c Hc. apply (name_char_colon_free c Hc).
Qed.

Lemma is_name_no_colon u : Sh.is_name u = true -> Py.contains ":" u = false.
Proof.
  intros H%is_name_chars. rewrite contains_forall. apply negb_false_iff.
  eapply str_forall_impl; [|exact H].
  intros c Hc. destruct (name_char_colon_free c Hc) as [_ ->]. reflexivity.
Qed.

Lemma octal_mode_inert p : Sh.octal_mode p = true -> str_forall Sh.inert p = true.
Proof.
  unfold Sh.octal_mode. intros [H _]%andb_true_iff.
  eapply str_forall_impl; [|exact H]. apply octal_inert.
Qed.

(** ** Splitting *)

Lemma split_app c a b : Py.split c (a +:+ String c b) = Py.split c a ++ Py.split c b.
Proof.
  induction a as [|x a IH].
  - rewrite append_nil_l. cbn [Py.split]. rewrite Ascii.eqb_refl. reflexivity.
  - rewrite append_cons. cbn [Py.split]. rewrite IH.
    destruct (Ascii.eqb x c); [reflexivity|].
    pose proof (split_nonempty c a) as Hne.
    destruct (Py.split c a) as [|w ws]; [done|]. reflexivity.
Qed.

Lemma split_whole c s : Py.contains c s = false -> Py.split c s = [s].
Proof.
  induction s as [|a s IH]; [reflexivity|]. cbn [Py.contains Py.split].
  intros [Ha Hs]%orb_false_iff. rewrite Ha, (IH Hs). reflexivity.
Qed.

Lemma split_chars (P : ascii -> bool) c s :
  forallb (str_forall P) (Py.split c s) = true ->
  str_forall (fun x => P x || Ascii.eqb x c) s = true.
Proof.
  induction s as [|a s IH]; [reflexivity|]. cbn [Py.split str_forall].
  destruct (Ascii.eqb a c) eqn:Hac.
  - cbn [forallb str_forall]. intros H. rewrite orb_true_r. cbn. apply IH, H.
  - pose proof (split_nonempty c s) as Hne.
    destruct (Py.split c s) as [|w ws]; [done|].
    cbn [forallb str_forall] in *. intros [[Ha Hw]%andb_true_iff Hws]%andb_true_iff.
    rewrite Ha. cbn. apply IH. rewrite Hw, Hws. reflexivity.
Qed.

(** ** Paths *)

Lemma is_path_inert d : Sh.is_path d = true -> str_forall Sh.inert d = true.
Proof.
  destruct d as [|a r]; [discriminate|]. cbn [Sh.is_path str_forall].
  intros [Ha Hr]%andb_true_iff. apply Ascii.eqb_eq in Ha as ->.
  cbn. apply (str_forall_impl (fun x => Sh.name_char x || Ascii.eqb x "/")).
  - intros c [Hc|Hc]%orb_true_iff; [apply plain_inert, name_char_plain, Hc|].
    apply Ascii.eqb_eq in Hc as ->. reflexivity.
  - apply split_chars.
    rewrite forallb_forall in *. intros w Hw. apply component_chars, Hr, Hw.
Qed.

Lemma is_path_child d k :
  Sh.is_path d = true -> Sh.component k = true ->
  Sh.is_path (d +:+ "/" +:+ k) = true.
Proof.
  destruct d as [|a r]; [discriminate|]. cbn [Sh.is_path].
  intros [Ha Hr]%andb_true_iff Hk. rewrite append_cons. cbn [Sh.is_path].
  rewrite Ha. cbn [andb].
  change ("/" +:+ k) with (String "/" k).
  rewrite split_app, (split_whole _ k (component_no_slash k Hk)).
  rewrite forallb_app, Hr. cbn. rewrite Hk. reflexivity.
Qed.

Lemma is_path_nonempty d : Sh.is_path d = true -> d <> EmptyString.
Proof. destruct d; [discriminate|discriminate]. Qed.

Lemma parent_child d k :
  Sh.is_path d = true -> Py.contains "/" k = false ->
  Sh.parent (d +:+ "/" +:+ k) = d.
Proof.
  intros Hd Hk. unfold Sh.parent.
  change ("/" +:+ k) with (String "/" k).
  rewrite split_app, (split_whole _ k Hk), removelast_last.
  change "/" with (String "/"%char EmptyString) at 1.
  rewrite (join_split "/" d).
  destruct d; [discriminate|reflexivity].
Qed.

Lemma component_hidden k :
  Sh.component k = true -> Sh.component ("." +:+ k +:+ ".tmp") = true.
Proof.
  intros Hk. pose proof (component_chars k Hk) as Hc.
  unfold Sh.component.
  assert (String.length ("." +:+ k +:+ ".tmp") >= 5) as Hlen.
  { rewrite !length_append. cbn. lia. }
  apply andb_true_iff; split; [apply andb_true_iff; split; [apply andb_true_iff; split|]|].
  - apply negb_true_iff, String.eqb_neq. intros H. rewrite H in Hlen. cbn in Hlen. lia.
  - apply negb_true_iff, String.eqb_neq. intros H. rewrite H in Hlen. cbn in Hlen. lia.
  - apply negb_true_iff, String.eqb_neq. intros H. rewrite H in Hlen. cbn in Hlen. lia.
  - rewrite !str_forall_append, Hc. reflexivity.
Qed.

Lemma outfile_path d k :
  Sh.is_path d = true -> Sh.component k = true ->
  Sh.is_path (outfile_of d k) = true /\ Sh.parent (outfile_of d k) = d.
Proof.
  intros Hd Hk. unfold outfile_of. split.
  - apply is_path_child; assumption.
  - apply parent_child; [exact Hd|apply component_no_slash, Hk].
Qed.

Lemma tmp_outfile_path d k :
  Sh.is_path d = true -> Sh.component k = true ->
  Sh.is_path (tmp_outfile_of d k) = true /\ Sh.parent (tmp_outfile_of d k) = d.
Proof.
  intros Hd Hk. unfold tmp_outfile_of.
  assert (d +:+ "/." +:+ k +:+ ".tmp" = d +:+ "/" +:+ ("." +:+ k +:+ ".tmp")) as ->.
  { reflexivity. }
  pose proof (component_hidden k Hk) as Hh. split.
  - apply is_path_child; assumption.
  - apply parent_child; [exact Hd|apply component_no_slash, Hh].
Qed.

Lemma child_ne d k : d +:+ "/" +:+ k <> d.
Proof.
  intros H. apply (f_equal String.length) in H.
  rewrite !length_append in H. cbn in H. lia.
Qed.

(** ** Operands *)

Lemma owner_spec_names u g :
  Sh.is_name u = true -> Sh.is_name g = true ->
  Sh.owner_spec (u +:+ ":" +:+ g) = Some (u, g).
Proof.
  intros Hu Hg. unfold Sh.owner_spec.
  change (":" +:+ g) with (String ":" g).
  rewrite split_app, (split_whole _ u (is_name_no_colon u Hu)),
    (split_whole _ g (is_name_no_colon g Hg)).
  cbn [app]. rewrite Hu, Hg. reflexivity.
Qed.

Lemma shell_escape_inert p : str_forall Sh.inert p = true -> shell_escape p = bare_quote p.
Proof.
  intros H. unfold shell_escape, bare_quote. f_equal. f_equal.
  induction p as [|a p IH]; [reflexivity|]. cbn [str_forall Py.replace] in *.
  apply andb_true_iff in H as [Ha Hp]. unfold Sh.inert in Ha.
  apply andb_true_iff in Ha as [Ha _]. apply negb_true_iff in Ha.
  rewrite Ha, (IH Hp). reflexivity.
Qed.

(** ** The command lines of [send_keys] *)

Ltac scan_lit :=
  match goal with
  | |- context [Sh.scan (Some ?r) ?s] =>
      let v := eval vm_compute in (Sh.scan (Some r) s) in
      change (Sh.scan (Some r) s) with v
  end.

Ltac read_line :=
  unfold Sh.read, Sh.lex; rewrite ?scan_app;
  repeat first [ rewrite scan_quoted by assumption | scan_lit ];
  vm_compute; reflexivity.

(** The line that ensures the destination directory, with its three
    copies of the directory between single quotes. *)
Lemma read_ensure_dir d :
  str_forall Sh.inert d = true ->
  Sh.read (command_string (EnsureDir d)) =
    Sh.Program
      (Sh.Or (Sh.Run ["test"; "-d"; d])
         (Sh.Sub (Sh.And (Sh.Run ["mkdir"; "-m"; "0750"; "-p"; d])
                         (Sh.Run ["chown"; "root:keys"; d])))).
Proof. intros Hd. unfold command_string. read_line. Qed.

Lemma read_rm_stale o t :
  str_forall Sh.inert o = true -> str_forall Sh.inert t = true ->
  Sh.read (command_string (RmStale o t)) = Sh.Program (Sh.Run ["rm"; "-f"; o; t]).
Proof.
  intros Ho Ht. unfold command_string.
  rewrite (shell_escape_inert o Ho), (shell_escape_inert t Ht). unfold bare_quote.
  read_line.
Qed.

Lemma read_rename t o :
  str_forall Sh.inert t = true -> str_forall Sh.inert o = true ->
  Sh.read (command_string (Rename t o)) = Sh.Program (Sh.Run ["mv"; t; o]).
Proof.
  intros Ht Ho. unfold command_string.
  rewrite (shell_escape_inert o Ho), (shell_escape_inert t Ht). unfold bare_quote.
  read_line.
Qed.

Lemma chown_chmod_text t u g p :
  command_string (ChownChmod t u g p) =
    "(  getent passwd '" +:+ u +:+ "' >/dev/null &&  getent group '" +:+ g +:+
    "' >/dev/null &&  chown '" +:+ (u +:+ ":" +:+ g) +:+ "' " +:+ shell_escape t +:+
    " ); chmod '" +:+ p +:+ "' " +:+ shell_escape t.
Proof.
  unfold command_string, Py.join. cbn [String.concat]. rewrite !append_assoc. reflexivity.
Qed.

Lemma read_chown_chmod_holes t u g ug p :
  str_forall Sh.inert t = true -> str_forall Sh.inert u = true ->
  str_forall Sh.inert g = true -> str_forall Sh.inert ug = true ->
  str_forall Sh.inert p = true ->
  Sh.read ("(  getent passwd '" +:+ u +:+ "' >/dev/null &&  getent group '" +:+ g +:+
           "' >/dev/null &&  chown '" +:+ ug +:+ "' '" +:+ t +:+
           "' ); chmod '" +:+ p +:+ "' '" +:+ t +:+ "'") =
    Sh.Program
      (Sh.Seq
         (Sh.Sub
            (Sh.And
               (Sh.And (Sh.Quiet (Sh.Run ["getent"; "passwd"; u]))
                       (Sh.Quiet (Sh.Run ["getent"; "group"; g])))
               (Sh.Run ["chown"; ug; t])))
         (Sh.Run ["chmod"; p; t])).
Proof. intros Ht Hu Hg Hug Hp. read_line. Qed.

(** The ownership and mode line, for a user, a group and permissions
    the quotes leave as they are. *)
Lemma read_chown_chmod t u g p :
  str_forall Sh.inert t = true -> str_forall Sh.inert u = true ->
  str_forall Sh.inert g = true -> str_forall Sh.inert p = true ->
  Sh.read (command_string (ChownChmod t u g p)) =
    Sh.Program
      (Sh.Seq
         (Sh.Sub
            (Sh.And
               (Sh.And (Sh.Quiet (Sh.Run ["getent"; "passwd"; u]))
                       (Sh.Quiet (Sh.Run ["getent"; "group"; g])))
               (Sh.Run ["chown"; u +:+ ":" +:+ g; t])))
         (Sh.Run ["chmod"; p; t])).
Proof.
  intros Ht Hu Hg Hp.
  assert (str_forall Sh.inert (u +:+ ":" +:+ g) = true) as Hug.
  { rewrite !str_forall_append, Hu, Hg. reflexivity. }
  rewrite chown_chmod_text, (shell_escape_inert t Ht). unfold bare_quote.
  rewrite <- (read_chown_chmod_holes t u g (u +:+ ":" +:+ g) p Ht Hu Hg Hug Hp).
  f_equal. rewrite !append_assoc. reflexivity.
Qed.

Lemma read_chown_chmod_smuggled_holes t u g ug p1 q p2 :
  str_forall Sh.inert t = true -> str_forall Sh.inert u = true ->
  str_forall Sh.inert g = true -> str_forall Sh.inert ug = true ->
  str_forall Sh.inert p1 = true -> str_forall Sh.inert q = true ->
  str_forall Sh.inert p2 = true ->
  Sh.read ("(  getent passwd '" +:+ u +:+ "' >/dev/null &&  getent group '" +:+ g +:+
           "' >/dev/null &&  chown '" +:+ ug +:+ "' '" +:+ t +:+
           "' ); chmod '" +:+ p1 +:+ "' '" +:+ q +:+ "'; chmod '" +:+ p2 +:+
           "' '" +:+ t +:+ "'") =
    Sh.Program
      (Sh.Seq
         (Sh.Sub
            (Sh.And
               (Sh.And (Sh.Quiet (Sh.Run ["getent"; "passwd"; u]))
                       (Sh.Quiet (Sh.Run ["getent"; "group"; g])))
               (Sh.Run ["chown"; ug; t])))
         (Sh.Seq (Sh.Run ["chmod"; p1; q]) (Sh.Run ["chmod"; p2; t]))).
Proof. intros Ht Hu Hg Hug Hp1 Hq Hp2. read_line. Qed.

(** The ownership and mode line for permissions that close their
    quotes: the shell reads one more command than the source wrote. *)
Lemma read_chown_chmod_smuggled t u g p1 q p2 :
  str_forall Sh.inert t = true -> str_forall Sh.inert u = true ->
  str_forall Sh.inert g = true -> str_forall Sh.inert p1 = true ->
  str_forall Sh.inert q = true -> str_forall Sh.inert p2 = true ->
  Sh.read (command_string (ChownChmod t u g (smuggled p1 q p2))) =
    Sh.Program
      (Sh.Seq
         (Sh.Sub
            (Sh.And
               (Sh.And (Sh.Quiet (Sh.Run ["getent"; "passwd"; u]))
                       (Sh.Quiet (Sh.Run ["getent"; "group"; g])))
               (Sh.Run ["chown"; u +:+ ":" +:+ g; t])))
         (Sh.Seq (Sh.Run ["chmod"; p1; q]) (Sh.Run ["chmod"; p2; t]))).
Proof.
  intros Ht Hu Hg Hp1 Hq Hp2.
  assert (str_forall Sh.inert (u +:+ ":" +:+ g) = true) as Hug.
  { rewrite !str_forall_append, Hu, Hg. reflexivity. }
  rewrite chown_chmod_text, (shell_escape_inert t Ht). unfold bare_quote, smuggled.
  rewrite <- (read_chown_chmod_smuggled_holes t u g (u +:+ ":" +:+ g) p1 q p2
                Ht Hu Hg Hug Hp1 Hq Hp2).
  f_equal. rewrite !append_assoc. reflexivity.
Qed.

Lemma read_keys_done :
  Sh.read (command_string KeysDone) =
    Sh.Program
      (Sh.And (Sh.And (Sh.Run ["mkdir"; "-m"; "0750"; "-p"; "/run/keys"])
                      (Sh.Run ["chown"; "root:keys"; "/run/keys"]))
              (Sh.Run ["touch"; "/run/keys/done"])).
Proof. vm_compute. reflexivity. Qed.

End ShFacts.

(** * Facts about the protocol in the reference environment *)

Section PosixFacts.
Import StrFacts ShFacts Posix.

Ltac unfold_M :=
  repeat progress unfold send_key, write_scratch, run_command, upload_file, _logged_exec,
    getitem, get_keys, log, call, get_self, modify_self, raise, ret, mret, mbind,
    M_ret, M_bind in *.

Ltac lk :=
  repeat first
    [ rewrite lookup_insert_eq | rewrite lookup_insert_ne by congruence
    | rewrite lookup_delete_eq | rewrite lookup_delete_ne by congruence ].

Lemma use_link_id e : link_budget e = None -> use_link e = e.
Proof. destruct e. cbn. intros ->. reflexivity. Qed.

Lemma with_remote_same e : with_remote (remote_files e) (remote_dirs e) [] e = e.
Proof. destruct e. unfold with_remote. cbn. rewrite app_nil_r. reflexivity. Qed.

Lemma with_remote_twice fs1 ds1 s1 fs2 ds2 s2 e :
  with_remote fs2 ds2 s2 (with_remote fs1 ds1 s1 e) = with_remote fs2 ds2 (s1 ++ s2) e.
Proof. unfold with_remote. cbn. rewrite app_assoc. reflexivity. Qed.

Lemma resolves_spec e u g :
  resolves e u g = true <-> u ∈ passwd e /\ g ∈ groups e.
Proof.
  unfold resolves. rewrite andb_true_iff, !bool_decide_eq_true. reflexivity.
Qed.

(** ** The utilities on the operands of [send_keys] *)

Lemma is_dir_true e p : is_Some (remote_dirs e !! p) -> is_dir e p = true.
Proof. intros H. unfold is_dir. apply bool_decide_eq_true_2, H. Qed.

Lemma is_dir_false e p : remote_dirs e !! p = None -> is_dir e p = false.
Proof.
  intros H. unfold is_dir. apply bool_decide_eq_false_2. rewrite H.
  intros [x Hx]. discriminate Hx.
Qed.

Lemma utility_test q d e :
  Sh.is_path d = true -> utility q ["test"; "-d"; d] e = silent (is_dir e d) e.
Proof. intros Hd. unfold utility, test_. rewrite Hd. reflexivity. Qed.

Lemma utility_mkdir q d e :
  Sh.is_path d = true ->
  utility q ["mkdir"; "-m"; "0750"; "-p"; d] e =
    match remote_dirs e !! d, remote_files e !! d with
    | Some _, _ => silent true e
    | None, Some _ => silent false e
    | None, None =>
        if is_dir e (Sh.parent d) then
          silent true
            (with_remote (remote_files e)
               (<[d := mkDir "root" "root" "0750"]> (remote_dirs e)) [] e)
        else None
    end.
Proof. intros Hd. unfold utility, mkdir_. rewrite Hd. reflexivity. Qed.

Lemma utility_chown q u g p e :
  Sh.is_name u = true -> Sh.is_name g = true -> Sh.is_path p = true ->
  utility q ["chown"; u +:+ ":" +:+ g; p] e =
    if resolves e u g then
      match remote_dirs e !! p, remote_files e !! p with
      | Some d, _ =>
          silent true
            (with_remote (remote_files e)
               (<[p := mkDir u g (dir_mode d)]> (remote_dirs e)) [] e)
      | None, Some f =>
          if Sh.ordinary_mode (mode f) then
            silent true
              (with_remote (<[p := chowned u g f]> (remote_files e)) (remote_dirs e)
                 [<[p := chowned u g f]> (remote_files e)] e)
          else None
      | None, None => silent false e
      end
    else silent false e.
Proof.
  intros Hu Hg Hp. unfold utility, chown_.
  rewrite (owner_spec_names u g Hu Hg), Hp. reflexivity.
Qed.

Lemma utility_chmod q md p e :
  Sh.octal_mode md = true -> Sh.is_path p = true ->
  utility q ["chmod"; md; p] e =
    match remote_dirs e !! p, remote_files e !! p with
    | Some d, _ =>
        silent true
          (with_remote (remote_files e)
             (<[p := mkDir (dir_owner d) (dir_group d) md]> (remote_dirs e)) [] e)
    | None, Some f =>
        silent true
          (with_remote (<[p := chmodded md f]> (remote_files e)) (remote_dirs e)
             [<[p := chmodded md f]> (remote_files e)] e)
    | None, None => silent false e
    end.
Proof. intros Hm Hp. unfold utility, chmod_. rewrite Hm, Hp. reflexivity. Qed.

Lemma utility_getent_passwd u e :
  Sh.is_name u = true ->
  utility true ["getent"; "passwd"; u] e = silent (bool_decide (u ∈ passwd e)) e.
Proof. intros Hu. unfold utility, getent_. rewrite Hu. reflexivity. Qed.

Lemma utility_getent_group g e :
  Sh.is_name g = true ->
  utility true ["getent"; "group"; g] e = silent (bool_decide (g ∈ groups e)) e.
Proof. intros Hg. unfold utility, getent_. rewrite Hg. reflexivity. Qed.

Lemma utility_rm q o t e :
  Sh.is_path o = true -> Sh.is_path t = true ->
  remote_dirs e !! o = None -> remote_dirs e !! t = None ->
  utility q ["rm"; "-f"; o; t] e =
    silent true
      (with_remote (delete t (delete o (remote_files e))) (remote_dirs e)
         [delete o (remote_files e); delete t (delete o (remote_files e))] e).
Proof.
  intros Ho Ht Hdo Hdt. unfold utility, rm_. cbn [forallb].
  rewrite Ho, Ht. cbn [rm_f String.eqb Ascii.eqb Bool.eqb andb]. rewrite Hdo, Hdt.
  reflexivity.
Qed.

Lemma utility_mv q t o f e :
  Sh.is_path t = true -> Sh.is_path o = true ->
  remote_dirs e !! t = None -> remote_dirs e !! o = None -> t <> o ->
  Sh.parent t = Sh.parent o -> is_Some (remote_dirs e !! Sh.parent o) ->
  remote_files e !! t = Some f ->
  utility q ["mv"; t; o] e =
    silent true
      (with_remote (<[o := f]> (delete t (remote_files e))) (remote_dirs e)
         [<[o := f]> (delete t (remote_files e))] e).
Proof.
  intros Ht Ho Hdt Hdo Hne Hpar Hdir Hf. unfold utility, mv_.
  rewrite Ht, Ho, (is_dir_false _ _ Hdt), (is_dir_false _ _ Hdo), Hpar,
    (String.eqb_refl (Sh.parent o)), (is_dir_true _ _ Hdir), Hf.
  apply String.eqb_neq in Hne. rewrite Hne. reflexivity.
Qed.

(** ** The command lines of [send_keys], run *)

(** The directory line on a ready directory: it returns with status
    0, the files are as before, the directory exists afterwards and no
    other directory has changed. *)
Lemma ensure_dir_posix d e :
  Sh.is_path d = true -> dir_ready e d -> resolves e "root" "keys" = true ->
  exists ds',
    exec_remote false (EnsureDir d) e =
      Some (true, EmptyString, with_remote (remote_files e) ds' [] e) /\
    is_Some (ds' !! d) /\
    (forall q, q <> d -> ds' !! q = remote_dirs e !! q).
Proof.
  intros Hd Hready Hrk. unfold exec_remote, run_line, ssh_command_line.
  rewrite (read_ensure_dir d (is_path_inert d Hd)). cbn [run].
  rewrite utility_test by exact Hd. unfold silent at 1.
  destruct (remote_dirs e !! d) as [x|] eqn:Hx.
  - rewrite is_dir_true by (rewrite Hx; eauto).
    exists (remote_dirs e). rewrite with_remote_same.
    split; [reflexivity|]. split; [rewrite Hx; eauto|reflexivity].
  - rewrite is_dir_false by exact Hx.
    destruct Hready as [[y Hy]|[Hf Hp]]; [congruence|].
    rewrite utility_mkdir by exact Hd. rewrite Hx, Hf, (is_dir_true _ _ Hp).
    unfold silent at 1.
    rewrite (utility_chown false "root" "keys" d) by (reflexivity || exact Hd).
    change (resolves (with_remote _ _ _ e) "root" "keys") with (resolves e "root" "keys").
    rewrite Hrk. cbn [remote_dirs remote_files with_remote].
    rewrite lookup_insert_eq. unfold silent. rewrite with_remote_twice. cbn [app dir_mode].
    eexists. split; [reflexivity|]. split.
    + rewrite lookup_insert_eq. eauto.
    + intros q Hq. rewrite !lookup_insert_ne by congruence. reflexivity.
Qed.

Lemma rm_stale_posix o t e :
  Sh.is_path o = true -> Sh.is_path t = true ->
  remote_dirs e !! o = None -> remote_dirs e !! t = None ->
  exec_remote false (RmStale o t) e =
    Some (true, EmptyString,
          with_remote (delete t (delete o (remote_files e))) (remote_dirs e)
            [delete o (remote_files e); delete t (delete o (remote_files e))] e).
Proof.
  intros Ho Ht Hdo Hdt. unfold exec_remote, run_line, ssh_command_line.
  rewrite (read_rm_stale o t (is_path_inert o Ho) (is_path_inert t Ht)). cbn [run].
  apply utility_rm; assumption.
Qed.

(** What the ownership and mode line makes of the file at [t]: the
    owner changes when both lookups succeed, the mode changes in any
    case. *)
Lemma chown_chmod_posix e t u g p f :
  Sh.is_path t = true -> Sh.is_name u = true -> Sh.is_name g = true ->
  Sh.octal_mode p = true ->
  remote_dirs e !! t = None -> remote_files e !! t = Some f ->
  Sh.ordinary_mode (mode f) = true ->
  let f1 := if resolves e u g then chowned u g f else f in
  exists seen,
    exec_remote false (ChownChmod t u g p) e =
      Some (true, EmptyString,
            with_remote (<[t := chmodded p f1]> (remote_files e)) (remote_dirs e) seen e) /\
    Forall (fun h => exists x, h = <[t := x]> (remote_files e) /\ content x = content f) seen.
Proof.
  intros Ht Hu Hg Hp Hdt Hf Hord f1.
  assert (exec_remote false (ChownChmod t u g p) e =
          Some (true, EmptyString,
                with_remote (<[t := chmodded p f1]> (remote_files e)) (remote_dirs e)
                  ((if resolves e u g then [<[t := f1]> (remote_files e)] else []) ++
                   [<[t := chmodded p f1]> (remote_files e)]) e)) as Hrun.
  { unfold exec_remote, run_line, ssh_command_line.
    rewrite (read_chown_chmod t u g p (is_path_inert t Ht) (is_name_inert u Hu)
               (is_name_inert g Hg) (octal_mode_inert p Hp)).
    cbn [run].
    rewrite utility_getent_passwd by exact Hu. unfold silent at 1.
    subst f1. unfold resolves.
    destruct (bool_decide (u ∈ passwd e)) eqn:Hpw; cbn [andb].
    - rewrite utility_getent_group by exact Hg. unfold silent at 1.
      destruct (bool_decide (g ∈ groups e)) eqn:Hgr.
      + rewrite utility_chown by assumption. unfold resolves. rewrite Hpw, Hgr. cbn [andb].
        rewrite Hdt, Hf, Hord. unfold silent at 1.
        rewrite utility_chmod by assumption. cbn [remote_dirs remote_files with_remote].
        rewrite Hdt, lookup_insert_eq. unfold silent. rewrite with_remote_twice.
        rewrite insert_insert_eq. reflexivity.
      + rewrite utility_chmod by assumption. rewrite Hdt, Hf. reflexivity.
    - rewrite utility_chmod by assumption. rewrite Hdt, Hf. reflexivity. }
  eexists. split; [exact Hrun|].
  apply Forall_app. split.
  - subst f1. destruct (resolves e u g); repeat constructor.
    eexists. split; reflexivity.
  - repeat constructor. eexists. split; [reflexivity|].
    subst f1. destruct (resolves e u g); reflexivity.
Qed.

Lemma rename_posix e t o f :
  Sh.is_path t = true -> Sh.is_path o = true ->
  remote_dirs e !! t = None -> remote_dirs e !! o = None -> t <> o ->
  Sh.parent t = Sh.parent o -> is_Some (remote_dirs e !! Sh.parent o) ->
  remote_files e !! t = Some f ->
  exec_remote false (Rename t o) e =
    Some (true, EmptyString,
          with_remote (<[o := f]> (delete t (remote_files e))) (remote_dirs e)
            [<[o := f]> (delete t (remote_files e))] e).
Proof.
  intros Ht Ho Hdt Hdo Hne Hpar Hdir Hf. unfold exec_remote, run_line, ssh_command_line.
  rewrite (read_rename t o (is_path_inert t Ht) (is_path_inert o Ho)). cbn [run].
  apply utility_mv; assumption.
Qed.

(** The readiness line: [/run/keys] exists afterwards and belongs to
    [root:keys], the marker is touched. *)
Lemma keys_done_posix e :
  dir_ready e "/run/keys" -> resolves e "root" "keys" = true ->
  remote_dirs e !! "/run/keys/done" = None ->
  exists ds',
    exec_remote false KeysDone e =
      Some (true, EmptyString,
            with_remote (touch "/run/keys/done" (new_file_mode e) (remote_files e)) ds'
              [touch "/run/keys/done" (new_file_mode e) (remote_files e)] e) /\
    (exists x, ds' !! "/run/keys" = Some x /\ dir_owner x = "root" /\ dir_group x = "keys" /\
               (remote_dirs e !! "/run/keys" = None -> dir_mode x = "0750")) /\
    (forall q, q <> "/run/keys" -> ds' !! q = remote_dirs e !! q).
Proof.
  intros Hready Hrk Hdone. unfold exec_remote, run_line, ssh_command_line.
  rewrite read_keys_done. cbn [run].
  rewrite utility_mkdir by reflexivity.
  assert (forall e1 : env,
            remote_dirs e1 !! "/run/keys/done" = None ->
            is_Some (remote_dirs e1 !! "/run/keys") ->
            utility false ["touch"; "/run/keys/done"] e1 =
              silent true
                (with_remote (touch "/run/keys/done" (new_file_mode e1) (remote_files e1))
                   (remote_dirs e1)
                   [touch "/run/keys/done" (new_file_mode e1) (remote_files e1)] e1)) as Htouch.
  { intros e1 H1 H2. unfold utility, touch_.
    change (Sh.is_path "/run/keys/done") with true.
    change (Sh.parent "/run/keys/done") with "/run/keys".
    rewrite (is_dir_false _ _ H1), (is_dir_true _ _ H2). reflexivity. }
  destruct (remote_dirs e !! "/run/keys") as [x|] eqn:Hx.
  - unfold silent at 1.
    rewrite (utility_chown false "root" "keys" "/run/keys") by reflexivity.
    rewrite Hrk, Hx. unfold silent at 1.
    rewrite Htouch; cbn [remote_dirs remote_files with_remote new_file_mode];
      [|rewrite lookup_insert_ne by discriminate; exact Hdone
       |rewrite lookup_insert_eq; eauto].
    unfold silent. rewrite with_remote_twice. cbn [app].
    eexists. split; [reflexivity|]. split.
    + rewrite lookup_insert_eq. eexists. split; [reflexivity|]. cbn.
      split; [reflexivity|]. split; [reflexivity|discriminate].
    + intros q Hq. rewrite lookup_insert_ne by congruence. reflexivity.
  - destruct Hready as [[y Hy]|[Hf Hp]]; [congruence|].
    rewrite Hf, (is_dir_true _ _ Hp). unfold silent at 1.
    rewrite (utility_chown false "root" "keys" "/run/keys") by reflexivity.
    change (resolves (with_remote _ _ _ e) "root" "keys") with (resolves e "root" "keys").
    rewrite Hrk. cbn [remote_dirs remote_files with_remote].
    rewrite lookup_insert_eq. unfold silent at 1.
    rewrite Htouch; cbn [remote_dirs remote_files with_remote new_file_mode];
      [|rewrite !lookup_insert_ne by discriminate; exact Hdone
       |rewrite lookup_insert_eq; eauto].
    unfold silent. rewrite !with_remote_twice. cbn [app].
    eexists. split; [reflexivity|]. split.
    + rewrite lookup_insert_eq. eexists. split; [reflexivity|]. cbn. auto.
    + intros q Hq. rewrite !lookup_insert_ne by congruence. reflexivity.
Qed.

(** ** The calls of [send_keys] *)

Lemma run_command_posix m e tr c out e' :
  link_budget e = None -> state m <> RESCUE ->
  exec_remote false c e = Some (true, out, e') ->
  run_command perform c (mkCtx m e tr) =
    (inr out, mkCtx m e' (tr ++ [(SshRun false c, inr out)])).
Proof.
  intros Hl Hst Hx. unfold_M. cbn. unfold link_up. rewrite Hl.
  rewrite use_link_id by exact Hl.
  rewrite bool_decide_eq_false_2 by exact Hst. rewrite Hx. reflexivity.
Qed.

Lemma write_scratch_posix k opts m e c :
  scratch_content e opts = Some c -> opts !! "keyFile" <> Some (scratch_of m) ->
  exists ev, forall tr,
    write_scratch perform k opts (scratch_of m) (mkCtx m e tr) =
      (inr tt, mkCtx m (with_local (<[scratch_of m := c]> (local_files e)) e) (tr ++ [ev])).
Proof.
  unfold scratch_content. unfold_M. cbn.
  destruct (opts !! "text") as [t|].
  { intros [= ->] _. eauto. }
  destruct (opts !! "keyCmd") as [cmd|].
  { intros [= <-] _. eauto. }
  destruct (opts !! "keyFile") as [f|]; [|discriminate].
  cbn. intros -> Hkf.
  assert (f <> scratch_of m) as Hne by congruence.
  apply String.eqb_neq in Hne. rewrite Hne. eauto.
Qed.

Lemma upload_file_posix m e tr src tgt c :
  link_budget e = None -> local_files e !! src = Some c ->
  Sh.is_path tgt = true -> remote_dirs e !! tgt = None ->
  is_Some (remote_dirs e !! Sh.parent tgt) ->
  upload_file perform src tgt (mkCtx m e tr) =
    (inr EmptyString,
     mkCtx m
       (with_remote (<[tgt := uploaded (remote_files e) (upload_mode e) tgt c]> (remote_files e))
          (remote_dirs e)
          (scp_stages (remote_files e) (upload_mode e) tgt c ++
           [<[tgt := uploaded (remote_files e) (upload_mode e) tgt c]> (remote_files e)]) e)
       (tr ++ [(Scp src tgt, inr EmptyString)])).
Proof.
  intros Hl Hc Hp Hd Hpar. unfold_M. cbn. unfold link_up. rewrite Hl.
  rewrite use_link_id by exact Hl.
  rewrite Hc, Hp, (is_dir_false _ _ Hd), (is_dir_true _ _ Hpar). reflexivity.
Qed.

Lemma os_remove_posix m e tr path c :
  local_files e !! path = Some c ->
  call perform (OsRemove path) (mkCtx m e tr) =
    (inr EmptyString,
     mkCtx m (with_local (delete path (local_files e)) e)
       (tr ++ [(OsRemove path, inr EmptyString)])).
Proof. intros Hc. unfold_M. cbn. rewrite Hc. reflexivity. Qed.

Lemma provisioned_file_inv e opts F :
  provisioned_file e opts = Some F ->
  exists c u g p,
    scratch_content e opts = Some c /\ opts !! "user" = Some u /\
    opts !! "group" = Some g /\ opts !! "permissions" = Some p /\
    Sh.is_name u = true /\ Sh.is_name g = true /\ Sh.octal_mode p = true /\
    F = published e c u g p.
Proof.
  unfold provisioned_file. intros HF.
  destruct (scratch_content e opts) as [c|]; [|discriminate].
  destruct (opts !! "user") as [u|]; [|discriminate].
  destruct (opts !! "group") as [g|]; [|discriminate].
  destruct (opts !! "permissions") as [p|]; [|discriminate].
  cbn in HF.
  destruct (Sh.is_name u) eqn:Hu; [|discriminate].
  destruct (Sh.is_name g) eqn:Hg; [|discriminate].
  destruct (Sh.octal_mode p) eqn:Hp; [|discriminate].
  injection HF as <-. exists c, u, g, p. auto 10.
Qed.

(** One well-formed key on a healthy connection: the protocol runs to
    its end, the final path holds the published file, and a reader of
    the final path saw nothing but its absence or the published file. *)
Lemma send_key_posix m e tr k opts dd F :
  link_budget e = None -> state m <> RESCUE -> resolves e "root" "keys" = true ->
  Sh.ordinary_mode (upload_mode e) = true ->
  Sh.component k = true -> opts !! "destDir" = Some dd ->
  let d := Py.rstrip "/" dd in
  let o := outfile_of d k in
  let t := tmp_outfile_of d k in
  Sh.is_path d = true -> dir_ready e d ->
  remote_dirs e !! o = None -> remote_dirs e !! t = None ->
  provisioned_file e opts = Some F -> opts !! "keyFile" <> Some (scratch_of m) ->
  exists e' tr' c,
    send_key perform k opts (mkCtx m e tr) = (inr tt, mkCtx m e' tr') /\
    scratch_content e opts = Some c /\
    remote_files e' = <[o := F]> (delete t (delete o (remote_files e))) /\
    local_files e' = delete (scratch_of m) (<[scratch_of m := c]> (local_files e)) /\
    same_static e e' /\
    is_Some (remote_dirs e' !! d) /\
    (forall q, q <> d -> remote_dirs e' !! q = remote_dirs e !! q) /\
    exists seen, history e' = history e ++ seen /\
      Forall (fun h => h !! o = None \/ h !! o = Some F) seen /\
      (forall q, q <> o -> q <> t -> Forall (fun h => h !! q = remote_files e !! q) seen).
Proof.
  intros Hlink Hst Hrk Hord Hk Hdd d o t Hd Hready Hdo Hdt HF Hkf.
  pose proof (tmp_outfile_ne d k) as Hne. fold o t in Hne.
  destruct (outfile_path d k Hd Hk) as [Hpo Hparo]. fold o in Hpo, Hparo.
  destruct (tmp_outfile_path d k Hd Hk) as [Hpt Hpart]. fold t in Hpt, Hpart.
  assert (o <> d) as Hod by apply child_ne.
  assert (t <> d) as Htd.
  { subst t. unfold tmp_outfile_of. intros H. apply (f_equal String.length) in H.
    rewrite !length_append in H. cbn in H. lia. }
  destruct (provisioned_file_inv e opts F HF)
    as (c & u & g & p & Hc & Hu & Hg & Hp & Hnu & Hng & Hop & ->).
  destruct (ensure_dir_posix d e Hd Hready Hrk) as (ds1 & He1 & Hds1 & Hds1q).
  set (e1 := with_remote (remote_files e) ds1 [] e) in *.
  assert (scratch_content e1 opts = Some c) as Hc1 by exact Hc.
  destruct (write_scratch_posix k opts m e1 c Hc1 Hkf) as [ev Hws].
  set (e2 := with_local (<[scratch_of m := c]> (local_files e1)) e1) in *.
  assert (ds1 !! o = None) as Hdo1 by (rewrite Hds1q by exact Hod; exact Hdo).
  assert (ds1 !! t = None) as Hdt1 by (rewrite Hds1q by exact Htd; exact Hdt).
  set (fs3 := delete t (delete o (remote_files e))).
  set (e3 := with_remote fs3 ds1 [delete o (remote_files e); fs3] e2).
  assert (fs3 !! t = None) as Ht3 by (subst fs3; apply lookup_delete_eq).
  assert (fs3 !! o = None) as Ho3.
  { subst fs3. rewrite lookup_delete_ne by exact Hne. apply lookup_delete_eq. }
  set (up := mkFile c "root" "root" (upload_mode e)).
  assert (uploaded fs3 (upload_mode e) t c = up) as Hup.
  { unfold uploaded. rewrite Ht3. reflexivity. }
  set (e4 := with_remote (<[t := up]> fs3) ds1
               (scp_stages fs3 (upload_mode e) t c ++ [<[t := up]> fs3]) e3).
  destruct (chown_chmod_posix e4 t u g p up Hpt Hnu Hng Hop Hdt1)
    as (seen5 & He5 & Hseen5); [apply lookup_insert_eq|exact Hord|].
  change (resolves e4 u g) with (resolves e u g) in He5.
  assert (chmodded p (if resolves e u g then chowned u g up else up) = published e c u g p)
    as HF1.
  { unfold published, chmodded, chowned. destruct (resolves e u g); reflexivity. }
  rewrite HF1 in He5. set (F := published e c u g p) in *.
  cbn [remote_files remote_dirs with_remote e4] in He5, Hseen5.
  rewrite insert_insert_eq in He5.
  set (e5 := with_remote (<[t := F]> fs3) ds1 seen5 e4) in *.
  set (fs6 := <[o := F]> (delete t (<[t := F]> fs3))).
  set (e6 := with_remote fs6 ds1 [fs6] e5).
  exists (with_local (delete (scratch_of m) (local_files e6)) e6).
  eexists _, c. split.
  { unfold send_key.
    erewrite bind_ok by reflexivity.
    erewrite bind_ok by reflexivity.
    cbn [self]. rewrite Hdd. fold d o t.
    erewrite bind_ok by (apply run_command_posix; [exact Hlink|exact Hst|exact He1]).
    erewrite bind_ok by apply Hws.
    erewrite bind_ok by
      (apply run_command_posix; [exact Hlink|exact Hst|];
       apply (rm_stale_posix o t e2 Hpo Hpt Hdo1 Hdt1)).
    erewrite bind_ok.
    2:{ apply (upload_file_posix m e3 _ (scratch_of m) t c);
          [exact Hlink|apply lookup_insert_eq|exact Hpt|exact Hdt1|].
        cbn [remote_dirs e3 with_remote]. rewrite Hpart. exact Hds1. }
    cbn [remote_files upload_mode remote_dirs with_remote with_local e3 e2 e1].
    rewrite Hup. fold e1 e2. fold e3. fold e4.
    unfold getitem. rewrite Hu, Hg, Hp.
    erewrite bind_ok by reflexivity.
    erewrite bind_ok by reflexivity.
    erewrite bind_ok by reflexivity.
    erewrite bind_ok by (apply run_command_posix; [exact Hlink|exact Hst|exact He5]).
    erewrite bind_ok.
    2:{ apply run_command_posix; [exact Hlink|exact Hst|].
        apply (rename_posix e5 t o F Hpt Hpo Hdt1 Hdo1 Hne);
          [congruence|rewrite Hparo; exact Hds1|apply lookup_insert_eq]. }
    fold fs6. fold e6.
    erewrite bind_ok by (eapply os_remove_posix; apply lookup_insert_eq).
    reflexivity. }
  subst e6 e5 e4 e3 e2 e1.
  cbn [remote_files remote_dirs local_files history with_remote with_local].
  split; [exact Hc|].
  split.
  { subst fs6. rewrite delete_insert_eq. f_equal. apply delete_id. exact Ht3. }
  split; [reflexivity|].
  split; [repeat split|].
  split; [exact Hds1|]. split; [exact Hds1q|].
  eexists. split; [rewrite app_nil_r, <- !app_assoc; reflexivity|].
  assert (forall q, q <> o -> q <> t -> fs3 !! q = remote_files e !! q) as Hq3.
  { intros q Hqo Hqt. subst fs3. rewrite !lookup_delete_ne by congruence. reflexivity. }
  assert (fs6 !! o = Some F) as Ho6 by (subst fs6; apply lookup_insert_eq).
  assert (forall q, q <> o -> q <> t -> fs6 !! q = remote_files e !! q) as Hq6.
  { intros q Hqo Hqt. subst fs6. lk. apply Hq3; assumption. }
  clearbody fs6. clearbody fs3.
  split.
  - rewrite !Forall_app, !Forall_cons, Forall_nil. unfold scp_stages. rewrite Forall_map.
    split; [split; [left; apply lookup_delete_eq|split; [left; exact Ho3|exact I]]|].
    split; [apply Forall_forall; intros n _; left; lk; exact Ho3|].
    split; [split; [left; lk; exact Ho3|exact I]|].
    split; [eapply Forall_impl; [exact Hseen5|]; intros h (x & -> & _); left; lk; exact Ho3|].
    split; [right; exact Ho6|exact I].
  - intros q Hqo Hqt. specialize (Hq3 q Hqo Hqt). specialize (Hq6 q Hqo Hqt).
    rewrite !Forall_app, !Forall_cons, Forall_nil. unfold scp_stages. rewrite Forall_map.
    split; [split; [lk; reflexivity|split; [exact Hq3|exact I]]|].
    split; [apply Forall_forall; intros n _; lk; exact Hq3|].
    split; [split; [lk; exact Hq3|exact I]|].
    split; [eapply Forall_impl; [exact Hseen5|]; intros h (x & -> & _); lk; exact Hq3|].
    split; [exact Hq6|exact I].
Qed.


(** ** The loop in the reference environment *)

Lemma key_paths_cons k opts ks :
  key_paths ((k, opts) :: ks) =
  option_list (dest_path k opts) ++ option_list (tmp_path k opts) ++ key_paths ks.
Proof. unfold key_paths. cbn. rewrite <- app_assoc. reflexivity. Qed.

Lemma dest_path_in_key_paths k opts ks o :
  (k, opts) ∈ ks -> dest_path k opts = Some o -> o ∈ key_paths ks.
Proof.
  intros Hin Ho. unfold key_paths. apply list_elem_of_bind.
  exists (k, opts). split; [|exact Hin]. rewrite Ho. cbn. by left.
Qed.

Lemma tmp_path_in_key_paths k opts ks t :
  (k, opts) ∈ ks -> tmp_path k opts = Some t -> t ∈ key_paths ks.
Proof.
  intros Hin Ht. unfold key_paths. apply list_elem_of_bind.
  exists (k, opts). split; [|exact Hin]. rewrite Ht.
  apply elem_of_app. right. by left.
Qed.

Lemma same_static_trans e1 e2 e3 :
  same_static e1 e2 -> same_static e2 e3 -> same_static e1 e3.
Proof. unfold same_static. intuition congruence. Qed.

Lemma same_static_resolves e e' u g : same_static e e' -> resolves e' u g = resolves e u g.
Proof. intros (Hpw & Hgr & _). unfold resolves. rewrite Hpw, Hgr. reflexivity. Qed.

Lemma provisioned_file_stable m e e' opts :
  same_static e e' ->
  (forall f, f <> scratch_of m -> local_files e' !! f = local_files e !! f) ->
  opts !! "keyFile" <> Some (scratch_of m) ->
  provisioned_file e' opts = provisioned_file e opts.
Proof.
  intros (Hpw & Hgr & Hum & Hnm & Hso & Hcp & Hlb & Hby) Hloc Hkf.
  unfold provisioned_file.
  assert (scratch_content e' opts = scratch_content e opts) as ->.
  { unfold scratch_content. rewrite Hso, Hcp.
    destruct (opts !! "text"); [reflexivity|].
    destruct (opts !! "keyCmd"); [reflexivity|].
    destruct (opts !! "keyFile") as [f|]; [|reflexivity].
    apply Hloc. congruence. }
  unfold published, resolves. rewrite Hpw, Hgr. reflexivity.
Qed.

Lemma well_formed_stable m e e' ko :
  same_static e e' ->
  (forall f, f <> scratch_of m -> local_files e' !! f = local_files e !! f) ->
  well_formed e m ko -> well_formed e' m ko.
Proof.
  intros Hst Hloc (Hk & Hd & Hsrc & HF & Hkf).
  split; [exact Hk|]. split; [exact Hd|]. split; [exact Hsrc|]. split; [|exact Hkf].
  rewrite (provisioned_file_stable m e e') by assumption. exact HF.
Qed.

(** A layout outlives a step that creates directories among [kd] only
    and changes files among [kp] only. *)
Lemma laid_out_step e e' (dirs paths kd kp : list string) :
  laid_out e dirs paths ->
  (forall q, q ∈ kd -> q ∈ dirs) -> (forall q, q ∈ kp -> q ∈ paths) ->
  (forall q, is_Some (remote_dirs e !! q) -> is_Some (remote_dirs e' !! q)) ->
  (forall q, q ∉ kd -> remote_dirs e' !! q = remote_dirs e !! q) ->
  (forall q, q ∉ kp -> remote_files e' !! q = remote_files e !! q) ->
  laid_out e' dirs paths.
Proof.
  intros [Hdirs Hpaths] Hkd Hkp Hmono Hds Hfs.
  rewrite Forall_forall in Hdirs, Hpaths. split; apply Forall_forall.
  - intros d Hd. destruct (Hdirs d Hd) as [Hex|[Hf Hp]].
    + left. apply Hmono, Hex.
    + right. split; [|apply Hmono, Hp].
      rewrite Hfs; [exact Hf|].
      intros Hin. destruct (Hpaths d (Hkp d Hin)) as [_ Hnot]. contradiction.
  - intros q Hq. destruct (Hpaths q Hq) as [Hnone Hnot]. split; [|exact Hnot].
    rewrite Hds; [exact Hnone|]. intros Hin. apply Hnot, Hkd, Hin.
Qed.

Lemma key_dirs_cons k opts ks :
  key_dirs ((k, opts) :: ks) = option_list (dest_dir opts) ++ key_dirs ks.
Proof. unfold key_dirs. cbn. destruct (dest_dir opts); reflexivity. Qed.

Lemma for_each_posix ks : forall m e tr dirs paths,
  link_budget e = None -> state m <> RESCUE -> resolves e "root" "keys" = true ->
  Sh.ordinary_mode (upload_mode e) = true ->
  Forall (well_formed e m) ks -> NoDup (key_paths ks) ->
  laid_out e dirs paths ->
  (forall q, q ∈ key_dirs ks -> q ∈ dirs) -> (forall q, q ∈ key_paths ks -> q ∈ paths) ->
  exists e' tr',
    for_each ks (fun '(k, opts) => send_key perform k opts) (mkCtx m e tr)
      = (inr tt, mkCtx m e' tr') /\
    same_static e e' /\
    (forall f, f <> scratch_of m -> local_files e' !! f = local_files e !! f) /\
    laid_out e' dirs paths /\
    (forall q, q ∉ key_paths ks -> remote_files e' !! q = remote_files e !! q) /\
    (forall k opts, (k, opts) ∈ ks ->
       exists o F, dest_path k opts = Some o /\ provisioned_file e opts = Some F /\
                   remote_files e' !! o = Some F) /\
    (forall k opts t, (k, opts) ∈ ks -> tmp_path k opts = Some t ->
       remote_files e' !! t = None) /\
    exists seen, history e' = history e ++ seen /\
      (forall q, q ∉ key_paths ks ->
         Forall (fun h => h !! q = remote_files e !! q) seen) /\
      (forall k opts o F, (k, opts) ∈ ks -> dest_path k opts = Some o ->
         provisioned_file e opts = Some F ->
         Forall (fun h => h !! o = remote_files e !! o \/ h !! o = None \/
                          h !! o = Some F) seen).
Proof.
  induction ks as [|[k opts] ks IH]; intros m e tr dirs paths Hlink Hrescue Hrk Hord Hwf
    Hnd Hlay Hindirs Hinpaths.
  - exists e, tr. cbn [for_each].
    split; [reflexivity|]. split; [by repeat split|].
    split; [auto|]. split; [exact Hlay|]. split; [auto|].
    split; [intros ? ? []%elem_of_nil|]. split; [intros ? ? ? []%elem_of_nil|].
    exists []. rewrite app_nil_r. split; [reflexivity|].
    split; [intros; constructor|intros ? ? ? ? []%elem_of_nil].
  - apply Forall_cons in Hwf as [(Hk & (d & Hd & Hpd) & Hsrc & HF & Hkf) Hwf].
    cbn [fst snd] in Hk, Hd, Hpd, Hsrc, HF, Hkf.
    pose proof Hd as Hd'. unfold dest_dir in Hd'.
    destruct (opts !! "destDir") as [dd|] eqn:Hdd; [|discriminate].
    injection Hd' as Hd'.
    destruct HF as [F HF].
    set (o := outfile_of d k).
    set (t := tmp_outfile_of d k).
    assert (dest_path k opts = Some o) as Hop.
    { unfold dest_path. rewrite Hd. reflexivity. }
    assert (tmp_path k opts = Some t) as Htp.
    { unfold tmp_path. rewrite Hd. reflexivity. }
    rewrite key_paths_cons, Hop, Htp in Hnd, Hinpaths. cbn [option_list app] in Hnd, Hinpaths.
    rewrite key_dirs_cons, Hd in Hindirs. cbn [option_list app] in Hindirs.
    apply NoDup_cons in Hnd as [Ho Hnd]. apply NoDup_cons in Hnd as [Ht Hnd].
    apply not_elem_of_cons in Ho as [Hot Ho].
    pose proof Hlay as [Hdirs Hpaths]. rewrite Forall_forall in Hdirs, Hpaths.
    assert (d ∈ dirs) as Hdin by (apply Hindirs; left).
    assert (o ∈ paths) as Hoin by (apply Hinpaths; left).
    assert (t ∈ paths) as Htin by (apply Hinpaths; right; left).
    destruct (Hpaths o Hoin) as [Hdo _]. destruct (Hpaths t Htin) as [Hdt _].
    subst d.
    destruct (send_key_posix m e tr k opts dd F Hlink Hrescue Hrk Hord Hk Hdd Hpd
                (Hdirs _ Hdin) Hdo Hdt HF Hkf)
      as (e1 & tr1 & c & Hrun & Hc & Hfs1 & Hloc1 & Hst1 & Hd1 & Hd1q & seen1 & Hh1
          & Hseen_o & Hseen_q).
    set (d := Py.rstrip "/" dd) in *. fold o t in Hfs1, Hseen_o, Hseen_q.
    assert (forall f, f <> scratch_of m -> local_files e1 !! f = local_files e !! f) as Hl1.
    { intros f Hf. rewrite Hloc1. lk. reflexivity. }
    assert (link_budget e1 = None) as Hlink1
      by (destruct Hst1 as (_&_&_&_&_&_&->&_); exact Hlink).
    assert (resolves e1 "root" "keys" = true) as Hrk1
      by (rewrite (same_static_resolves e e1) by exact Hst1; exact Hrk).
    assert (Sh.ordinary_mode (upload_mode e1) = true) as Hord1
      by (destruct Hst1 as (_&_&->&_); exact Hord).
    assert (Forall (well_formed e1 m) ks) as Hwf1.
    { eapply Forall_impl; [exact Hwf|]. intros ko. apply well_formed_stable; assumption. }
    assert (forall q, q <> o -> q <> t -> remote_files e1 !! q = remote_files e !! q) as Hfs1q.
    { intros q Hqo Hqt. rewrite Hfs1. lk. reflexivity. }
    assert (laid_out e1 dirs paths) as Hlay1.
    { apply (laid_out_step e e1 dirs paths [d] [o; t] Hlay).
      - intros q ->%list_elem_of_singleton. exact Hdin.
      - intros q Hq. apply Hinpaths.
        apply elem_of_cons in Hq as [->|Hq]; [left|].
        apply list_elem_of_singleton in Hq as ->. right. left.
      - intros q Hq. destruct (decide (q = d)) as [->|Hne]; [exact Hd1|].
        rewrite Hd1q by exact Hne. exact Hq.
      - intros q Hq. apply Hd1q. intros ->. apply Hq. left.
      - intros q Hq. apply Hfs1q; intros ->; apply Hq; [left|right; left]. }
    destruct (IH m e1 tr1 dirs paths Hlink1 Hrescue Hrk1 Hord1 Hwf1 Hnd Hlay1)
      as (e' & tr' & Hloop & Hst & Hl & Hlay' & Hfs & Hdest & Htmp & seen & Hh & Hs_q & Hs_o).
    { intros q Hq. apply Hindirs. right. exact Hq. }
    { intros q Hq. apply Hinpaths. right. right. exact Hq. }
    assert (remote_files e1 !! o = Some F) as Hfs1o by (rewrite Hfs1; apply lookup_insert_eq).
    assert (remote_files e1 !! t = None) as Hfs1t.
    { rewrite Hfs1. rewrite lookup_insert_ne by congruence. apply lookup_delete_eq. }
    exists e', tr'. cbn [for_each].
    erewrite bind_ok by exact Hrun.
    split; [exact Hloop|].
    split; [eapply same_static_trans; eassumption|].
    split; [intros f Hf; rewrite Hl by exact Hf; apply Hl1; exact Hf|].
    split; [exact Hlay'|].
    rewrite key_paths_cons, Hop, Htp. cbn [option_list app].
    split.
    { intros q Hq. apply not_elem_of_cons in Hq as [Hqo Hq].
      apply not_elem_of_cons in Hq as [Hqt Hq].
      rewrite Hfs by exact Hq. apply Hfs1q; assumption. }
    split.
    { intros k0 opts0 [[= -> ->]|Hin]%elem_of_cons.
      - exists o, F. split; [exact Hop|]. split; [exact HF|].
        rewrite Hfs by exact Ho. exact Hfs1o.
      - destruct (Hdest k0 opts0 Hin) as (o0 & F0 & Ho0 & HF0 & Hlook).
        exists o0, F0. split; [exact Ho0|]. split; [|exact Hlook].
        rewrite <- HF0. symmetry. apply (provisioned_file_stable m); try assumption.
        apply (proj1 (Forall_forall _ _) Hwf (k0, opts0) Hin). }
    split.
    { intros k0 opts0 t0 [[= -> ->]|Hin]%elem_of_cons Ht0.
      - assert (t0 = t) as -> by congruence.
        rewrite Hfs by exact Ht. exact Hfs1t.
      - eapply Htmp; eassumption. }
    exists (seen1 ++ seen). rewrite Hh, Hh1, app_assoc. split; [reflexivity|].
    split.
    { intros q Hq. apply not_elem_of_cons in Hq as [Hqo Hq].
      apply not_elem_of_cons in Hq as [Hqt Hq].
      apply Forall_app. split; [apply Hseen_q; assumption|].
      eapply Forall_impl; [apply (Hs_q q Hq)|].
      intros h Hh0. cbn in Hh0. rewrite Hh0. apply Hfs1q; assumption. }
    intros k0 opts0 o0 F0 [[= -> ->]|Hin]%elem_of_cons Ho0 HF0.
    + assert (o0 = o) as -> by congruence. assert (F0 = F) as -> by congruence.
      apply Forall_app. split.
      * eapply Forall_impl; [exact Hseen_o|]. intros h [?|?]; auto.
      * eapply Forall_impl; [apply (Hs_q o Ho)|].
        intros h Hh0. cbn in Hh0. right. right. rewrite Hh0. exact Hfs1o.
    + pose proof (dest_path_in_key_paths _ _ _ _ Hin Ho0) as Hin0.
      assert (o0 <> o) as Hne1 by (intros ->; contradiction).
      assert (o0 <> t) as Hne2 by (intros ->; contradiction).
      apply Forall_app. split.
      * eapply Forall_impl; [apply (Hseen_q o0 Hne1 Hne2)|]. intros h Hh0. by left.
      * assert (provisioned_file e1 opts0 = Some F0) as HF1.
        { rewrite <- HF0. apply (provisioned_file_stable m); try assumption.
          apply (proj1 (Forall_forall _ _) Hwf (k0, opts0) Hin). }
        eapply Forall_impl; [apply (Hs_o k0 opts0 o0 F0 Hin Ho0 HF1)|].
        intros h Hh0. cbn in Hh0. rewrite Hfs1q in Hh0 by assumption. exact Hh0.
Qed.

(** ** The readiness marker *)

Lemma touch_lookup_ne path um fs q : q <> path -> touch path um fs !! q = fs !! q.
Proof.
  intros Hq. unfold touch. destruct (fs !! path); [reflexivity|].
  apply lookup_insert_ne. congruence.
Qed.

Lemma touch_lookup_Some path um fs q x : fs !! q = Some x -> touch path um fs !! q = Some x.
Proof.
  intros Hq. unfold touch. destruct (fs !! path) eqn:Hp; [exact Hq|].
  rewrite lookup_insert_ne by congruence. exact Hq.
Qed.

Lemma touch_is_Some path um fs : is_Some (touch path um fs !! path).
Proof.
  unfold touch. destruct (fs !! path) eqn:Hp; [rewrite Hp; eauto|].
  rewrite lookup_insert_eq. eauto.
Qed.

Lemma touch_id path um fs : is_Some (fs !! path) -> touch path um fs = fs.
Proof. intros [x Hx]. unfold touch. rewrite Hx. reflexivity. Qed.

Lemma not_tmp_suffix x : x +:+ ".tmp" <> "/run/keys/done".
Proof.
  intros H.
  assert (String.length x = 10) as Hlen.
  { apply (f_equal String.length) in H. rewrite length_append in H. cbn in H. lia. }
  do 10 (destruct x as [|? x]; [discriminate Hlen|]).
  destruct x; [|discriminate Hlen].
  rewrite !append_cons, append_nil_l in H. discriminate H.
Qed.

Lemma tmp_path_not_done k opts t : tmp_path k opts = Some t -> t <> "/run/keys/done".
Proof.
  unfold tmp_path, dest_dir. destruct (opts !! "destDir") as [d|]; [|discriminate].
  intros [= <-]. unfold tmp_outfile_of.
  rewrite <- !append_assoc. apply not_tmp_suffix.
Qed.

Lemma key_paths_inv ks q :
  q ∈ key_paths ks ->
  exists k opts, (k, opts) ∈ ks /\ (dest_path k opts = Some q \/ tmp_path k opts = Some q).
Proof.
  unfold key_paths. intros ([k opts] & Hq & Hin)%list_elem_of_bind.
  exists k, opts. split; [exact Hin|].
  apply elem_of_app in Hq as [Hq|Hq].
  - left. destruct (dest_path k opts); cbn in Hq.
    + apply list_elem_of_singleton in Hq as ->. reflexivity.
    + by apply elem_of_nil in Hq.
  - right. destruct (tmp_path k opts); cbn in Hq.
    + apply list_elem_of_singleton in Hq as ->. reflexivity.
    + by apply elem_of_nil in Hq.
Qed.

(** A whole run of [send_keys] over well-formed keys with pairwise
    distinct paths, on a machine laid out for them. *)
Lemma send_keys_posix m e tr :
  state m <> RESCUE -> store_keys_on_machine m = false ->
  link_budget e = None -> "root" ∈ passwd e -> "keys" ∈ groups e ->
  Sh.ordinary_mode (upload_mode e) = true ->
  Forall (well_formed e m) (keys m) -> NoDup (key_paths (keys m)) ->
  staged e (keys m) ->
  exists e' tr' fs,
    send_keys perform (mkCtx m e tr) = (inr tt, mkCtx m e' tr') /\
    same_static e e' /\
    (forall f, f <> scratch_of m -> local_files e' !! f = local_files e !! f) /\
    staged e' (keys m) /\
    remote_files e' = touch "/run/keys/done" (new_file_mode e) fs /\
    (forall q, q ∉ key_paths (keys m) -> fs !! q = remote_files e !! q) /\
    (forall k opts, (k, opts) ∈ keys m ->
       exists o F, dest_path k opts = Some o /\ provisioned_file e opts = Some F /\
                   fs !! o = Some F) /\
    (forall k opts t, (k, opts) ∈ keys m -> tmp_path k opts = Some t -> fs !! t = None) /\
    exists seen, history e' = history e ++ seen ++ [remote_files e'] /\
      (forall k opts o F, (k, opts) ∈ keys m -> dest_path k opts = Some o ->
         provisioned_file e opts = Some F ->
         Forall (fun h => h !! o = remote_files e !! o \/ h !! o = None \/
                          h !! o = Some F) seen).
Proof.
  intros Hst Hsk Hlink Hroot Hkeys Hord Hwf Hnd Hlay.
  assert (resolves e "root" "keys" = true) as Hrk by (apply resolves_spec; auto).
  destruct (for_each_posix (keys m) m e tr _ _ Hlink Hst Hrk Hord Hwf Hnd Hlay)
    as (e1 & tr1 & Hloop & Hst1 & Hl1 & Hlay1 & Hfs & Hdest & Htmp & seen & Hh & _ & Hs_o).
  { intros q Hq. apply elem_of_app. left. exact Hq. }
  { intros q Hq. apply elem_of_app. left. exact Hq. }
  assert (link_budget e1 = None) as Hlink1
    by (destruct Hst1 as (_&_&_&_&_&_&->&_); exact Hlink).
  assert (resolves e1 "root" "keys" = true) as Hrk1
    by (rewrite (same_static_resolves e e1) by exact Hst1; exact Hrk).
  assert (new_file_mode e1 = new_file_mode e) as Hum by (destruct Hst1 as (_&_&_&->&_); reflexivity).
  pose proof Hlay1 as [Hdirs1 Hpaths1]. rewrite Forall_forall in Hdirs1, Hpaths1.
  assert (dir_ready e1 "/run/keys") as Hready.
  { apply Hdirs1, elem_of_app. right. left. }
  assert (remote_dirs e1 !! "/run/keys/done" = None) as Hdone1.
  { apply Hpaths1, elem_of_app. right. left. }
  destruct (keys_done_posix e1 Hready Hrk1 Hdone1) as (ds' & Hdone & (x & Hx & _) & Hds'q).
  eexists _, _, (remote_files e1). split.
  { unfold send_keys. erewrite bind_ok by reflexivity. cbn [self].
    rewrite bool_decide_eq_false_2 by exact Hst. rewrite Hsk.
    unfold get_keys. erewrite bind_ok by reflexivity. cbn [self].
    erewrite bind_ok by exact Hloop.
    erewrite bind_ok by (apply run_command_posix; [exact Hlink1|exact Hst|exact Hdone]).
    reflexivity. }
  cbn [remote_files local_files history with_remote]. rewrite Hum.
  split; [exact Hst1|]. split; [exact Hl1|].
  split.
  { apply (laid_out_step e1 _ _ _ ["/run/keys"] ["/run/keys/done"] Hlay1).
    - intros q ->%list_elem_of_singleton. apply elem_of_app. right. left.
    - intros q ->%list_elem_of_singleton. apply elem_of_app. right. left.
    - intros q Hq. cbn [remote_dirs with_remote].
      destruct (decide (q = "/run/keys")) as [->|Hne]; [rewrite Hx; eauto|].
      rewrite Hds'q by exact Hne. exact Hq.
    - intros q Hq. cbn [remote_dirs with_remote]. apply Hds'q. intros ->. apply Hq. left.
    - intros q Hq. cbn [remote_files with_remote]. apply touch_lookup_ne.
      intros ->. apply Hq. left. }
  split; [reflexivity|].
  split; [exact Hfs|]. split; [exact Hdest|]. split; [exact Htmp|].
  exists seen. rewrite Hh, <- app_assoc. split; [reflexivity|exact Hs_o].
Qed.

(** Claim C2, as amended.  For well-formed secrets with pairwise
    distinct paths on a working connection to a machine laid out for
    them, running [send_keys] twice succeeds twice and leaves the remote
    files exactly as the first run left them, so the content, owner and
    mode of every destination are identical.  During the second run,
    every state a concurrent reader can observe shows, at each
    destination, either the complete published file or no file; never a
    truncated one. *)
Theorem send_keys_reprovision m e :
  state m <> RESCUE -> store_keys_on_machine m = false ->
  link_budget e = None -> "root" ∈ passwd e -> "keys" ∈ groups e ->
  Sh.ordinary_mode (upload_mode e) = true ->
  Forall (well_formed e m) (keys m) -> NoDup (key_paths (keys m)) ->
  staged e (keys m) ->
  exists s1 s2,
    exec (send_keys perform) m e = (inr tt, s1) /\
    exec (send_keys perform) m (world s1) = (inr tt, s2) /\
    remote_files (world s2) = remote_files (world s1) /\
    forall k opts, (k, opts) ∈ keys m ->
      exists o F,
        dest_path k opts = Some o /\ remote_files (world s1) !! o = Some F /\
        provisioned_file e opts = Some F /\
        Forall (fun h => h !! o = Some F \/ h !! o = None)
          (seen_since (length (history (world s1))) (world s2)).
Proof.
  intros Hst Hsk Hlink Hroot Hkeys Hord Hwf Hnd Hlay. unfold exec.
  destruct (send_keys_posix m e [] Hst Hsk Hlink Hroot Hkeys Hord Hwf Hnd Hlay)
    as (e1 & tr1 & fs1 & Hrun1 & Hst1 & Hl1 & Hlay1 & Hfs1 & Hq1 & Hdest1 & Htmp1 & _).
  assert (link_budget e1 = None) as Hlink1
    by (destruct Hst1 as (_&_&_&_&_&_&->&_); exact Hlink).
  assert ("root" ∈ passwd e1) as Hroot1 by (destruct Hst1 as (->&_); exact Hroot).
  assert ("keys" ∈ groups e1) as Hkeys1 by (destruct Hst1 as (_&->&_); exact Hkeys).
  assert (new_file_mode e1 = new_file_mode e) as Hum
    by (destruct Hst1 as (_&_&_&->&_); reflexivity).
  assert (Sh.ordinary_mode (upload_mode e1) = true) as Hord1
    by (destruct Hst1 as (_&_&->&_); exact Hord).
  assert (Forall (well_formed e1 m) (keys m)) as Hwf1.
  { eapply Forall_impl; [exact Hwf|]. intros ko. apply well_formed_stable; assumption. }
  assert (forall k opts, (k, opts) ∈ keys m ->
            provisioned_file e1 opts = provisioned_file e opts) as Hprov.
  { intros k opts Hin. apply (provisioned_file_stable m); try assumption.
    apply (proj1 (Forall_forall _ _) Hwf (k, opts) Hin). }
  destruct (send_keys_posix m e1 [] Hst Hsk Hlink1 Hroot1 Hkeys1 Hord1 Hwf1 Hnd Hlay1)
    as (e2 & tr2 & fs2 & Hrun2 & Hst2 & Hl2 & _ & Hfs2 & Hq2 & Hdest2 & Htmp2 & seen & Hh2
        & Hs_o).
  rewrite Hum in Hfs2.
  assert (remote_files e2 = remote_files e1) as Heq.
  { apply map_eq. intros q. rewrite Hfs2.
    destruct (decide (q ∈ key_paths (keys m))) as [Hin|Hout].
    - apply key_paths_inv in Hin as (k & opts & Hin & [Ho|Ht]).
      + destruct (Hdest1 k opts Hin) as (o1 & F1 & Ho1 & HF1 & Hlook1).
        destruct (Hdest2 k opts Hin) as (o2 & F2 & Ho2 & HF2 & Hlook2).
        rewrite (Hprov k opts Hin) in HF2.
        assert (o1 = q) as -> by congruence. assert (o2 = q) as -> by congruence.
        assert (F2 = F1) as -> by congruence.
        rewrite (touch_lookup_Some _ _ _ _ _ Hlook2).
        rewrite Hfs1, (touch_lookup_Some _ _ _ _ _ Hlook1). reflexivity.
      + pose proof (tmp_path_not_done _ _ _ Ht) as Hnd0.
        rewrite touch_lookup_ne by exact Hnd0.
        rewrite Hfs1, touch_lookup_ne by exact Hnd0.
        rewrite (Htmp1 _ _ _ Hin Ht), (Htmp2 _ _ _ Hin Ht). reflexivity.
    - destruct (decide (q = "/run/keys/done")) as [->|Hnd0].
      + rewrite touch_id; [apply Hq2; exact Hout|].
        rewrite Hq2 by exact Hout. rewrite Hfs1. apply touch_is_Some.
      + rewrite touch_lookup_ne by exact Hnd0. apply Hq2. exact Hout. }
  exists (mkCtx m e1 tr1), (mkCtx m e2 tr2). cbn [world].
  split; [exact Hrun1|]. split; [exact Hrun2|]. split; [exact Heq|].
  intros k opts Hin.
  destruct (Hdest1 k opts Hin) as (o & F & Ho & HF & Hlook).
  assert (remote_files e1 !! o = Some F) as Hlook1.
  { rewrite Hfs1. apply (touch_lookup_Some _ _ _ _ _ Hlook). }
  exists o, F. split; [exact Ho|]. split; [exact Hlook1|]. split; [exact HF|].
  unfold seen_since. rewrite Hh2, drop_app_length.
  apply Forall_app. split.
  - rewrite <- (Hprov k opts Hin) in HF.
    eapply Forall_impl; [apply (Hs_o k opts o F Hin Ho HF)|].
    intros h Hh0. cbn in Hh0. rewrite Hlook1 in Hh0. tauto.
  - constructor; [|constructor]. left. rewrite Heq. exact Hlook1.
Qed.

End PosixFacts.

(** * The theorems at work on the sample machines *)

Section Instances.
Import Sample Posix.

Ltac decide_by_vm :=
  match goal with
  | |- ?P => apply (@bool_decide_unpack P _); vm_compute; exact I
  end.

Ltac sample_key :=
  split; [reflexivity|];
  split; [eexists; split; reflexivity|];
  split; [intros H; first [exfalso; vm_compute in H; discriminate H|vm_compute; reflexivity]|];
  split; [eexists; vm_compute; reflexivity|];
  vm_compute; discriminate.

Ltac sample_dir :=
  first [ left; vm_compute; eexists; reflexivity
        | right; split; [vm_compute; reflexivity|vm_compute; eexists; reflexivity] ].

Ltac sample_layout :=
  split; repeat (apply Forall_cons; split); try (by apply Forall_nil);
  first [ sample_dir | split; [vm_compute; reflexivity|decide_by_vm] ].

(** C9 on a machine in rescue state. *)
Lemma send_keys_noop_witness :
  let s := start (machine RESCUE false [("db", text_opts)]) host in
  (state (self s) = RESCUE \/ store_keys_on_machine (self s) = true) /\
  send_keys perform s = (inr tt, s).
Proof.
  split; [left; reflexivity|].
  apply (send_keys_noop perform). left. reflexivity.
Defined.

(** C4 on a machine that was never reached. *)
Lemma wait_for_ssh_reachable_witness :
  let s := start fresh_machine host in
  let s' := (wait_for_ssh perform true s).2 in
  wait_for_ssh perform true s = (inr tt, s') /\
  ssh_pinged (self s') = true /\ state (self s') = UP.
Proof.
  intros s s'. split; [reflexivity|].
  pose proof (wait_for_ssh_reachable perform true s s' eq_refl) as [H1 H2].
  split; [exact H1|]. cbn in H2. exact (proj1 H2).
Defined.

(** C4 as stated fails: a machine the health check found unreachable
    keeps that state through a successful [wait_for_ssh]. *)
Lemma wait_for_ssh_stale_counterexample :
  let s0 := start (machine UP false []) offline in
  let s1 := (check perform s0).2 in
  state (self s1) = UNREACHABLE /\ ssh_pinged (self s1) = true /\
  wait_for_ssh perform false s1 = (inr tt, s1) /\
  state (self s1) <> UP /\ state (self s1) <> RESCUE.
Proof. vm_compute. repeat split; discriminate. Qed.

(** C10 on a machine with one inline secret. *)
Lemma send_keys_done_marker_witness :
  let s := start one_key host in
  let loop := for_each (keys (self s)) (fun '(k, opts) => send_key perform k opts) s in
  state (self s) <> RESCUE /\ store_keys_on_machine (self s) = false /\
  loop.1 = inr tt /\ (send_keys perform s).1 = inr tt /\
  (exists res, trace (send_keys perform s).2
                 = trace loop.2 ++ [(SshRun false KeysDone, res)]) /\
  exists t out, trace (send_keys perform s).2 = t ++ [(SshRun false KeysDone, inr out)].
Proof.
  intros s loop.
  assert (loop.1 = inr tt) as Hloop by (vm_compute; reflexivity).
  assert ((send_keys perform s).1 = inr tt) as Hrun by (vm_compute; reflexivity).
  split; [discriminate|]. split; [reflexivity|].
  split; [exact Hloop|]. split; [exact Hrun|].
  destruct (send_keys_done_marker perform s) as (_ & _ & H3 & H4);
    [discriminate|reflexivity|].
  split; [exact (H3 Hloop)|exact (H4 Hrun)].
Defined.

(** C10 as stated fails: past the guards, a secret without [destDir]
    ends the call before the readiness command. *)
Lemma send_keys_done_marker_counterexample :
  let s := start (machine UP false [("db", no_destdir_opts)]) host in
  let run := send_keys perform s in
  state (self s) <> RESCUE /\ store_keys_on_machine (self s) = false /\
  run.1 = inl (Exception "Key 'db' has no 'destDir' specified.") /\
  trace run.2 = [(Log "uploading key ‘db’...", inr EmptyString)] /\
  remote_files (world run.2) !! "/run/keys/done" = None.
Proof. vm_compute. repeat split; discriminate. Qed.

(** C3 on a secret without [destDir] and on one without source. *)
Lemma send_key_configuration_errors_witness :
  let s := start (machine UP false []) host in
  no_destdir_opts !! "destDir" = None /\
  (send_key perform "db" no_destdir_opts s).1
    = inl (Exception "Key 'db' has no 'destDir' specified.") /\
  no_source_opts !! "destDir" = Some "/run/keys/" /\
  no_source_opts !! "text" = None /\ no_source_opts !! "keyCmd" = None /\
  no_source_opts !! "keyFile" = None /\
  exists e s', send_key perform "db" no_source_opts s = (inl e, s').
Proof.
  intros s.
  destruct (send_key_configuration_errors perform "db" no_destdir_opts s) as [H1 _].
  destruct (send_key_configuration_errors perform "db" no_source_opts s) as [_ H2].
  split; [reflexivity|]. split; [rewrite H1; reflexivity|].
  split; [reflexivity|]. split; [reflexivity|]. split; [reflexivity|].
  split; [reflexivity|].
  destruct (H2 "/run/keys/" eq_refl eq_refl eq_refl eq_refl) as (e & He & _).
  eauto.
Defined.

(** C3 as stated fails: the secret has no source, yet the destination
    directory was created on the machine before the error. *)
Lemma missing_source_counterexample :
  let s := start (machine UP false [("db", no_source_opts)]) host in
  let run := send_keys perform s in
  run.1 = inl (Exception "Neither 'text' or 'keyFile' options were set for key 'db'.") /\
  trace run.2 = [(Log "uploading key ‘db’...", inr EmptyString);
                 (SshRun false (EnsureDir "/run/keys"), inr EmptyString)] /\
  remote_dirs (world s) !! "/run/keys" = None /\
  remote_dirs (world run.2) !! "/run/keys" = Some (mkDir "root" "keys" "0750").
Proof. vm_compute. repeat split. Qed.



(** C2 on a machine with two inline secrets. *)
Lemma send_keys_reprovision_witness :
  state two_keys <> RESCUE /\ store_keys_on_machine two_keys = false /\
  link_budget host = None /\ "root" ∈ passwd host /\ "keys" ∈ groups host /\
  Sh.ordinary_mode (upload_mode host) = true /\
  Forall (well_formed host two_keys) (keys two_keys) /\
  NoDup (key_paths (keys two_keys)) /\ staged host (keys two_keys) /\
  exists s1 s2,
    exec (send_keys perform) two_keys host = (inr tt, s1) /\
    exec (send_keys perform) two_keys (world s1) = (inr tt, s2) /\
    remote_files (world s2) = remote_files (world s1).
Proof.
  assert ("root" ∈ passwd host) as Hr by decide_by_vm.
  assert ("keys" ∈ groups host) as Hk by decide_by_vm.
  assert (Forall (well_formed host two_keys) (keys two_keys)) as Hwf.
  { repeat (apply Forall_cons; split); [sample_key|sample_key|by apply Forall_nil]. }
  assert (NoDup (key_paths (keys two_keys))) as Hnd by decide_by_vm.
  assert (staged host (keys two_keys)) as Hlay by sample_layout.
  split; [discriminate|]. split; [reflexivity|]. split; [reflexivity|].
  split; [exact Hr|]. split; [exact Hk|]. split; [reflexivity|]. split; [exact Hwf|].
  split; [exact Hnd|]. split; [exact Hlay|].
  destruct (send_keys_reprovision two_keys host) as (s1 & s2 & H1 & H2 & H3 & _);
    [discriminate|reflexivity|reflexivity|exact Hr|exact Hk|reflexivity|exact Hwf|exact Hnd
    |exact Hlay|].
  eauto.
Defined.

(** C2 as stated fails: during a second run with unchanged secrets a
    reader finds the destination absent. *)
Lemma reprovision_absent_counterexample :
  let s1 := (exec (send_keys perform) one_key host).2 in
  let s2 := (exec (send_keys perform) one_key (world s1)).2 in
  let published := Some (mkFile "s3cr3t" "alice" "keys" "0640") in
  remote_files (world s1) !! "/run/keys/db" = published /\
  remote_files (world s2) !! "/run/keys/db" = published /\
  exists h, seen_since (length (history (world s1))) (world s2) !! 0 = Some h /\
            h !! "/run/keys/db" = None.
Proof.
  split; [vm_compute; reflexivity|]. split; [vm_compute; reflexivity|].
  eexists. split; vm_compute; reflexivity.
Qed.

(** Claim C1, at the failing input.  Two secrets of one directory are
    named [.db.tmp] and [db]: the final path of the first is the
    temporary path of the second.  [send_keys] returns normally.  The
    first secret is published; then, for the second, the upload goes
    straight to that path, where a reader finds a prefix of the content
    of [db], owned by the uploading identity with the mode of the
    upload; and after the rename the secret [.db.tmp] is not on the
    machine at all. *)
Theorem send_keys_shadowed_publication :
  let s := start Lab.shadowed host in
  let run := send_keys perform s in
  let final := outfile_of "/run/keys" ".db.tmp" in
  final = tmp_outfile_of "/run/keys" "db" /\
  run.1 = inr tt /\
  (Scp "/tmp/nixops/key-web" final, inr EmptyString) ∈ trace run.2 /\
  Exists (fun h => h !! final = Some (mkFile "s3cr3t" "alice" "keys" "0640"))
    (history (world run.2)) /\
  Exists (fun h => h !! final = Some (mkFile "hun" "root" "root" "0600"))
    (history (world run.2)) /\
  remote_files (world run.2) !! final = None /\
  remote_files (world run.2) !! outfile_of "/run/keys" "db"
    = Some (mkFile "hunter2" "root" "root" "0640").
Proof.
  split; [reflexivity|]. split; [vm_compute; reflexivity|].
  split; [decide_by_vm|]. split; [decide_by_vm|]. split; [decide_by_vm|].
  split; vm_compute; reflexivity.
Qed.

(** A single quote in [destDir] closes the quotes the directory is
    put between: the shell refuses the first command line as a whole,
    the call raises and nothing is created. *)
Example send_keys_quote_in_destdir :
  let m := machine UP false [("db", <["destDir" := "/run/keys/it's"]> text_opts)] in
  let run := exec (send_keys perform) m host in
  Sh.read (command_string (EnsureDir "/run/keys/it's")) = Sh.Refused /\
  run.1 = inl SSHCommandFailed /\
  trace run.2 = [(Log "uploading key ‘db’...", inr EmptyString);
                 (SshRun false (EnsureDir "/run/keys/it's"), inl SSHCommandFailed)] /\
  remote_files (world run.2) = remote_files host /\
  remote_dirs (world run.2) = remote_dirs host.
Proof. vm_compute. repeat split. Qed.

(** Claim C8, at the failing input.  With a command source whose
    process has written nothing yet when the parent goes on, [send_keys]
    starts the command, does not wait for it, uploads the empty scratch
    file and returns normally: the published secret is empty although the
    command prints [hunter2]. *)
Theorem send_keys_command_not_awaited :
  let s := start (machine UP false [("db", cmd_opts)]) host in
  let run := send_keys perform s in
  shell_stdout host "pass show db" = "hunter2" /\
  run.1 = inr tt /\
  (Popen "pass show db" "/tmp/nixops/key-web", inr EmptyString) ∈ trace run.2 /\
  remote_files (world run.2) !! "/run/keys/db"
    = Some (mkFile EmptyString "alice" "keys" "0640").
Proof.
  split; [reflexivity|]. split; [vm_compute; reflexivity|].
  split; [|vm_compute; reflexivity].
  vm_compute. repeat constructor.
Qed.

(** X29 on a sample listing. *)
Lemma check_lines_classification_witness :
  let s := start (machine UP false []) host in
  exists res',
    (check_lines perform (Py.split "010" listing) (fresh_units CheckResult_init) s).1
      = inr res' /\
    "foo.service" ∈ failed_of res' /\ "baz.service" ∈ in_progress_of res' /\
    "bar.mount" ∈ failed_of res' /\ ("sys-kernel-config.mount" ∉ failed_of res') /\
    "dev-hugepages.mount" ∈ failed_of res' /\
    exists a b, listing_line "dev-hugepages.mount" a "failed" b ∈ Py.split "010" listing.
Proof.
  intros s.
  destruct (check_lines_classification perform listing CheckResult_init s)
    as (res' & s' & Hrun & Hf & Ha & Hi & Hsys).
  exists res'. split; [rewrite Hrun; reflexivity|].
  split.
  { apply (Hf "foo.service" "loaded" "failed Foo daemon").
    - split; [discriminate|reflexivity].
    - vm_compute. repeat constructor. }
  split.
  { apply (Ha "baz.service" "loaded" "start Baz daemon").
    - split; [discriminate|reflexivity].
    - vm_compute. repeat constructor. }
  split.
  { apply (Hi "bar" "loaded" "dead /bar").
    - split; [discriminate|reflexivity].
    - vm_compute. repeat constructor.
    - reflexivity.
    - reflexivity.
    - discriminate. }
  assert ("dev-hugepages.mount" ∈ failed_of res') as Hdev.
  { apply (Hf "dev-hugepages.mount" "loaded" "failed Huge Pages File System").
    - split; [discriminate|reflexivity].
    - vm_compute. repeat constructor. }
  split.
  { vm_compute in Hrun. injection Hrun as <- _. vm_compute. intros Hin.
    repeat (apply elem_of_cons in Hin as [Hin|Hin]; [discriminate Hin|]).
    by apply elem_of_nil in Hin. }
  split; [exact Hdev|].
  apply (Hsys "dev-hugepages.mount"); [right; reflexivity|exact Hdev].
Defined.

(** Claim C6, at the failing input.  The listing shows the mount unit
    [mnt-a.b.mount] inactive; its name starts with neither [sys-] nor
    [dev-] and is not [tmp.mount], so the rule for failed mounts is meant
    to report it.  The pattern of that rule takes no dot before
    [.mount], the line does not match, and the health check returns
    with the unit in no list. *)
Theorem check_dotted_mount_unreported :
  let s := start (machine UP false []) host in
  let dotted := listing_line "mnt-a.b.mount" "loaded" "inactive" "dead /mnt/a.b" in
  Py.startswith "mnt-a.b.mount" "sys-" = false /\
  Py.startswith "mnt-a.b.mount" "dev-" = false /\
  "mnt-a.b.mount" <> "tmp.mount" /\
  Re.re_match Re.inactive_mount_re dotted = None /\
  exists res',
    (check_lines perform [dotted] (fresh_units CheckResult_init) s).1 = inr res' /\
    ("mnt-a.b.mount" ∉ failed_of res') /\ failed_of res' = [] /\ in_progress_of res' = [].
Proof.
  split; [reflexivity|]. split; [reflexivity|]. split; [discriminate|].
  split; [vm_compute; reflexivity|].
  eexists. split; [vm_compute; reflexivity|].
  split; [|split; vm_compute; reflexivity].
  vm_compute. intros []%elem_of_nil.
Qed.

(** The failed marker reports a unit whatever its name. *)
Example check_units_marker_wins :
  let s := start (machine UP false []) host in
  let marked := listing_line "sys-kernel-config.mount" "loaded" "inactive" "failed again" in
  exists res',
    (check_lines perform [marked] (fresh_units CheckResult_init) s).1 = inr res' /\
    "sys-kernel-config.mount" ∈ failed_of res'.
Proof.
  eexists. split; [vm_compute; reflexivity|]. vm_compute. repeat constructor.
Qed.

(** C7 on a host where the probe of [/etc/fstab] fails. *)
Lemma check_line_tmp_mount_witness :
  let s := start (machine UP false []) host in
  let l := listing_line "tmp.mount" "loaded" "inactive" "dead Temporary Directory" in
  Py.contains "010" "loaded" = false /\
  Py.contains "010" "dead Temporary Directory" = false /\
  (perform (SshRun false FstabProbe) host).1 = inl SSHCommandFailed /\
  exists res',
    (check_line perform l (fresh_units CheckResult_init) s).1 = inr res' /\
    failed_of res' = [].
Proof.
  intros s l.
  split; [reflexivity|]. split; [reflexivity|]. split; [reflexivity|].
  destruct (check_line_tmp_mount perform "loaded" "dead Temporary Directory"
              (fresh_units CheckResult_init) s eq_refl eq_refl)
    as (res' & Hrun & Hf).
  exists res'. subst l. split; [rewrite Hrun; reflexivity|].
  rewrite Hf. vm_compute. reflexivity.
Defined.

End Instances.

(** * Further facts about the key upload *)

Module SlashFacts.
Import StrFacts.

Lemma rstrip_snoc c s : Py.rstrip c (s +:+ String c EmptyString) = Py.rstrip c s.
Proof.
  induction s as [|a s IH].
  - rewrite append_nil_l. cbn [Py.rstrip]. rewrite Ascii.eqb_refl. reflexivity.
  - rewrite append_cons. cbn [Py.rstrip]. rewrite IH. reflexivity.
Qed.

Lemma repeat_char_snoc c n : repeat_char c (S n) = repeat_char c n +:+ String c EmptyString.
Proof.
  induction n as [|n IH]; [reflexivity|].
  change (String c (repeat_char c (S n)) =
          String c (repeat_char c n) +:+ String c EmptyString).
  rewrite append_cons, <- IH. reflexivity.
Qed.

Lemma rstrip_repeat c s n : Py.rstrip c (s +:+ repeat_char c n) = Py.rstrip c s.
Proof.
  induction n as [|n IH].
  - cbn. rewrite append_nil_r. reflexivity.
  - rewrite repeat_char_snoc, <- append_assoc, rstrip_snoc. exact IH.
Qed.

End SlashFacts.

Section KeyEventFacts.
Import StrFacts SlashFacts.
Context {World : Type} (perform : action -> World -> (exn + string) * World).

Ltac unfold_M :=
  repeat progress unfold send_key, write_scratch, run_command, upload_file, _logged_exec,
    getitem, get_keys, log, call, get_self, modify_self, raise, ret, mret, mbind,
    M_ret, M_bind in *.

Ltac inv_elem H :=
  repeat (apply elem_of_cons in H as [H|H]; [try discriminate H|]);
  try (apply elem_of_nil in H; destruct H).

(** Every event of one iteration of the loop is one the key commands. *)
Lemma send_key_events k opts (s : ctx World) :
  exists seg,
    trace (send_key perform k opts s).2 = trace s ++ seg /\
    Forall (key_event (self s) k opts) seg.
Proof.
  destruct (send_key perform k opts s) as [r s'] eqn:H.
  unfold_M. cbn in H.
  repeat (case_match; simplify_eq/=); rewrite <- ?app_assoc; cbn;
    (eexists; split; [reflexivity|]).
  all: repeat (apply Forall_cons; split); try apply Forall_nil.
  all: unfold key_event; cbn; eauto 10.
Qed.

(** The loop: every event belongs to one of the keys. *)
Lemma for_each_key_events ks (s : ctx World) :
  let run := for_each ks (fun '(k, opts) => send_key perform k opts) s in
  exists seg,
    trace run.2 = trace s ++ seg /\
    Forall (fun ev => exists k opts, (k, opts) ∈ ks /\ key_event (self s) k opts ev) seg.
Proof.
  revert s. induction ks as [|[k opts] ks IH]; intros s; cbn [for_each].
  - exists []. cbn. rewrite app_nil_r. auto.
  - pose proof (send_key_self perform k opts s) as Hself.
    destruct (send_key_events k opts s) as (seg & Htr & Hseg).
    assert (Forall (fun ev => exists k0 opts0, (k0, opts0) ∈ (k, opts) :: ks /\
                       key_event (self s) k0 opts0 ev) seg) as Hseg'.
    { eapply Forall_impl; [exact Hseg|]. intros ev Hev. exists k, opts.
      split; [by left|exact Hev]. }
    destruct (send_key perform k opts s) as [[e|[]] s1] eqn:Hk; cbn [snd] in *.
    + erewrite bind_raise by exact Hk. exists seg. split; [exact Htr|exact Hseg'].
    + erewrite bind_ok by exact Hk.
      destruct (IH s1) as (seg1 & Htr1 & Hseg1).
      exists (seg ++ seg1). rewrite Htr1, Htr, <- app_assoc. split; [reflexivity|].
      apply Forall_app. split; [exact Hseg'|].
      eapply Forall_impl; [exact Hseg1|]. intros ev (k0 & opts0 & Hin & Hev).
      exists k0, opts0. split; [by right|]. rewrite <- Hself. exact Hev.
Qed.

(** The whole call: the events of the keys, then at most the
    readiness command. *)
Lemma send_keys_events (s : ctx World) :
  exists seg,
    trace (send_keys perform s).2 = trace s ++ seg /\
    Forall (fun ev =>
              (exists k opts, (k, opts) ∈ keys (self s) /\ key_event (self s) k opts ev) \/
              exists r, ev = (SshRun false KeysDone, r)) seg.
Proof.
  unfold send_keys. erewrite bind_ok by reflexivity.
  destruct (bool_decide (state (self s) = RESCUE)) eqn:Hst.
  { exists []. cbn. rewrite app_nil_r. auto. }
  destruct (store_keys_on_machine (self s)).
  { exists []. cbn. rewrite app_nil_r. auto. }
  unfold get_keys. erewrite bind_ok by reflexivity.
  destruct (for_each_key_events (keys (self s)) s) as (seg & Htr & Hseg).
  destruct (for_each_send_key perform (keys (self s)) s) as (Hself & _).
  assert (Forall (fun ev =>
              (exists k opts, (k, opts) ∈ keys (self s) /\ key_event (self s) k opts ev) \/
              exists r, ev = (SshRun false KeysDone, r)) seg) as Hseg'.
  { eapply Forall_impl; [exact Hseg|]. intros ev Hev. by left. }
  destruct (for_each _ _ s) as [[e|[]] s1] eqn:Hloop; cbn [fst snd] in *.
  - erewrite bind_raise by exact Hloop. exists seg. split; [exact Htr|exact Hseg'].
  - erewrite bind_ok by exact Hloop.
    repeat progress unfold run_command, call, get_self, ret, mret, mbind, M_ret, M_bind.
    cbn [self world trace]. rewrite Hself, Hst.
    destruct (perform _ _) as [[e|out] w']; cbn [snd trace].
    all: eexists (seg ++ [_]); rewrite Htr, <- app_assoc; (split; [reflexivity|]).
    all: apply Forall_app; split; [exact Hseg'|].
    all: apply Forall_cons; split; [right; eauto|by apply Forall_nil].
Qed.

End KeyEventFacts.

Section ProtocolFacts.
Import StrFacts SlashFacts.
Context {World : Type} (perform : action -> World -> (exn + string) * World).

Ltac unfold_M :=
  repeat progress unfold send_key, write_scratch, run_command, upload_file, _logged_exec,
    getitem, get_keys, log, call, get_self, modify_self, raise, ret, mret, mbind,
    M_ret, M_bind in *.

Ltac inv_elem H :=
  repeat (apply elem_of_cons in H as [H|H]; [try discriminate H|]);
  try (apply elem_of_nil in H; destruct H).

(** Property X1.  Where the secrets of [send_keys] come from.  Every
    local write of the call goes to the scratch file of the machine, and
    the source of a key follows the order of the [if]/[elif] chain: a
    write of an inline text happens only for a key that has [text]; a
    shell command is started only for a key that has [keyCmd] and no
    [text]; a file is copied only for a key that has [keyFile] and
    neither [text] nor [keyCmd], and the copy is [cp keyFile scratch].
    So a machine none of whose keys has [keyCmd] never starts a shell
    command. *)
Theorem send_keys_secret_sources (s : ctx World) :
  let tmp := scratch_of (self s) in
  exists seg,
    trace (send_keys perform s).2 = trace s ++ seg /\
    (forall path text r, (WriteFile path text, r) ∈ seg ->
       path = tmp /\
       exists k opts, (k, opts) ∈ keys (self s) /\ opts !! "text" = Some text) /\
    (forall cmd path r, (Popen cmd path, r) ∈ seg ->
       path = tmp /\
       exists k opts, (k, opts) ∈ keys (self s) /\
         opts !! "text" = None /\ opts !! "keyCmd" = Some cmd) /\
    (forall argv r, (LoggedExec argv, r) ∈ seg ->
       exists k opts f, (k, opts) ∈ keys (self s) /\ argv = ["cp"; f; tmp] /\
         opts !! "text" = None /\ opts !! "keyCmd" = None /\
         opts !! "keyFile" = Some f).
Proof.
  intros tmp. destruct (send_keys_events perform s) as (seg & Htr & Hseg).
  exists seg. split; [exact Htr|].
  rewrite Forall_forall in Hseg.
  split; [|split].
  - intros path text r Hin.
    destruct (Hseg _ Hin) as [(k & opts & Hk & Hev)|(r' & [=])].
    unfold key_event in Hev. cbn in Hev. destruct Hev as [-> Ht]. eauto.
  - intros cmd path r Hin.
    destruct (Hseg _ Hin) as [(k & opts & Hk & Hev)|(r' & [=])].
    unfold key_event in Hev. cbn in Hev. destruct Hev as (-> & Ht & Hc). eauto 10.
  - intros argv r Hin.
    destruct (Hseg _ Hin) as [(k & opts & Hk & Hev)|(r' & [=])].
    unfold key_event in Hev. cbn in Hev. destruct Hev as (f & -> & Ht & Hc & Hf).
    eauto 10.
Qed.

(** Property X2.  No command line of [send_keys] carries the locale
    reset that [run_command] puts in front of commands in the rescue
    state: the call does nothing in that state, and the loop never changes
    the state of the machine, so every remote command goes out exactly as
    [command_string] renders it. *)
Theorem send_keys_commands_unprefixed (s : ctx World) :
  exists seg,
    trace (send_keys perform s).2 = trace s ++ seg /\
    forall b c r, (SshRun b c, r) ∈ seg ->
      b = false /\ ssh_command_line b c = command_string c.
Proof.
  destruct (decide (state (self s) = RESCUE)) as [Hst|Hst].
  { exists []. unfold send_keys. erewrite bind_ok by reflexivity.
    rewrite bool_decide_eq_true_2 by exact Hst.
    cbn. rewrite app_nil_r. split; [reflexivity|]. intros b c r []%elem_of_nil. }
  destruct (send_keys_events perform s) as (seg & Htr & Hseg).
  exists seg. split; [exact Htr|].
  rewrite Forall_forall in Hseg.
  intros b c r Hin.
  assert (b = false) as ->; [|split; reflexivity].
  destruct (Hseg _ Hin) as [(k & opts & Hk & Hev)|(r' & [= -> _ _])]; [|reflexivity].
  unfold key_event in Hev. cbn in Hev. destruct Hev as [-> _].
  apply bool_decide_eq_false_2. exact Hst.
Qed.

(** Property X3.  The life of the scratch file during one iteration of
    the loop of [send_keys].  The only file ever removed is the scratch
    file, and its removal is the last action of the iteration.  An
    iteration that returns normally ends with the successful removal of
    the scratch file.  An iteration that raises, wherever it does, has not
    removed it: a secret already written there stays on the local disk. *)
Theorem send_key_scratch_file k opts (s : ctx World) :
  let run := send_key perform k opts s in
  let tmp := scratch_of (self s) in
  exists seg,
    trace run.2 = trace s ++ seg /\
    (forall path r, (OsRemove path, r) ∈ seg ->
       path = tmp /\ exists pre, seg = pre ++ [(OsRemove tmp, r)]) /\
    (run.1 = inr tt -> exists pre out, seg = pre ++ [(OsRemove tmp, inr out)]) /\
    (forall e, run.1 = inl e -> forall path out, (OsRemove path, inr out) ∉ seg).
Proof.
  intros run tmp. subst run tmp.
  destruct (send_key perform k opts s) as [r s'] eqn:H.
  unfold_M. cbn in H.
  repeat (case_match; simplify_eq/=); rewrite <- ?app_assoc; cbn;
    (eexists; split; [reflexivity|]).
  all: split; [intros path r0 Hin; inv_elem Hin;
               try (injection Hin as <- <-; (split; [reflexivity|]);
                    by eexists [_; _; _; _; _; _; _])|].
  all: split; [intros Hr; try discriminate Hr; by eexists [_; _; _; _; _; _; _], _|].
  all: intros e0 He path out Hin; try discriminate He; inv_elem Hin.
Qed.

(** Property X4.  The first error ends [send_keys].  When the keys
    before [k] have been processed and the iteration for [k] raises [e],
    the call raises [e] from the very state that iteration left: the keys
    after [k] are not attempted, whatever they are, and the readiness
    command is not issued. *)
Theorem send_keys_first_error ks1 k opts ks2 e (s s1 s2 : ctx World) :
  state (self s) <> RESCUE -> store_keys_on_machine (self s) = false ->
  keys (self s) = ks1 ++ (k, opts) :: ks2 ->
  for_each ks1 (fun '(k, opts) => send_key perform k opts) s = (inr tt, s1) ->
  send_key perform k opts s1 = (inl e, s2) ->
  send_keys perform s = (inl e, s2) /\
  forall r, (SshRun false KeysDone, r) ∉ drop (length (trace s)) (trace s2).
Proof.
  intros Hst Hsk Hks H1 H2.
  assert (forall l (x : ctx World),
            for_each l (fun '(k, opts) => send_key perform k opts) x = (inr tt, s1) ->
            for_each (l ++ (k, opts) :: ks2) (fun '(k, opts) => send_key perform k opts) x
              = (inl e, s2)) as Happ.
  { induction l as [|[k0 o0] l IH]; intros x; cbn [for_each app].
    - intros [= ->]. erewrite bind_raise by exact H2. reflexivity.
    - destruct (send_key perform k0 o0 x) as [[e0|[]] x1] eqn:Hk0.
      + erewrite bind_raise by exact Hk0. discriminate.
      + erewrite !bind_ok by exact Hk0. apply IH. }
  split.
  - unfold send_keys. erewrite bind_ok by reflexivity.
    rewrite bool_decide_eq_false_2 by exact Hst. rewrite Hsk.
    unfold get_keys. erewrite bind_ok by reflexivity.
    rewrite Hks. erewrite bind_raise by (apply Happ; exact H1). reflexivity.
  - intros r Hin.
    destruct (for_each_key_events perform ks1 s) as (seg1 & Htr1 & Hseg1).
    rewrite H1 in Htr1. cbn in Htr1.
    pose proof (for_each_send_key perform ks1 s) as [Hself1 _].
    rewrite H1 in Hself1. cbn in Hself1.
    destruct (send_key_events perform k opts s1) as (seg2 & Htr2 & Hseg2).
    rewrite H2 in Htr2. cbn in Htr2.
    rewrite Htr2, Htr1, <- app_assoc, drop_app_length in Hin.
    rewrite Forall_forall in Hseg1, Hseg2.
    apply elem_of_app in Hin as [Hin|Hin].
    + destruct (Hseg1 _ Hin) as (k0 & o0 & _ & Hev).
      unfold key_event in Hev. cbn in Hev. destruct Hev as (_ & d & _ & []).
    + specialize (Hseg2 _ Hin).
      unfold key_event in Hseg2. cbn in Hseg2. destruct Hseg2 as (_ & d & _ & []).
Qed.

(** Property X5.  Trailing slashes of [destDir] do not matter: a key
    whose [destDir] is followed by any number of further slashes is
    processed exactly as the key itself (same commands, same paths, same
    outcome), because the directory is stripped of its trailing slashes
    before any path is built. *)
Theorem send_key_destdir_slashes k opts d n (s : ctx World) :
  opts !! "destDir" = Some d ->
  send_key perform k (<["destDir" := d +:+ repeat_char "/" n]> opts) s =
  send_key perform k opts s.
Proof.
  intros Hd. unfold send_key, write_scratch, getitem.
  rewrite lookup_insert_eq, Hd, rstrip_repeat.
  rewrite !lookup_insert_ne by discriminate. reflexivity.
Qed.

(** Property X6.  Once [wait_for_ssh] has returned, calling it again
    with the same [check] changes nothing and contacts nothing, and so
    does a call with [check=False].  A call with [check=True] is also a
    no-op when the first call had [check=True] or the machine was pinged
    in this run. *)
Theorem wait_for_ssh_settled (check : bool) (s s1 : ctx World) :
  wait_for_ssh perform check s = (inr tt, s1) ->
  wait_for_ssh perform check s1 = (inr tt, s1) /\
  wait_for_ssh perform false s1 = (inr tt, s1) /\
  (check = true \/ _ssh_pinged_this_time (self s1) = true ->
   wait_for_ssh perform true s1 = (inr tt, s1)).
Proof.
  intros H.
  assert (ssh_pinged (self s1) = true /\
          (if ssh_pinged (self s) && (negb check || _ssh_pinged_this_time (self s))
           then s1 = s else _ssh_pinged_this_time (self s1) = true)) as [Hp Hrest].
  { revert H.
    unfold wait_for_ssh, mbind, M_bind, get_self, log, call, modify_self, ret, mret, M_ret.
    cbn.
    destruct (ssh_pinged (self s) && _) eqn:Hg.
    - intros [= <-]. split; [|reflexivity]. apply andb_true_iff in Hg. tauto.
    - destruct (perform _ _) as [[e|out] w']; [discriminate|]. cbn.
      destruct (bool_decide (state (self s) <> RESCUE)); cbn; intros [= <-]; cbn; auto. }
  assert (forall c, c = false \/ _ssh_pinged_this_time (self s1) = true ->
            wait_for_ssh perform c s1 = (inr tt, s1)) as Hnoop.
  { intros c Hc. unfold wait_for_ssh. erewrite bind_ok by reflexivity.
    rewrite Hp. destruct Hc as [-> | ->]; [reflexivity|].
    rewrite orb_true_r. reflexivity. }
  destruct (ssh_pinged (self s) && (negb check || _ssh_pinged_this_time (self s))) eqn:Hg.
  - subst s1. apply andb_true_iff in Hg as [_ Hg]. apply orb_true_iff in Hg.
    split; [|split].
    + apply Hnoop. destruct Hg as [Hg|Hg]; [left|right; exact Hg].
      by apply negb_true_iff in Hg.
    + apply Hnoop. by left.
    + intros [->|Ht]; apply Hnoop; right; [ |exact Ht].
      destruct Hg as [Hg|Hg]; [discriminate Hg|exact Hg].
  - repeat split; intros; apply Hnoop; by right.
Qed.

(** Property X7.  When [wait_for_ssh] raises, the exception is the one
    of the wait for the port, the only actions were the announcement and
    that wait, and the machine object is as before: neither the state nor
    the two ping flags were set. *)
Theorem wait_for_ssh_failure (check : bool) (s s1 : ctx World) e :
  wait_for_ssh perform check s = (inl e, s1) ->
  self s1 = self s /\
  trace s1 = trace s ++ [(Log "waiting for SSH...", inr EmptyString);
                         (WaitForTcpPort (ssh_port (self s)), inl e)].
Proof.
  unfold wait_for_ssh, mbind, M_bind, get_self, log, call, modify_self, ret, mret, M_ret.
  cbn.
  destruct (ssh_pinged (self s) && _) eqn:Hg; [discriminate|].
  destruct (perform _ _) as [[e0|out] w'] eqn:Hp; cbn.
  - intros [= <- <-]. cbn. rewrite <- app_assoc. auto.
  - destruct (bool_decide _); discriminate.
Qed.

End ProtocolFacts.

(** * Further facts about the health check *)

Module MarkerFacts.
Import StrFacts ReFacts Re.

Lemma prefix_spec p s : String.prefix p s = true <-> exists r, s = p +:+ r.
Proof.
  revert s. induction p as [|a p IH]; intros s.
  - destruct s; cbn; split; eauto.
  - destruct s as [|b s]; cbn.
    + split; [discriminate|]. intros (r & Hr). discriminate Hr.
    + destruct (Ascii.ascii_dec a b) as [->|Hab].
      * rewrite IH. split; intros (r & Hr); exists r.
        -- rewrite append_cons. congruence.
        -- rewrite append_cons in Hr. congruence.
      * split; [discriminate|]. intros (r & Hr). rewrite append_cons in Hr. congruence.
Qed.

(** [needle in hay] holds exactly when [hay] shows [needle] somewhere. *)
Lemma str_in_spec n h : str_in n h = true <-> exists a b, h = a +:+ n +:+ b.
Proof.
  induction h as [|c h IH]; cbn [str_in].
  - rewrite orb_false_r, prefix_spec. split.
    + intros (r & Hr). exists EmptyString, r. exact Hr.
    + intros (a & b & Hab). destruct a as [|x a]; [eauto|].
      rewrite append_cons in Hab. discriminate Hab.
  - rewrite orb_true_iff, prefix_spec, IH. split.
    + intros [(r & Hr)|(a & b & Hab)].
      * exists EmptyString, r. exact Hr.
      * exists (String c a), b. rewrite append_cons. congruence.
    + intros (a & b & Hab). destruct a as [|x a].
      * left. eauto.
      * right. rewrite append_cons in Hab. injection Hab as -> ->. eauto.
Qed.

Lemma str_in_false n h a b : str_in n h = false -> h <> a +:+ n +:+ b.
Proof.
  intros Hf ->. assert (str_in n (a +:+ n +:+ b) = true) as Ht by (apply str_in_spec; eauto).
  congruence.
Qed.

(** [[^c]+] takes at least one character, none of them [c]. *)
Lemma run_plus_inv_mem c p bol cur g1 s y :
  run (Plus c :: p) bol cur g1 s = Some y ->
  exists a0 m r, s = String a0 (m +:+ r) /\
    str_forall (cset_mem c) (String a0 m) = true /\
    run p false (extend cur (String a0 m)) g1 r = Some y.
Proof.
  cbn [run]. destruct s as [|a0 s]; [discriminate|].
  destruct (cset_mem c a0) eqn:Ha; [|discriminate].
  intros H. apply star_greedy_sound in H as (m & r & -> & Hm & H).
  exists a0, m, r. cbn [str_forall]. rewrite Ha, Hm. auto.
Qed.

Lemma run_lit_inv p l bol cur g1 s y :
  run (Lit l :: p) bol cur g1 s = Some y ->
  exists r, s = l +:+ r /\
    run p (bol && bool_decide (l = EmptyString)) (extend cur l) g1 r = Some y.
Proof.
  cbn [run]. destruct (strip_prefix l s) as [r|] eqn:Hr; [|discriminate].
  apply strip_prefix_sound in Hr as ->. eauto.
Qed.

(** A match of one of the two patterns anchored on a unit token: the
    group is a unit token, the line starts with it and a space, and
    shows the marker after that. *)
Lemma token_re_inv marker l g :
  re_match (token_re marker) l = Some g ->
  unit_token g /\ exists a b, l = g +:+ " " +:+ a +:+ marker +:+ b.
Proof.
  unfold re_match, token_re. rewrite run_bol_open.
  destruct (run _ _ _ _ _) as [y|] eqn:H; [|discriminate].
  apply run_plus_inv_mem in H as (a0 & m & r & -> & Hmem & H).
  apply run_close_lit_inv in H as (r' & -> & H).
  pose proof H as H'. apply run_dots_lit_sound in H' as (a & b & ->).
  apply run_no_close in H;
    [|repeat (apply not_elem_of_cons; split; [discriminate|]); apply not_elem_of_nil].
  subst y. cbn [extend]. intros [= <-]. split.
  - split; [discriminate|]. rewrite contains_forall.
    change (negb (str_forall (cset_mem (NotChar " ")) (String a0 m)) = false).
    rewrite Hmem. reflexivity.
  - exists a, b. reflexivity.
Qed.

(** A match of the pattern for inactive mounts: the group is a stem
    without dot followed by [.mount], the line starts with it and a
    space, and shows the marker after that. *)
Lemma inactive_mount_re_inv l g :
  re_match inactive_mount_re l = Some g ->
  exists bar a b, mount_stem bar /\ g = bar +:+ ".mount" /\
    l = g +:+ " " +:+ a +:+ " inactive " +:+ b.
Proof.
  unfold re_match, inactive_mount_re. rewrite run_bol_open.
  destruct (run _ _ _ _ _) as [y|] eqn:H; [|discriminate].
  apply run_plus_inv_mem in H as (a0 & m & r & -> & Hmem & H).
  apply run_lit_inv in H as (r1 & -> & H).
  apply run_close_lit_inv in H as (r' & -> & H).
  pose proof H as H'. apply run_dots_lit_sound in H' as (a & b & ->).
  apply run_no_close in H;
    [|repeat (apply not_elem_of_cons; split; [discriminate|]); apply not_elem_of_nil].
  subst y. cbn [extend]. intros [= <-].
  exists (String a0 m), a, b. split; [|split].
  - split; [discriminate|]. rewrite contains_forall.
    change (negb (str_forall (cset_mem (NotChar ".")) (String a0 m)) = false).
    rewrite Hmem. reflexivity.
  - rewrite append_nil_l. reflexivity.
  - rewrite append_nil_l, !append_cons, !append_assoc. reflexivity.
Qed.

(** A quiet line matches none of the three patterns. *)
Lemma quiet_no_match l :
  quiet l = true ->
  re_match failed_re l = None /\ re_match activating_re l = None /\
  re_match inactive_mount_re l = None.
Proof.
  unfold quiet. rewrite !andb_true_iff, !negb_true_iff. intros [[Hf Ha] Hi].
  split; [|split].
  - destruct (re_match failed_re l) as [g|] eqn:Hm; [|reflexivity].
    change failed_re with (token_re " failed ") in Hm.
    apply token_re_inv in Hm as (_ & a & b & Hl). exfalso.
    apply (str_in_false _ _ (g +:+ " " +:+ a) b Hf).
    rewrite Hl, !append_assoc. reflexivity.
  - destruct (re_match activating_re l) as [g|] eqn:Hm; [|reflexivity].
    change activating_re with (token_re " activating ") in Hm.
    apply token_re_inv in Hm as (_ & a & b & Hl). exfalso.
    apply (str_in_false _ _ (g +:+ " " +:+ a) b Ha).
    rewrite Hl, !append_assoc. reflexivity.
  - destruct (re_match inactive_mount_re l) as [g|] eqn:Hm; [|reflexivity].
    apply inactive_mount_re_inv in Hm as (bar & a & b & _ & _ & Hl). exfalso.
    apply (str_in_false _ _ (g +:+ " " +:+ a) b Hi).
    rewrite Hl, !append_assoc. reflexivity.
Qed.

End MarkerFacts.

Section ListingFacts.
Import StrFacts ReFacts MarkerFacts SplitFacts.
Context {World : Type} (perform : action -> World -> (exn + string) * World).

Ltac unfold_C :=
  repeat progress unfold try_except, run_command, call, get_self, modify_self, raise, ret,
    mret, mbind, M_ret, M_bind.

(** [get_load_avg], evaluated on the answer to its command. *)
Lemma get_load_avg_eval (s : ctx World) :
  let probe := SshRun (bool_decide (state (self s) = RESCUE)) CatLoadavg in
  get_load_avg perform s =
    (match (perform probe (world s)).1 with
     | inl SSHConnectionFailed | inl SSHCommandFailed => inr None
     | inl e => inl e
     | inr out =>
         if Nat.leb 3 (List.length (load_fields out)) then inr (Some (load_fields out))
         else inl AssertionError
     end,
     mkCtx (self s) (perform probe (world s)).2
       (trace s ++ [(probe, (perform probe (world s)).1)])).
Proof.
  intros probe. unfold get_load_avg, load_fields. unfold_C. cbn [self world trace].
  fold probe. destruct (perform probe (world s)) as [[e|out] w]; cbn [fst snd].
  - destruct e; reflexivity.
  - destruct (Nat.leb _ _); reflexivity.
Qed.

(** One line of the listing: the loop body returns, runs at most the
    probe of the file system table, and leaves everything but the two
    unit lists as it was. *)
Lemma check_line_facts l res (s : ctx World) :
  let b := bool_decide (state (self s) = RESCUE) in
  exists res' w' probes,
    check_line perform l res s = (inr res', mkCtx (self s) w' (trace s ++ probes)) /\
    (probes = [] /\ w' = world s \/ exists r, probes = [(SshRun b FstabProbe, r)]) /\
    in_progress_of res' = in_progress_of res ++ option_list (Re.re_match Re.activating_re l) /\
    (is_Some (failed_units res) -> is_Some (failed_units res')) /\
    (is_Some (in_progress_units res) -> is_Some (in_progress_units res')) /\
    is_reachable res' = is_reachable res /\ load res' = load res /\ untouched res res'.
Proof.
  intros b. subst b. destruct s as [m w tr]. unfold check_line.
  destruct (Re.re_match Re.failed_re l) as [gf|];
  destruct (Re.re_match Re.activating_re l) as [ga|];
  destruct (Re.re_match Re.inactive_mount_re l) as [gi|].
  all: try (destruct (String.eqb gi "tmp.mount");
            destruct (Py.startswith gi "sys-");
            destruct (Py.startswith gi "dev-");
            cbn [negb andb]).
  all: unfold_C; cbn [self world trace].
  all: try destruct (perform _ _) as [[e|out] w'].
  all: eexists _, _, _; (split; [try reflexivity; rewrite <- (app_nil_r tr) at 1; reflexivity|]).
  all: (split; [first [left; split; reflexivity|right; eexists; reflexivity]|]).
  all: unfold in_progress_of, untouched; cbn; rewrite ?app_nil_r; repeat split; eauto.
Qed.

(** The loop over the listing. *)
Lemma check_lines_facts out res (s : ctx World) :
  let b := bool_decide (state (self s) = RESCUE) in
  exists res' w' probes,
    check_lines perform out res s = (inr res', mkCtx (self s) w' (trace s ++ probes)) /\
    Forall (fun ev => exists r, ev = (SshRun b FstabProbe, r)) probes /\
    (probes = [] -> w' = world s) /\
    List.length probes <= List.length out /\
    in_progress_of res' = in_progress_of res ++ omap (Re.re_match Re.activating_re) out /\
    (is_Some (failed_units res) -> is_Some (failed_units res')) /\
    (is_Some (in_progress_units res) -> is_Some (in_progress_units res')) /\
    is_reachable res' = is_reachable res /\ load res' = load res /\ untouched res res'.
Proof.
  intros b. subst b. revert res s. induction out as [|l out IH]; intros res s.
  - exists res, (world s), []. cbn [check_lines omap list_omap]. rewrite !app_nil_r.
    destruct s. unfold untouched. repeat split; auto.
  - destruct (check_line_facts l res s)
      as (res1 & w1 & p1 & Hl & Hp1 & Hip1 & Hf1 & Hi1 & Hr1 & Hlo1 & Hu1).
    destruct (IH res1 (mkCtx (self s) w1 (trace s ++ p1)))
      as (res' & w' & p & Hls & Hp & Hw & Hlen & Hip & Hf & Hi & Hr & Hlo & Hu).
    cbn [self world trace] in *.
    exists res', w', (p1 ++ p). cbn [check_lines].
    unfold mbind, M_bind. rewrite Hl, Hls, app_assoc.
    split; [reflexivity|].
    split; [|split; [|split; [|split]]].
    + apply Forall_app. split; [|exact Hp].
      destruct Hp1 as [[-> _]|(r & ->)]; repeat constructor. eauto.
    + intros [-> ->]%app_eq_nil. destruct Hp1 as [[_ ->]|(r & [=])]. auto.
    + rewrite length_app. cbn [List.length].
      destruct Hp1 as [[-> _]|(r & ->)]; cbn [List.length]; lia.
    + rewrite Hip, Hip1, <- app_assoc. f_equal.
      cbn [omap list_omap]. destruct (Re.re_match Re.activating_re l); reflexivity.
    + unfold untouched in *. repeat split; try tauto; try congruence; intuition congruence.
Qed.

(** Lines without marker leave the result alone and cost nothing. *)
Lemma check_lines_quiet out res (s : ctx World) :
  Forall (fun l => quiet l = true) out ->
  check_lines perform out res s = (inr res, s).
Proof.
  intros Hq. induction Hq as [|l ls Hl0 Hls IH]; [reflexivity|].
  cbn [check_lines]. unfold mbind, M_bind.
  apply quiet_no_match in Hl0 as (H1 & H2 & H3).
  unfold check_line. rewrite H1, H2, H3. cbn. exact IH.
Qed.

End ListingFacts.

Section HealthFacts.
Import StrFacts ReFacts MarkerFacts SplitFacts.
Context {World : Type} (perform : action -> World -> (exn + string) * World).

Ltac unfold_C :=
  repeat progress unfold try_except, run_command, call, get_self, modify_self, raise, ret,
    mret, mbind, M_ret, M_bind.

(** Property X8.  [get_load_avg] sends one command, [cat
    /proc/loadavg].  It returns [None] exactly when that command raised
    [SSHConnectionFailed] or [SSHCommandFailed]; any other exception
    passes through.  A list it returns has at least three fields, none of
    which contains a space, and joining the fields with spaces gives back
    the output without its trailing whitespace.  An output with fewer than
    three fields raises [AssertionError], which is not caught. *)
Theorem get_load_avg_contract (s : ctx World) :
  let probe := SshRun (bool_decide (state (self s) = RESCUE)) CatLoadavg in
  let answer := (perform probe (world s)).1 in
  let run := get_load_avg perform s in
  run.2 = mkCtx (self s) (perform probe (world s)).2 (trace s ++ [(probe, answer)]) /\
  (run.1 = inr None <->
     answer = inl SSHConnectionFailed \/ answer = inl SSHCommandFailed) /\
  (forall fields, run.1 = inr (Some fields) ->
     3 <= List.length fields /\
     Forall (fun f => Py.contains " " f = false) fields /\
     exists out, answer = inr out /\ Py.join " " fields = Py.rstrip_ws out) /\
  (forall out, answer = inr out -> List.length (load_fields out) < 3 ->
     run.1 = inl AssertionError) /\
  (forall e, answer = inl e -> e <> SSHConnectionFailed -> e <> SSHCommandFailed ->
     run.1 = inl e).
Proof.
  intros probe answer run. subst run. rewrite get_load_avg_eval. fold probe. fold answer.
  cbn [fst snd]. split; [reflexivity|].
  destruct answer as [e|out] eqn:Ha.
  - split; [|split; [|split]].
    + destruct e; split; intros H; try discriminate H; auto;
        destruct H as [H|H]; discriminate H.
    + intros fields H. destruct e; discriminate H.
    + intros out [=].
    + intros e0 [= <-] H1 H2. destruct e; congruence.
  - destruct (Nat.leb 3 (List.length (load_fields out))) eqn:Hlen.
    + apply Nat.leb_le in Hlen. split; [|split; [|split]].
      * split; [discriminate|]. intros [H|H]; discriminate H.
      * intros fields [= <-]. split; [exact Hlen|]. split.
        -- apply split_no_sep.
        -- exists out. split; [reflexivity|]. apply (join_split " ").
      * intros out0 [= <-] Hlt. lia.
      * intros e [=].
    + split; [|split; [|split]].
      * split; [discriminate|]. intros [H|H]; discriminate H.
      * intros fields [=].
      * reflexivity.
      * intros e [=].
Qed.

(** Property X9.  When the load command fails on the connection or on
    the command, [_check] returns normally having sent nothing else; the
    result only has [is_reachable] set to false (from [check], the unit
    lists and the load stay [None], they are not empty lists); the state
    goes from [UP] to [UNREACHABLE] and is kept otherwise; the two ping
    flags are not reset. *)
Theorem check_unreachable_report res (s : ctx World) :
  let probe := SshRun (bool_decide (state (self s) = RESCUE)) CatLoadavg in
  let answer := (perform probe (world s)).1 in
  answer = inl SSHConnectionFailed \/ answer = inl SSHCommandFailed ->
  exists s',
    _check perform res s = (inr (set_is_reachable false res), s') /\
    state (self s') =
      (if bool_decide (state (self s) = UP) then UNREACHABLE else state (self s)) /\
    ssh_pinged (self s') = ssh_pinged (self s) /\
    _ssh_pinged_this_time (self s') = _ssh_pinged_this_time (self s) /\
    world s' = (perform probe (world s)).2 /\
    trace s' = trace s ++ [(probe, answer)] /\
    (res = CheckResult_init ->
     failed_units (set_is_reachable false res) = None /\
     in_progress_units (set_is_reachable false res) = None /\
     load (set_is_reachable false res) = None).
Proof.
  intros probe answer Ha.
  assert (get_load_avg perform s =
            (inr None, mkCtx (self s) (perform probe (world s)).2
                         (trace s ++ [(probe, answer)]))) as Hload.
  { rewrite get_load_avg_eval. fold probe. fold answer.
    destruct Ha as [-> | ->]; reflexivity. }
  rewrite (_check_unreachable perform res s _ Hload). cbn [self].
  eexists. split; [reflexivity|]. cbn [self world trace].
  assert (res = CheckResult_init ->
          failed_units (set_is_reachable false res) = None /\
          in_progress_units (set_is_reachable false res) = None /\
          load (set_is_reachable false res) = None) as Hinit.
  { intros ->. repeat split. }
  destruct (bool_decide (state (self s) = UP)); cbn;
    (split; [reflexivity|]); (split; [reflexivity|]); (split; [reflexivity|]);
    (split; [reflexivity|]); (split; [reflexivity|exact Hinit]).
Qed.

(** Property X10.  When the load command returns at least three
    fields and the listing arrives, [_check] returns normally; the machine
    is [UP] whatever its state was (a machine in [RESCUE] included) and
    both ping flags are set, so any later [wait_for_ssh] is a no-op; the
    result has [is_reachable] true, the load fields, a list of failed
    units, and as units in progress exactly the first tokens of the
    lines matching the activating pattern, in the order of the listing;
    [exists], [is_up], [disks_ok] and [messages] are not assigned. *)
Theorem check_reachable_report res (s : ctx World) out0 w1 out w2 :
  let probe := SshRun (bool_decide (state (self s) = RESCUE)) CatLoadavg in
  perform probe (world s) = (inr out0, w1) ->
  3 <= List.length (load_fields out0) ->
  perform (SshRun false SystemctlList) w1 = (inr out, w2) ->
  exists res' s',
    _check perform res s = (inr res', s') /\
    self s' = marked_up (self s) /\
    state (self s') = UP /\ ssh_pinged (self s') = true /\
    _ssh_pinged_this_time (self s') = true /\
    is_reachable res' = Some true /\ load res' = Some (load_fields out0) /\
    is_Some (failed_units res') /\
    in_progress_units res' =
      Some (omap (Re.re_match Re.activating_re) (Py.split "010" out)) /\
    untouched res res' /\
    forall c, wait_for_ssh perform c s' = (inr tt, s').
Proof.
  intros probe Hp Hlen Hl.
  assert (get_load_avg perform s =
            (inr (Some (load_fields out0)),
             mkCtx (self s) w1 (trace s ++ [(probe, inr out0)]))) as Hload.
  { rewrite get_load_avg_eval. fold probe. rewrite Hp. cbn [fst snd].
    apply Nat.leb_le in Hlen. rewrite Hlen. reflexivity. }
  rewrite (_check_reachable perform res s _ _ out w2 Hload Hl). cbn [self trace].
  destruct (check_lines_facts perform (Py.split "010" out)
              (fresh_units (set_load (load_fields out0) (set_is_reachable true res)))
              (mkCtx (marked_up (self s)) w2
                 ((trace s ++ [(probe, inr out0)]) ++ [(SshRun false SystemctlList, inr out)])))
    as (res' & w' & probes & Hrun & _ & _ & _ & Hip & Hf & Hi & Hr & Hlo & Hu).
  cbn [self world trace] in *.
  exists res', (mkCtx (marked_up (self s)) w'
                  (((trace s ++ [(probe, inr out0)]) ++
                    [(SshRun false SystemctlList, inr out)]) ++ probes)).
  split; [exact Hrun|]. cbn [self].
  split; [reflexivity|]. split; [reflexivity|]. split; [reflexivity|].
  split; [reflexivity|].
  split; [rewrite Hr; reflexivity|]. split; [rewrite Hlo; reflexivity|].
  split; [apply Hf; cbn; eauto|].
  split.
  - destruct (Hi ltac:(cbn; eauto)) as [xs Hxs].
    unfold in_progress_of in Hip. rewrite Hxs in Hip. cbn in Hip.
    rewrite Hxs, Hip. reflexivity.
  - split; [exact Hu|]. intros c. unfold wait_for_ssh. erewrite bind_ok by reflexivity.
    cbn. rewrite orb_true_r. reflexivity.
Qed.

(** Property X11.  When the load command succeeded and the listing
    command raises, [_check] raises that exception after exactly these
    two commands, and the machine object has already been marked [UP]
    and pinged. *)
Theorem check_listing_failure res (s : ctx World) out0 w1 e w2 :
  let probe := SshRun (bool_decide (state (self s) = RESCUE)) CatLoadavg in
  perform probe (world s) = (inr out0, w1) ->
  3 <= List.length (load_fields out0) ->
  perform (SshRun false SystemctlList) w1 = (inl e, w2) ->
  _check perform res s =
    (inl e, mkCtx (marked_up (self s)) w2
              (trace s ++ [(probe, inr out0); (SshRun false SystemctlList, inl e)])).
Proof.
  intros probe Hp Hlen Hl. unfold _check.
  erewrite bind_ok; [|rewrite get_load_avg_eval; fold probe; rewrite Hp; cbn [fst snd];
                      apply Nat.leb_le in Hlen; rewrite Hlen; reflexivity].
  unfold_C. cbn [self world trace].
  cbn [state set_state set_ssh_pinged set__ssh_pinged_this_time].
  rewrite bool_decide_eq_false_2 by discriminate.
  rewrite Hl. rewrite <- app_assoc. reflexivity.
Qed.

(** Property X12.  The health check only reads.  Whatever the
    environment answers, the actions of [_check] are: [cat /proc/loadavg]
    first (with the locale reset when the machine is in [RESCUE]), then
    possibly [systemctl --all --full --no-legend], then only probes of
    [/etc/fstab]; the listing and the probes are never prefixed.  No
    upload, no local action and no other remote command occurs. *)
Theorem check_commands res (s : ctx World) :
  let run := _check perform res s in
  exists r0 rest,
    trace run.2 =
      trace s ++ (SshRun (bool_decide (state (self s) = RESCUE)) CatLoadavg, r0) :: rest /\
    (rest = [] \/
     exists r1 probes,
       rest = (SshRun false SystemctlList, r1) :: probes /\
       Forall (fun ev => exists r, ev = (SshRun false FstabProbe, r)) probes).
Proof.
  intros run. subst run. unfold _check.
  pose proof (get_load_avg_eval perform s) as Hload. cbn zeta in Hload.
  set (probe := SshRun (bool_decide (state (self s) = RESCUE)) CatLoadavg) in *.
  destruct (get_load_avg perform s) as [[e|[avg|]] s1] eqn:Hg.
  - erewrite bind_raise by exact Hg. injection Hload as _ ->.
    eexists _, []. cbn [snd trace]. split; [reflexivity|by left].
  - erewrite bind_ok by exact Hg. injection Hload as _ ->.
    unfold_C. cbn [self world trace].
    cbn [state set_state set_ssh_pinged set__ssh_pinged_this_time].
    rewrite bool_decide_eq_false_2 by discriminate.
    destruct (perform (SshRun false SystemctlList) _) as [[e|out] w2].
    + eexists _, [_]. cbn [snd trace]. rewrite <- app_assoc. split; [reflexivity|].
      right. eexists _, []. split; [reflexivity|constructor].
    + match goal with |- context [check_lines perform ?o ?r ?c] =>
        destruct (check_lines_facts perform o r c)
          as (res' & w' & probes & Hrun & Hp & _)
      end.
      cbn [self world trace state set_state set_ssh_pinged set__ssh_pinged_this_time] in *.
      rewrite bool_decide_eq_false_2 in Hp by discriminate.
      rewrite Hrun. cbn [snd trace]. rewrite <- !app_assoc.
      eexists _, (_ :: probes). split; [reflexivity|].
      right. eexists _, probes. split; [reflexivity|exact Hp].
  - erewrite bind_ok by exact Hg. injection Hload as _ ->.
    unfold_C. cbn [self world trace].
    destruct (bool_decide (state (self s) = UP)); cbn [snd trace]; eexists _, [];
      (split; [reflexivity|by left]).
Qed.

(** Property X13.  A listing that shows none of the words
    [ failed ], [ activating ] and [ inactive ] (each between spaces)
    yields empty lists of failed and in-progress units, not [None], and
    costs no further command: the check is the load command and the
    listing command. *)
Theorem check_healthy res (s : ctx World) out0 w1 out w2 :
  let probe := SshRun (bool_decide (state (self s) = RESCUE)) CatLoadavg in
  perform probe (world s) = (inr out0, w1) ->
  3 <= List.length (load_fields out0) ->
  perform (SshRun false SystemctlList) w1 = (inr out, w2) ->
  str_in " failed " out = false -> str_in " activating " out = false ->
  str_in " inactive " out = false ->
  let res' := fresh_units (set_load (load_fields out0) (set_is_reachable true res)) in
  _check perform res s =
    (inr res',
     mkCtx (marked_up (self s)) w2
       (trace s ++ [(probe, inr out0); (SshRun false SystemctlList, inr out)])) /\
  failed_units res' = Some [] /\ in_progress_units res' = Some [].
Proof.
  intros probe Hp Hlen Hl Hf Ha Hi res'. subst res'.
  split; [|split; reflexivity].
  assert (get_load_avg perform s =
            (inr (Some (load_fields out0)),
             mkCtx (self s) w1 (trace s ++ [(probe, inr out0)]))) as Hload.
  { rewrite get_load_avg_eval. fold probe. rewrite Hp. cbn [fst snd].
    apply Nat.leb_le in Hlen. rewrite Hlen. reflexivity. }
  rewrite (_check_reachable perform res s _ _ out w2 Hload Hl). cbn [self trace].
  rewrite <- app_assoc. cbn [app].
  assert (Forall (fun l => quiet l = true) (Py.split "010" out)) as Hq.
  { apply Forall_forall. intros l Hin.
    apply split_infix in Hin as (a & b & Hout).
    assert (forall n, str_in n out = false -> str_in n l = false) as Hsub.
    { intros n Hn. destruct (str_in n l) eqn:Hnl; [|reflexivity].
      apply str_in_spec in Hnl as (a' & b' & ->).
      exfalso. apply (str_in_false n out (a +:+ a') (b' +:+ b) Hn).
      rewrite Hout, !append_assoc. reflexivity. }
    unfold quiet. rewrite (Hsub _ Hf), (Hsub _ Ha), (Hsub _ Hi). reflexivity. }
  rewrite check_lines_quiet by exact Hq. reflexivity.
Qed.

(** Property X14.  The loop over the listing reports nothing it did not
    read.  Every name in [failed_units] is the beginning of a line of the
    listing, up to a space: either the first space-free token of a line
    showing [ failed ], or a name [stem.mount], with a stem free of dots,
    on a line showing [ inactive ], not starting with [sys-] or [dev-].
    [in_progress_units] is exactly the list of first tokens of the lines
    matching the activating pattern, in order; each is a space-free token
    of a line showing [ activating ]. *)
Theorem check_lines_reports output res (s : ctx World) :
  let out := Py.split "010" output in
  exists res' s',
    check_lines perform out (fresh_units res) s = (inr res', s') /\
    (forall u, u ∈ failed_of res' ->
       exists l rest, l ∈ out /\ l = u +:+ " " +:+ rest /\
         (unit_token u /\ str_in " failed " l = true \/
          (exists bar, mount_stem bar /\ u = bar +:+ ".mount") /\
          str_in " inactive " l = true /\
          Py.startswith u "sys-" = false /\ Py.startswith u "dev-" = false)) /\
    in_progress_of res' = omap (Re.re_match Re.activating_re) out /\
    (forall u, u ∈ in_progress_of res' ->
       unit_token u /\
       exists l rest, l ∈ out /\ l = u +:+ " " +:+ rest /\
         str_in " activating " l = true).
Proof.
  intros out.
  destruct (check_lines_spec perform out (fresh_units res) s)
    as (res' & s' & Hrun & _ & _ & _ & _ & _ & _ & Hinv).
  destruct (check_lines_facts perform out (fresh_units res) s)
    as (res2 & w2 & probes & Hrun2 & _ & _ & _ & Hip & _).
  rewrite Hrun in Hrun2. injection Hrun2 as <- _.
  exists res', s'. split; [exact Hrun|]. split; [|split].
  - intros u Hu. destruct (Hinv u Hu) as [[]%elem_of_nil|(l & Hl & Hm)].
    destruct Hm as [Hm|(Hm & Hsys & Hdev)].
    + change Re.failed_re with (token_re " failed ") in Hm.
      apply token_re_inv in Hm as (Htok & a & b & Heq).
      exists l, (a +:+ " failed " +:+ b). split; [exact Hl|]. split; [exact Heq|].
      left. split; [exact Htok|]. apply str_in_spec.
      exists (u +:+ " " +:+ a), b. rewrite Heq, !append_assoc. reflexivity.
    + apply inactive_mount_re_inv in Hm as (bar & a & b & Hbar & Hu' & Heq).
      exists l, (a +:+ " inactive " +:+ b). split; [exact Hl|]. split; [exact Heq|].
      right. split; [eauto|]. split; [|auto]. apply str_in_spec.
      exists (u +:+ " " +:+ a), b. rewrite Heq, !append_assoc. reflexivity.
  - exact Hip.
  - intros u Hu. rewrite Hip in Hu. apply list_elem_of_omap in Hu as (l & Hl & Hm).
    change Re.activating_re with (token_re " activating ") in Hm.
    apply token_re_inv in Hm as (Htok & a & b & Heq).
    split; [exact Htok|].
    exists l, (a +:+ " activating " +:+ b). split; [exact Hl|]. split; [exact Heq|].
    apply str_in_spec.
    exists (u +:+ " " +:+ a), b. rewrite Heq, !append_assoc. reflexivity.
Qed.

End HealthFacts.

(** * Facts about the quoting of command lines *)

Section QuotingFacts.
Import StrFacts.

Lemma word_quoted_escape p :
  Sh.word true (Py.replace "'" "'\''" p +:+ "'") = Some p.
Proof.
  induction p as [|a p IH]; [reflexivity|].
  cbn [Py.replace]. destruct (Ascii.eqb a "'") eqn:Ha.
  - apply Ascii.eqb_eq in Ha as ->.
    rewrite append_assoc.
    change ("'\''" +:+ (Py.replace "'" "'\''" p +:+ "'"))
      with (String "'" (String "\" (String "'" (String "'"
              (Py.replace "'" "'\''" p +:+ "'"))))).
    cbn [Sh.word Ascii.eqb Bool.eqb]. cbn [Sh.word] in IH. rewrite IH. reflexivity.
  - rewrite append_cons. cbn [Sh.word]. rewrite Ha, IH. reflexivity.
Qed.

Lemma word_quoted_plain v :
  Py.contains "'" v = false -> Sh.word true (v +:+ "'") = Some v.
Proof.
  induction v as [|a v IH]; [reflexivity|].
  cbn [Py.contains]. intros [Ha Hv]%orb_false_iff.
  rewrite append_cons. cbn [Sh.word]. rewrite Ha, (IH Hv). reflexivity.
Qed.

(** What the shell makes of a word is never longer than the text, and
    loses at least the closing quote when it starts inside quotes. *)
Lemma word_length_aux n : forall s, String.length s <= n -> forall q w,
  Sh.word q s = Some w ->
  String.length w + (if q then 1 else 0) <= String.length s.
Proof.
  induction n as [|n IH]; intros s Hn q w.
  - destruct s; [|cbn in Hn; lia]. cbn [Sh.word].
    destruct q; [discriminate|]. intros [= <-]. cbn. lia.
  - destruct s as [|c s]; cbn [Sh.word].
    { destruct q; [discriminate|]. intros [= <-]. cbn. lia. }
    cbn in Hn. assert (String.length s <= n) as Hs by lia.
    destruct q.
    + destruct (Ascii.eqb c "'").
      * intros H. apply (IH s Hs) in H. cbn in *. lia.
      * destruct (Sh.word true s) as [w'|] eqn:Hw; [|discriminate].
        intros [= <-]. apply (IH s Hs) in Hw. cbn in *. lia.
    + destruct (Ascii.eqb c "'").
      * intros H. apply (IH s Hs) in H. cbn in *. lia.
      * destruct (Ascii.eqb c "\").
        -- destruct s as [|c' s']; [discriminate|]. cbn in Hs.
           destruct (Ascii.eqb c' "010").
           ++ intros H. apply (IH s' ltac:(lia)) in H. cbn in *. lia.
           ++ destruct (Sh.word false s') as [w'|] eqn:Hw; [|discriminate].
              intros [= <-].
              apply (IH s' ltac:(lia)) in Hw. cbn in *. lia.
        -- destruct (Sh.is_plain c); [|discriminate].
           destruct (Sh.word false s) as [w'|] eqn:Hw; [|discriminate].
           intros [= <-]. apply (IH s Hs) in Hw. cbn in *. lia.
Qed.

Lemma word_length s q w :
  Sh.word q s = Some w ->
  String.length w + (if q then 1 else 0) <= String.length s.
Proof. apply (word_length_aux (String.length s)). lia. Qed.

(** A word read outside quotes that is as long as its text has no
    quote in it. *)
Lemma word_full_length s : forall w,
  Sh.word false s = Some w -> String.length w = String.length s ->
  Py.contains "'" s = false.
Proof.
  induction s as [|c s IH]; intros w; [reflexivity|].
  cbn [Sh.word Py.contains]. destruct (Ascii.eqb c "'") eqn:Hc.
  - intros H Hl. apply word_length in H. cbn in *. lia.
  - destruct (Ascii.eqb c "\").
    + destruct s as [|c' s']; [discriminate|].
      destruct (Ascii.eqb c' "010").
      * intros H Hl. apply word_length in H. cbn in *. lia.
      * destruct (Sh.word false s') as [w'|] eqn:Hw; [|discriminate].
        intros [= <-] Hl. apply word_length in Hw. cbn in *. lia.
    + destruct (Sh.is_plain c); [|discriminate].
      destruct (Sh.word false s) as [w'|] eqn:Hw; [|discriminate].
      intros [= <-] Hl. cbn in Hl. cbn [orb]. eapply IH; [reflexivity|lia].
Qed.

(** Inside quotes, the text up to the first quote stands for itself. *)
Lemma word_quoted_prefix a r :
  Py.contains "'" a = false ->
  Sh.word true (a +:+ String "'" r) = (String.append a) <$> Sh.word false r.
Proof.
  induction a as [|x a IH]; cbn [Py.contains].
  - intros _. rewrite append_nil_l. cbn [Sh.word Ascii.eqb Bool.eqb].
    destruct (Sh.word false r); reflexivity.
  - intros [Hx Ha]%orb_false_iff. rewrite append_cons. cbn [Sh.word].
    rewrite Hx, (IH Ha). destruct (Sh.word false r); reflexivity.
Qed.

(** A text cut at its first quote. *)
Lemma first_quote v :
  Py.contains "'" v = true ->
  exists a b, v = a +:+ String "'" b /\ Py.contains "'" a = false.
Proof.
  induction v as [|x v IH]; [discriminate|]. cbn [Py.contains].
  destruct (Ascii.eqb x "'") eqn:Hx.
  - intros _. apply Ascii.eqb_eq in Hx as ->. exists EmptyString, v. auto.
  - cbn [orb]. intros Hv. destruct (IH Hv) as (a & b & -> & Ha).
    exists (String x a), b. cbn [Py.contains]. rewrite Hx, Ha. auto.
Qed.

(** Property X15.  The quoting of the final and the temporary path is
    sound: for every path, whatever characters it holds (quotes, spaces,
    dollars, backslashes), the shell reads the quoted text back as that
    one word.  It is the quoting used in the [rm -f] and [mv] command
    lines. *)
Theorem shell_escape_round_trip p :
  Sh.word false (shell_escape p) = Some p /\
  forall o t,
    command_string (RmStale o t) = "rm -f " +:+ shell_escape o +:+ " " +:+ shell_escape t /\
    command_string (Rename t o) = "mv " +:+ shell_escape t +:+ " " +:+ shell_escape o.
Proof.
  split; [|intros o t; split; reflexivity].
  unfold shell_escape.
  change ("'" +:+ Py.replace "'" "'\''" p +:+ "'")
    with (String "'" (Py.replace "'" "'\''" p +:+ "'")).
  cbn [Sh.word Ascii.eqb Bool.eqb]. apply word_quoted_escape.
Qed.

(** Property X16.  The destination directory, the user, the group and
    the permissions are put between single quotes as they are.  The shell
    reads such a text back as the value exactly when the value contains
    no single quote; a value with a single quote never arrives intact. *)
Theorem bare_quote_word v :
  (Sh.word false (bare_quote v) = Some v <-> Py.contains "'" v = false) /\
  (forall d,
     command_string (EnsureDir d) =
       "test -d " +:+ bare_quote d +:+ " || ( mkdir -m 0750 -p " +:+ bare_quote d +:+
       " && chown root:keys  " +:+ bare_quote d +:+ ";)") /\
  (forall t u g p,
     command_string (ChownChmod t u g p) =
       "(  getent passwd " +:+ bare_quote u +:+ " >/dev/null &&  getent group " +:+
       bare_quote g +:+ " >/dev/null &&  chown " +:+ bare_quote (u +:+ ":" +:+ g) +:+
       " " +:+ shell_escape t +:+ " ); chmod " +:+ bare_quote p +:+ " " +:+
       shell_escape t).
Proof.
  split; [|split].
  2:{ intros d. unfold command_string, bare_quote. rewrite !append_assoc. reflexivity. }
  2:{ intros t u g p. unfold command_string, bare_quote, Py.join.
      cbn [String.concat]. rewrite !append_assoc. reflexivity. }
  unfold bare_quote.
  change ("'" +:+ v +:+ "'") with (String "'" (v +:+ "'")).
  cbn [Sh.word Ascii.eqb Bool.eqb]. split.
  - intros H. destruct (Py.contains "'" v) eqn:Hq; [|reflexivity]. exfalso.
    destruct (first_quote v Hq) as (a & b & -> & Ha).
    rewrite append_assoc, append_cons, (word_quoted_prefix a _ Ha) in H.
    destruct (Sh.word false (b +:+ "'")) as [w|] eqn:Hw; [|discriminate H].
    cbn in H. injection H as H. apply (inj (String.append a)) in H. subst w.
    assert (Py.contains "'" (b +:+ "'") = false) as Hno.
    { eapply word_full_length; [exact Hw|]. rewrite length_append. cbn. lia. }
    rewrite contains_append in Hno. apply orb_false_iff in Hno as [_ Hno].
    discriminate Hno.
  - apply word_quoted_plain.
Qed.

End QuotingFacts.

(** * Facts about machine definitions *)

Section DictFacts.
Context {K V : Type} `{EqDecision K}.

Lemma dict_get_set (k n : K) (v : V) d :
  dict_get n (dict_set k v d) = if decide (k = n) then Some v else dict_get n d.
Proof.
  induction d as [|[k' v'] d IH]; cbn [dict_set dict_get].
  - destruct (decide (k = n)); reflexivity.
  - destruct (decide (k' = k)) as [->|Hk]; cbn [dict_get].
    + destruct (decide (k = n)); reflexivity.
    + destruct (decide (k' = n)) as [->|Hn].
      * rewrite decide_False by congruence. reflexivity.
      * exact IH.
Qed.

Lemma dict_set_names (k : K) (v : V) d n :
  n ∈ (dict_set k v d).*1 <-> n = k \/ n ∈ d.*1.
Proof.
  induction d as [|[k' v'] d IH]; cbn [dict_set].
  - cbn. rewrite list_elem_of_singleton, elem_of_nil. tauto.
  - destruct (decide (k' = k)) as [->|Hk]; cbn [fmap list_fmap fst];
      rewrite !elem_of_cons; [tauto|]. rewrite IH. tauto.
Qed.

Lemma dict_set_NoDup (k : K) (v : V) d : NoDup d.*1 -> NoDup (dict_set k v d).*1.
Proof.
  induction d as [|[k' v'] d IH]; cbn [dict_set].
  - intros _. cbn. apply NoDup_singleton.
  - cbn [fmap list_fmap fst]. intros [Hk' Hd]%NoDup_cons.
    destruct (decide (k' = k)) as [->|Hk]; cbn [fmap list_fmap fst].
    + apply NoDup_cons. auto.
    + apply NoDup_cons. split; [|auto].
      rewrite dict_set_names. intros [?|?]; [congruence|contradiction].
Qed.

Lemma dict_get_elem (n : K) (v : V) d : dict_get n d = Some v -> (n, v) ∈ d.
Proof.
  induction d as [|[k' v'] d IH]; cbn [dict_get]; [discriminate|].
  destruct (decide (k' = n)) as [->|Hn].
  - intros [= ->]. by left.
  - intros H. right. auto.
Qed.

Lemma elem_dict_get (n : K) (v : V) d : NoDup d.*1 -> (n, v) ∈ d -> dict_get n d = Some v.
Proof.
  induction d as [|[k' v'] d IH]; cbn [dict_get]; [intros _ []%elem_of_nil|].
  cbn [fmap list_fmap fst]. intros [Hk' Hd]%NoDup_cons [[= -> ->]|Hin]%elem_of_cons.
  - rewrite decide_True by reflexivity. reflexivity.
  - destruct (decide (k' = n)) as [->|Hn]; [|auto].
    exfalso. apply Hk'. apply list_elem_of_fmap. exists (n, v). auto.
Qed.

(** A dictionary filled by assignments, one per element of a list:
    the value under a name is the one given by the last element with
    that name. *)
Lemma dict_fill {A} (name : A -> K) (value : A -> V) elems d0 n :
  dict_get n (foldl (fun d e => dict_set (name e) (value e) d) d0 elems) =
  match last (filter (fun e => name e = n) elems) with
  | Some e => Some (value e)
  | None => dict_get n d0
  end.
Proof.
  revert d0. induction elems as [|e elems IH]; intros d0; [reflexivity|].
  cbn [foldl]. rewrite IH, dict_get_set. rewrite filter_cons.
  destruct (decide (name e = n)) as [He|He].
  - destruct (filter (fun e => name e = n) elems) as [|x xs] eqn:Hf; [reflexivity|].
    change (last (e :: x :: xs)) with (last (x :: xs)).
    destruct (last (x :: xs)) eqn:Hl; [reflexivity|].
    apply last_None in Hl. discriminate Hl.
  - reflexivity.
Qed.

Lemma dict_fill_NoDup {A} (name : A -> K) (value : A -> V) elems d0 :
  NoDup d0.*1 -> NoDup (foldl (fun d e => dict_set (name e) (value e) d) d0 elems).*1.
Proof.
  revert d0. induction elems as [|e elems IH]; intros d0 Hd; [exact Hd|].
  cbn [foldl]. apply IH, dict_set_NoDup, Hd.
Qed.

Lemma dict_fill_names {A} (name : A -> K) (value : A -> V) elems d0 n :
  n ∈ (foldl (fun d e => dict_set (name e) (value e) d) d0 elems).*1 <->
  n ∈ d0.*1 \/ exists e, e ∈ elems /\ name e = n.
Proof.
  revert d0. induction elems as [|e elems IH]; intros d0; cbn [foldl].
  - split; [auto|]. intros [?|(e & []%elem_of_nil & _)]. auto.
  - rewrite IH, dict_set_names. split.
    + intros [[->|?]|(e' & He' & <-)]; eauto.
      * right. exists e. split; [by left|reflexivity].
      * right. exists e'. split; [by right|reflexivity].
    + intros [?|(e' & [->|He']%elem_of_cons & <-)]; eauto.
Qed.

End DictFacts.

Section DefinitionFacts.
Import MachineDefinition.

(** The value [_extract_key_options] finds for one option. *)
Lemma extract_fold x (fs : list (string * string)) : forall (acc : key_options) key,
  NoDup fs.*1 ->
  foldl (fun (opts : key_options) '(key, xmlType) =>
           match ET.find (attr_path key xmlType) x with
           | Some elem =>
               match ET.get elem "value" with
               | Some value => <[key := value]> opts
               | None => opts
               end
           | None => opts
           end) acc fs !! key =
  match dict_get key fs with
  | Some xmlType =>
      match ET.find (attr_path key xmlType) x ≫= (fun e => ET.get e "value") with
      | Some v => Some v
      | None => acc !! key
      end
  | None => acc !! key
  end.
Proof.
  induction fs as [|[k0 t0] fs IH]; intros acc key; [reflexivity|].
  cbn [fmap list_fmap fst foldl dict_get]. intros [Hk0 Hfs]%NoDup_cons.
  rewrite (IH _ _ Hfs).
  destruct (decide (k0 = key)) as [->|Hne].
  - assert (dict_get key fs = None) as ->.
    { destruct (dict_get key fs) as [t|] eqn:Hg; [|reflexivity].
      apply dict_get_elem in Hg. exfalso. apply Hk0.
      apply list_elem_of_fmap. exists (key, t). auto. }
    destruct (ET.find (attr_path key t0) x) as [e|]; cbn; [|reflexivity].
    destruct (ET.get e "value"); [apply lookup_insert_eq|reflexivity].
  - assert (forall o : key_options,
              match ET.find (attr_path k0 t0) x with
              | Some elem => match ET.get elem "value" with
                             | Some value => <[k0 := value]> o
                             | None => o end
              | None => o end !! key = o !! key) as Hsame.
    { intros o. destruct (ET.find (attr_path k0 t0) x) as [e|]; [|reflexivity].
      destruct (ET.get e "value"); [|reflexivity].
      apply lookup_insert_ne. exact Hne. }
    rewrite Hsame. reflexivity.
Qed.

Lemma extract_key_options_eval x k :
  _extract_key_options x !! k =
    (xmlType ← dict_get k key_fields;
     elem ← ET.find (attr_path k xmlType) x;
     ET.get elem "value").
Proof.
  unfold _extract_key_options. rewrite extract_fold.
  - rewrite lookup_empty. destruct (dict_get k key_fields) as [t|]; [|reflexivity].
    cbn. destruct (ET.find (attr_path k t) x ≫= _); reflexivity.
  - cbn. repeat (apply NoDup_cons; split;
      [rewrite ?elem_of_cons, elem_of_nil; intros H; repeat destruct H as [H|H];
       discriminate H || exact H|]).
    apply NoDup_nil. exact I.
Qed.

(** Property X17.  [_extract_key_options] yields, under each of the
    six option names, the [value] attribute of the first element found
    for that name with the XML type of the option ([path] for [keyFile],
    [string] for the others), and no entry when that element is absent or
    has no [value].  It yields no other key; in particular never
    [keyCmd], whatever the XML holds. *)
Theorem extract_key_options_lookup x key :
  _extract_key_options x !! key =
    (xmlType ← dict_get key key_fields;
     elem ← ET.find (attr_path key xmlType) x;
     ET.get elem "value") /\
  _extract_key_options x !! "keyCmd" = None /\
  (forall v, _extract_key_options x !! key = Some v ->
     key ∈ ["text"; "keyFile"; "destDir"; "user"; "group"; "permissions"]).
Proof.
  split; [apply extract_key_options_eval|].
  split; [rewrite extract_key_options_eval; reflexivity|].
  intros v. rewrite extract_key_options_eval.
  destruct (dict_get key key_fields) as [t|] eqn:Hg; [|discriminate].
  intros _. apply dict_get_elem in Hg.
  apply (list_elem_of_fmap_2 fst) in Hg. exact Hg.
Qed.

(** Property X18.  The keys of an accepted definition.  The names are
    those of the key elements of the XML, each once; the options under a
    name are extracted from the last element with that name, so a key
    given twice takes its later definition; and every options dictionary
    comes from a key element and has no [keyCmd]. *)
Theorem MachineDefinition_keys (int : string -> option Z) xml d :
  __init__ int xml = inr d ->
  let elems := ET.findall keys_path xml in
  NoDup (keys d).*1 /\
  (forall n, n ∈ (keys d).*1 <-> exists e, e ∈ elems /\ ET.get e "name" = n) /\
  (forall n,
     dict_get n (keys d) =
       _extract_key_options <$> last (filter (fun e => ET.get e "name" = n) elems)) /\
  (forall n opts, (n, opts) ∈ keys d ->
     opts !! "keyCmd" = None /\
     exists e, e ∈ elems /\ ET.get e "name" = n /\ opts = _extract_key_options e).
Proof.
  unfold __init__.
  destruct (flag "storeKeysOnMachine" xml) as [|store]; [discriminate|].
  destruct (port int xml) as [|p]; [discriminate|].
  destruct (flag "alwaysActivate" xml) as [|activate]; [discriminate|].
  destruct (flag "hasFastConnection" xml) as [|fast]; [discriminate|].
  intros [= <-]. cbn [keys]. unfold keys_of.
  set (elems := ET.findall keys_path xml).
  assert (NoDup (foldl (fun d k => dict_set (ET.get k "name") (_extract_key_options k) d)
                   [] elems).*1) as Hnd.
  { apply dict_fill_NoDup. apply NoDup_nil. exact I. }
  assert (forall n,
     dict_get n (foldl (fun d k => dict_set (ET.get k "name") (_extract_key_options k) d)
                   [] elems) =
       _extract_key_options <$> last (filter (fun e => ET.get e "name" = n) elems)) as Hget.
  { intros n. rewrite dict_fill. destruct (last _); reflexivity. }
  split; [exact Hnd|]. split; [|split; [exact Hget|]].
  - intros n. rewrite dict_fill_names. cbn. rewrite elem_of_nil. split.
    + intros [[]|H]. exact H.
    + intros H. right. exact H.
  - intros n opts Hin. apply (elem_dict_get _ _ _ Hnd) in Hin.
    rewrite Hget in Hin.
    destruct (last (filter (fun e => ET.get e "name" = n) elems)) as [e|] eqn:Hl;
      [|discriminate].
    injection Hin as <-. split; [rewrite extract_key_options_eval; reflexivity|].
    apply last_Some_elem_of, list_elem_of_filter in Hl as [Hn He].
    exists e. auto.
Qed.

(** Property X19.  What [MachineDefinition.__init__] accepts.  A
    definition is built exactly when the four elements
    [storeKeysOnMachine], [targetPort], [alwaysActivate] and
    [hasFastConnection] are found, the port element has a [value] and
    that text is an integer; a flag is true only when its text is
    exactly [true]; missing owners and keys are no error.  A missing
    element gives [AttributeError], a port without [value] gives
    [TypeError], a port text that is no integer gives [ValueError]. *)
Theorem MachineDefinition_init_contract (int : string -> option Z) xml :
  let look name ty := ET.find (attr_path name ty) xml in
  match __init__ int xml with
  | inr d =>
      exists e1 e2 e3 e4 v,
        look "storeKeysOnMachine" "bool" = Some e1 /\
        look "targetPort" "int" = Some e2 /\
        look "alwaysActivate" "bool" = Some e3 /\
        look "hasFastConnection" "bool" = Some e4 /\
        ET.get e2 "value" = Some v /\ int v = Some (ssh_port d) /\
        (store_keys_on_machine d = true <-> ET.get e1 "value" = Some "true") /\
        (always_activate d = true <-> ET.get e3 "value" = Some "true") /\
        (has_fast_connection d = true <-> ET.get e4 "value" = Some "true") /\
        owners d = (fun e => ET.get e "value") <$> ET.findall owners_path xml
  | inl AttributeError =>
      look "storeKeysOnMachine" "bool" = None \/ look "targetPort" "int" = None \/
      look "alwaysActivate" "bool" = None \/ look "hasFastConnection" "bool" = None
  | inl TypeError =>
      exists e2, look "targetPort" "int" = Some e2 /\ ET.get e2 "value" = None
  | inl ValueError =>
      exists e2 v, look "targetPort" "int" = Some e2 /\ ET.get e2 "value" = Some v /\
        int v = None
  end.
Proof.
  intros look. unfold __init__, flag, port. subst look. cbn beta.
  destruct (ET.find (attr_path "storeKeysOnMachine" "bool") xml) as [e1|]; [|auto].
  destruct (ET.find (attr_path "targetPort" "int") xml) as [e2|]; [|auto].
  destruct (ET.get e2 "value") as [v|] eqn:Hv; [|eauto].
  destruct (int v) as [n|] eqn:Hn; [|eauto].
  destruct (ET.find (attr_path "alwaysActivate" "bool") xml) as [e3|]; [|auto].
  destruct (ET.find (attr_path "hasFastConnection" "bool") xml) as [e4|]; [|auto 6].
  exists e1, e2, e3, e4, v. cbn.
  repeat (split; [reflexivity || exact Hv || exact Hn || apply bool_decide_eq_true|]).
  reflexivity.
Qed.

End DefinitionFacts.

(** * Facts about rebooting *)

Section LifecycleFacts.
Context {World : Type} (perform : action -> World -> (exn + string) * World).
Context (perform_more : more_action -> World -> (exn + Z) * World).
Context (get_ssh_name : MachineState -> exn + string).

Ltac unfold_L :=
  repeat progress unfold reboot, run_command_unchecked, call_more, ssh_name, send_key,
    write_scratch, run_command, upload_file, _logged_exec, getitem, get_keys, log, call,
    get_self, modify_self, raise, ret, mret, mbind, M_ret, M_bind, perform_in in *.

(** The journal only grows while a key is processed, by actions of
    [action]. *)
Lemma send_key_journal k opts (s : ctx (session World)) :
  exists rest,
    journal (world (send_key (perform_in perform) k opts s).2) = journal (world s) ++ rest /\
    Forall (fun en => exists ev, en = inl ev) rest.
Proof.
  destruct (send_key (perform_in perform) k opts s) as [r s'] eqn:H.
  unfold_L. cbn in H.
  repeat (case_match; simplify_eq/=); rewrite <- ?app_assoc;
    (eexists; split; [try reflexivity; symmetry; apply app_nil_r|]).
  all: repeat (apply Forall_cons; split; [eauto|]); by apply Forall_nil.
Qed.

Lemma for_each_journal ks (s : ctx (session World)) :
  exists rest,
    journal (world (for_each ks (fun '(k, opts) => send_key (perform_in perform) k opts) s).2)
      = journal (world s) ++ rest /\
    Forall (fun en => exists ev, en = inl ev) rest.
Proof.
  revert s. induction ks as [|[k opts] ks IH]; intros s; cbn [for_each].
  - exists []. cbn. rewrite app_nil_r. split; [reflexivity|by apply Forall_nil].
  - destruct (send_key_journal k opts s) as (r1 & Hj1 & Hr1).
    destruct (send_key (perform_in perform) k opts s) as [[e|[]] s1] eqn:Hk; cbn [snd] in *.
    + erewrite bind_raise by exact Hk. eauto.
    + erewrite bind_ok by exact Hk.
      destruct (IH s1) as (r2 & Hj2 & Hr2).
      exists (r1 ++ r2). rewrite Hj2, Hj1, <- app_assoc. split; [reflexivity|].
      apply Forall_app. auto.
Qed.

(** [send_keys] in a session: the machine object is untouched, the
    journal grows by actions of [action], and ends with the readiness
    command when the call went past its guards and returned. *)
Lemma send_keys_session (s : ctx (session World)) :
  let run := send_keys (perform_in perform) s in
  self run.2 = self s /\
  exists rest,
    journal (world run.2) = journal (world s) ++ rest /\
    Forall (fun en => exists ev, en = inl ev) rest /\
    (state (self s) = RESCUE \/ store_keys_on_machine (self s) = true -> rest = []) /\
    (state (self s) <> RESCUE -> store_keys_on_machine (self s) = false ->
     run.1 = inr tt ->
     exists pre out, rest = pre ++ [inl (SshRun false KeysDone, inr out)]).
Proof.
  intros run. subst run. unfold send_keys. erewrite bind_ok by reflexivity.
  destruct (bool_decide (state (self s) = RESCUE)) eqn:Hst.
  { apply bool_decide_eq_true_1 in Hst. cbn. split; [reflexivity|].
    exists []. rewrite app_nil_r. split; [reflexivity|].
    split; [by apply Forall_nil|]. split; [reflexivity|]. intros Hne. contradiction. }
  apply bool_decide_eq_false_1 in Hst.
  destruct (store_keys_on_machine (self s)) eqn:Hsk.
  { cbn. split; [reflexivity|].
    exists []. rewrite app_nil_r. split; [reflexivity|].
    split; [by apply Forall_nil|]. split; [reflexivity|]. intros _ [=]. }
  unfold get_keys. erewrite bind_ok by reflexivity.
  destruct (for_each_journal (keys (self s)) s) as (r1 & Hj1 & Hr1).
  destruct (for_each_send_key (perform_in perform) (keys (self s)) s) as (Hself & _).
  destruct (for_each _ _ s) as [[e|[]] s1] eqn:Hloop; cbn [fst snd] in *.
  - erewrite bind_raise by exact Hloop. cbn [fst snd]. split; [exact Hself|].
    exists r1. split; [exact Hj1|]. split; [exact Hr1|].
    split; [intros [?|?]; congruence|]. intros _ _ [=].
  - erewrite bind_ok by exact Hloop.
    repeat progress unfold run_command, call, get_self, ret, mret, mbind, M_ret, M_bind,
      perform_in.
    cbn [self world trace]. rewrite Hself, bool_decide_eq_false_2 by exact Hst.
    destruct (perform _ _) as [[e|out] w']; cbn [fst snd self world journal].
    all: (split; [reflexivity|]).
    all: eexists (r1 ++ [_]); rewrite Hj1, <- app_assoc; (split; [reflexivity|]).
    all: (split; [apply Forall_app; split; [exact Hr1|];
                  apply Forall_cons; split; [eauto|by apply Forall_nil]|]).
    all: (split; [intros [?|?]; congruence|]).
    + intros _ _ [=].
    + intros _ _ _. eauto.
Qed.

(** Property X20.  [reboot] logs, then sends one command with
    [check=False]: [systemctl reboot], or in the rescue state
    [(sleep 2; reboot) &] behind the locale reset.  Whatever exit status
    comes back, the state becomes [STARTING] (so [started] holds) and the
    connection is reset; the two ping flags are left as they were.  When
    the command raises, the machine object is unchanged and nothing else
    is done. *)
Theorem reboot_outcome hard (s : ctx (session World)) :
  let line :=
    if bool_decide (state (self s) = RESCUE)
    then "export LANG= LC_ALL= LC_TIME=; (sleep 2; reboot) &" else "systemctl reboot" in
  let cmd := SshRunUnchecked line (get_ssh_flags false (self s)) in
  let answer := perform_more cmd (inner (world s)) in
  let run := reboot perform_more hard s in
  trace run.2 = trace s ++ [(Log "rebooting...", inr EmptyString)] /\
  match answer.1 with
  | inl e =>
      run.1 = inl e /\ self run.2 = self s /\
      journal (world run.2) = journal (world s) ++ [inr (cmd, inl e)]
  | inr status =>
      self run.2 = set_state STARTING (self s) /\
      started (self run.2) = true /\
      ssh_pinged (self run.2) = ssh_pinged (self s) /\
      _ssh_pinged_this_time (self run.2) = _ssh_pinged_this_time (self s) /\
      journal (world run.2) =
        journal (world s) ++
        [inr (cmd, inr status); inr (SshReset, (perform_more SshReset answer.2).1)]
  end.
Proof.
  intros line cmd answer run. subst run answer cmd line.
  unfold_L. cbn [self world trace inner journal].
  destruct (bool_decide (state (self s) = RESCUE));
    destruct (perform_more (SshRunUnchecked _ _) _) as [[e|status] w1];
    cbn [fst snd self world trace inner journal];
    try destruct (perform_more SshReset w1) as [[e2|z] w2];
    cbn [fst snd self world trace inner journal]; rewrite <- ?app_assoc; repeat split.
Qed.


(** A reboot that returned. *)
Lemma reboot_ok hard (s s1 : ctx (session World)) :
  reboot perform_more hard s = (inr tt, s1) ->
  exists line st1 st2 w,
    s1 = mkCtx (set_state STARTING (self s))
           (mkSession w
              (journal (world s) ++
               [inr (SshRunUnchecked line (get_ssh_flags false (self s)), inr st1);
                inr (SshReset, inr st2)]))
           (trace s ++ [(Log "rebooting...", inr EmptyString)]).
Proof.
  unfold_L. cbn [self world trace inner journal].
  destruct (perform_more (SshRunUnchecked _ _) _) as [[e|status] w1]; [discriminate|].
  cbn [fst snd self world trace inner journal].
  destruct (perform_more SshReset w1) as [[e2|z] w2]; [discriminate|].
  intros [= <-]. rewrite <- app_assoc. eauto.
Qed.

(** Property X22.  A [reboot_sync] that returns has sent the reboot
    command, reset the connection, waited for the port of the machine to
    close and then to open, in this order, and left the machine [UP] with
    both ping flags set, whatever the state was before.  [send_keys] then
    ran in state [UP]: unless keys are stored on the machine, the
    readiness command was issued and succeeded, also for a machine that
    was in [RESCUE]; with keys stored on the machine nothing more was
    sent.  Any later [wait_for_ssh] is a no-op. *)
Theorem reboot_sync_outcome hard (s s' : ctx (session World)) :
  reboot_sync perform perform_more get_ssh_name hard s = (inr tt, s') ->
  self s' = marked_up (self s) /\
  (exists host line st1 st2 st3 st4 rest,
     get_ssh_name (set_state STARTING (self s)) = inr host /\
     journal (world s') =
       journal (world s) ++
       [inr (SshRunUnchecked line (get_ssh_flags false (self s)), inr st1);
        inr (SshReset, inr st2);
        inr (WaitForTcpPortOn host (ssh_port (self s)) false, inr st3);
        inr (WaitForTcpPortOn host (ssh_port (self s)) true, inr st4)] ++ rest /\
     Forall (fun en => exists ev, en = inl ev) rest /\
     (store_keys_on_machine (self s) = true -> rest = []) /\
     (store_keys_on_machine (self s) = false ->
      exists pre out, rest = pre ++ [inl (SshRun false KeysDone, inr out)])) /\
  forall check, wait_for_ssh (perform_in perform) check s' = (inr tt, s').
Proof.
  unfold reboot_sync.
  destruct (reboot perform_more hard s) as [[e|[]] s1] eqn:Hrb.
  { erewrite bind_raise by exact Hrb. discriminate. }
  erewrite bind_ok by exact Hrb.
  apply reboot_ok in Hrb as (line & st1 & st2 & w & ->).
  repeat progress unfold call_more, ssh_name, log, get_self, modify_self, ret, mret, mbind,
    M_ret, M_bind.
  cbn [self world trace inner journal].
  destruct (get_ssh_name (set_state STARTING (self s))) as [e|host] eqn:Hname;
    [discriminate|].
  cbn [ssh_port set_state].
  destruct (perform_more (WaitForTcpPortOn host (ssh_port (self s)) false) w)
    as [[e|st3] w3]; [discriminate|].
  cbn [self world trace inner journal]. rewrite Hname. cbn [ssh_port set_state].
  destruct (perform_more (WaitForTcpPortOn host (ssh_port (self s)) true) w3)
    as [[e|st4] w4]; [discriminate|].
  cbn [self world trace inner journal].
  match goal with |- send_keys _ ?c = _ -> _ =>
    pose proof (send_keys_session c) as (Hself & rest & Hj & Hrest & Hskip & Hdone);
    destruct (send_keys (perform_in perform) c) as [r s2] eqn:Hsend
  end.
  cbn [fst snd self world trace inner journal] in *.
  intros [= -> ->].
  assert (self s' = marked_up (self s)) as Hs'.
  { rewrite Hself. destruct (self s). reflexivity. }
  split; [exact Hs'|]. split.
  - exists host, line, st1, st2, st3, st4, rest.
    split; [reflexivity|]. split; [rewrite Hj, <- !app_assoc; reflexivity|].
    split; [exact Hrest|]. split.
    + intros Hsk. apply Hskip. right. exact Hsk.
    + intros Hsk. apply Hdone; [discriminate|exact Hsk|reflexivity].
  - intros check. unfold wait_for_ssh. erewrite bind_ok by reflexivity.
    rewrite Hs'. cbn. rewrite orb_true_r. reflexivity.
Qed.

End LifecycleFacts.

(** * Further facts in the reference environment *)

Section RemoteFacts.
Import StrFacts ShFacts Posix.

(** The final path of a key named [.k.tmp] is the temporary path of the
    key [k] in the same directory. *)
Lemma hidden_name d k : outfile_of d ("." +:+ k +:+ ".tmp") = tmp_outfile_of d k.
Proof. reflexivity. Qed.

Lemma well_formed_dir e m k opts d :
  well_formed e m (k, opts) -> dest_dir opts = Some d ->
  Sh.component k = true /\ Sh.is_path d = true /\
  exists dd, opts !! "destDir" = Some dd /\ d = Py.rstrip "/" dd.
Proof.
  intros (Hk & (d0 & Hd0 & Hp) & _) Hd. cbn [fst snd] in *.
  assert (d0 = d) as -> by congruence.
  split; [exact Hk|]. split; [exact Hp|].
  unfold dest_dir in Hd. destruct (opts !! "destDir") as [dd|]; [|discriminate].
  injection Hd as <-. eauto.
Qed.

(** Property X23.  A key named [.k.tmp] is lost to the key [k] of the
    same directory.  In the reference environment, when [send_keys]
    processes a well-formed key [.k.tmp] and then a well-formed key [k]
    with the same [destDir], on a machine laid out for them, the call
    returns normally, the file of [k] is in place, and the file of
    [.k.tmp] is gone: its final path is the temporary path of [k]. *)
Theorem send_keys_hidden_name_collision m e k o1 o2 d :
  state m <> RESCUE -> store_keys_on_machine m = false ->
  link_budget e = None -> "root" ∈ passwd e -> "keys" ∈ groups e ->
  Sh.ordinary_mode (upload_mode e) = true ->
  keys m = [("." +:+ k +:+ ".tmp", o1); (k, o2)] ->
  dest_dir o1 = Some d -> dest_dir o2 = Some d ->
  well_formed e m ("." +:+ k +:+ ".tmp", o1) -> well_formed e m (k, o2) ->
  staged e (keys m) ->
  exists s' F,
    exec (send_keys perform) m e = (inr tt, s') /\
    remote_files (world s') !! outfile_of d ("." +:+ k +:+ ".tmp") = None /\
    provisioned_file e o2 = Some F /\
    remote_files (world s') !! outfile_of d k = Some F.
Proof.
  intros Hst Hsk Hlink Hroot Hkeys Hord Hks Hd1 Hd2 Hwf1 Hwf2 Hlay.
  assert (resolves e "root" "keys" = true) as Hrk by (apply resolves_spec; auto).
  destruct (well_formed_dir _ _ _ _ _ Hwf1 Hd1) as (Hk1 & Hpd & dd1 & Hdd1 & Hed1).
  destruct (well_formed_dir _ _ _ _ _ Hwf2 Hd2) as (Hk2 & _ & dd2 & Hdd2 & Hed2).
  destruct Hwf1 as (_ & _ & _ & [F1 HF1] & Hkf1).
  pose proof Hwf2 as (_ & _ & _ & [F2 HF2] & Hkf2). cbn [snd] in *.
  set (h := "." +:+ k +:+ ".tmp") in *.
  set (dirs := key_dirs (keys m) ++ ["/run/keys"]) in *.
  set (paths := key_paths (keys m) ++ ["/run/keys/done"]) in *.
  unfold staged in Hlay. fold dirs paths in Hlay.
  assert (d ∈ dirs) as Hdin.
  { subst dirs. rewrite Hks. unfold key_dirs. cbn [omap list_omap fst snd].
    rewrite Hd1. left. }
  assert (forall q, q ∈ [outfile_of d h; tmp_outfile_of d h; outfile_of d k;
                          tmp_outfile_of d k] -> q ∈ paths) as Hpin.
  { intros q Hq. subst paths. rewrite Hks. unfold key_paths, dest_path, tmp_path.
    cbn [mbind list_bind fst snd]. rewrite Hd1, Hd2. cbn [fmap option_fmap option_map].
    cbn [option_list app]. apply elem_of_app. left.
    repeat (apply elem_of_cons in Hq as [->|Hq]; [repeat first [by left|right]|]).
    by apply elem_of_nil in Hq. }
  pose proof Hlay as [Hdirs Hpaths]. rewrite Forall_forall in Hdirs, Hpaths.
  destruct (Hpaths _ (Hpin (outfile_of d h) ltac:(left))) as [Hdo1 _].
  destruct (Hpaths _ (Hpin (tmp_outfile_of d h) ltac:(right; left))) as [Hdt1 _].
  pose proof (Hdirs d Hdin) as Hready.
  rewrite Hed1 in Hpd, Hready, Hdo1, Hdt1.
  destruct (send_key_posix m e [] h o1 dd1 F1 Hlink Hst Hrk Hord Hk1 Hdd1 Hpd Hready Hdo1
              Hdt1 HF1 Hkf1)
    as (e1 & tr1 & c1 & Hrun1 & _ & Hfs1 & Hloc1 & Hst1 & Hd1e & Hd1q & _).
  rewrite <- Hed1 in *.
  assert (laid_out e1 dirs paths) as Hlay1.
  { apply (laid_out_step e e1 dirs paths [d] [outfile_of d h; tmp_outfile_of d h] Hlay).
    - intros q ->%list_elem_of_singleton. exact Hdin.
    - intros q Hq. apply Hpin.
      apply elem_of_cons in Hq as [->|Hq]; [left|].
      apply list_elem_of_singleton in Hq as ->. right. left.
    - intros q Hq. destruct (decide (q = d)) as [->|Hne]; [exact Hd1e|].
      rewrite Hd1q by exact Hne. exact Hq.
    - intros q Hq. apply Hd1q. intros ->. apply Hq. left.
    - intros q Hq. apply not_elem_of_cons in Hq as [Hqa Hq].
      apply not_elem_of_cons in Hq as [Hqb _]. rewrite Hfs1.
      rewrite lookup_insert_ne by congruence.
      rewrite !lookup_delete_ne by congruence. reflexivity. }
  assert (link_budget e1 = None) as Hlink1
    by (destruct Hst1 as (_&_&_&_&_&_&->&_); exact Hlink).
  assert (resolves e1 "root" "keys" = true) as Hrk1
    by (rewrite (same_static_resolves e e1) by exact Hst1; exact Hrk).
  assert (Sh.ordinary_mode (upload_mode e1) = true) as Hord1
    by (destruct Hst1 as (_&_&->&_); exact Hord).
  assert (provisioned_file e1 o2 = Some F2) as HF2'.
  { rewrite <- HF2. apply (provisioned_file_stable m); [exact Hst1| |exact Hkf2].
    intros f Hf. rewrite Hloc1, lookup_delete_ne, lookup_insert_ne by congruence.
    reflexivity. }
  pose proof Hlay1 as [Hdirs1 Hpaths1]. rewrite Forall_forall in Hdirs1, Hpaths1.
  destruct (Hpaths1 _ (Hpin (outfile_of d k) ltac:(right; right; left))) as [Hdo2 _].
  destruct (Hpaths1 _ (Hpin (tmp_outfile_of d k) ltac:(right; right; right; left)))
    as [Hdt2 _].
  pose proof (Hdirs1 d Hdin) as Hready1.
  rewrite Hed2 in Hpd, Hready1, Hdo2, Hdt2.
  destruct (send_key_posix m e1 tr1 k o2 dd2 F2 Hlink1 Hst Hrk1 Hord1 Hk2 Hdd2 Hpd Hready1
              Hdo2 Hdt2 HF2' Hkf2)
    as (e2 & tr2 & c2 & Hrun2 & _ & Hfs2 & _ & Hst2 & Hd2e & Hd2q & _).
  rewrite <- Hed2 in *.
  assert (laid_out e2 dirs paths) as Hlay2.
  { apply (laid_out_step e1 e2 dirs paths [d] [outfile_of d k; tmp_outfile_of d k] Hlay1).
    - intros q ->%list_elem_of_singleton. exact Hdin.
    - intros q Hq. apply Hpin.
      apply elem_of_cons in Hq as [->|Hq]; [right; right; left|].
      apply list_elem_of_singleton in Hq as ->. right. right. right. left.
    - intros q Hq. destruct (decide (q = d)) as [->|Hne]; [exact Hd2e|].
      rewrite Hd2q by exact Hne. exact Hq.
    - intros q Hq. apply Hd2q. intros ->. apply Hq. left.
    - intros q Hq. apply not_elem_of_cons in Hq as [Hqa Hq].
      apply not_elem_of_cons in Hq as [Hqb _]. rewrite Hfs2.
      rewrite lookup_insert_ne by congruence.
      rewrite !lookup_delete_ne by congruence. reflexivity. }
  assert (link_budget e2 = None) as Hlink2
    by (destruct Hst2 as (_&_&_&_&_&_&->&_); exact Hlink1).
  assert (resolves e2 "root" "keys" = true) as Hrk2
    by (rewrite (same_static_resolves e1 e2) by exact Hst2; exact Hrk1).
  pose proof Hlay2 as [Hdirs2 Hpaths2]. rewrite Forall_forall in Hdirs2, Hpaths2.
  assert (dir_ready e2 "/run/keys") as Hrun_keys.
  { apply Hdirs2. subst dirs. apply elem_of_app. right. left. }
  assert (remote_dirs e2 !! "/run/keys/done" = None) as Hdone2.
  { apply Hpaths2. subst paths. apply elem_of_app. right. left. }
  destruct (keys_done_posix e2 Hrun_keys Hrk2 Hdone2) as (ds' & Hdone & _).
  eexists _, F2. split.
  { unfold exec, send_keys. erewrite bind_ok by reflexivity. cbn [self].
    rewrite bool_decide_eq_false_2 by exact Hst. rewrite Hsk.
    unfold get_keys. erewrite bind_ok by reflexivity. cbn [self]. rewrite Hks.
    cbn [for_each].
    erewrite bind_ok; [|erewrite bind_ok by exact Hrun1;
                        erewrite bind_ok by exact Hrun2; reflexivity].
    erewrite bind_ok by (apply run_command_posix; [exact Hlink2|exact Hst|exact Hdone]).
    reflexivity. }
  cbn [world remote_files with_remote]. rewrite Hfs2. subst h. rewrite hidden_name.
  set (o := outfile_of d k).
  set (t := tmp_outfile_of d k).
  assert (t <> o) as Hto by apply tmp_outfile_ne.
  assert (t <> "/run/keys/done") as Htd.
  { apply (tmp_path_not_done k o2). unfold tmp_path. rewrite Hd2. reflexivity. }
  split; [|split; [exact HF2|]].
  - rewrite touch_lookup_ne by exact Htd.
    rewrite lookup_insert_ne by congruence. apply lookup_delete_eq.
  - apply touch_lookup_Some. apply lookup_insert_eq.
Qed.

(** Property X24.  What a successful [send_keys] leaves behind in the
    reference environment, for well-formed keys with distinct paths on a
    machine laid out for them: the machine object is unchanged; every
    remote file other than the paths of the keys and [/run/keys/done] is
    as before; no temporary path of a key exists; [/run/keys/done]
    exists; and every local file other than the scratch file is as
    before. *)
Theorem send_keys_frame m e :
  state m <> RESCUE -> store_keys_on_machine m = false ->
  link_budget e = None -> "root" ∈ passwd e -> "keys" ∈ groups e ->
  Sh.ordinary_mode (upload_mode e) = true ->
  Forall (well_formed e m) (keys m) -> NoDup (key_paths (keys m)) ->
  staged e (keys m) ->
  exists s',
    exec (send_keys perform) m e = (inr tt, s') /\
    self s' = m /\
    (forall q, q ∉ key_paths (keys m) -> q <> "/run/keys/done" ->
       remote_files (world s') !! q = remote_files e !! q) /\
    (forall k opts t, (k, opts) ∈ keys m -> tmp_path k opts = Some t ->
       remote_files (world s') !! t = None) /\
    is_Some (remote_files (world s') !! "/run/keys/done") /\
    (forall f, f <> scratch_of m -> local_files (world s') !! f = local_files e !! f).
Proof.
  intros Hst Hsk Hlink Hroot Hkeys Hord Hwf Hnd Hlay.
  destruct (send_keys_posix m e [] Hst Hsk Hlink Hroot Hkeys Hord Hwf Hnd Hlay)
    as (e' & tr' & fs & Hrun & _ & Hloc & _ & Hfs & Hframe & _ & Htmp & _).
  eexists. split; [exact Hrun|]. cbn [self world]. rewrite Hfs.
  split; [reflexivity|]. split; [|split; [|split; [|exact Hloc]]].
  - intros q Hq Hdone. rewrite touch_lookup_ne by exact Hdone. apply Hframe, Hq.
  - intros k opts t Hin Ht. rewrite touch_lookup_ne by exact (tmp_path_not_done _ _ _ Ht).
    eapply Htmp; eauto.
  - apply touch_is_Some.
Qed.

(** The ownership and mode command when the permissions close their
    quotes: the mode of the file they name is changed on the way. *)
Lemma chown_chmod_smuggled_posix e t u g p1 q p2 f G :
  Sh.is_path t = true -> Sh.is_name u = true -> Sh.is_name g = true ->
  Sh.octal_mode p1 = true -> Sh.is_path q = true -> Sh.octal_mode p2 = true ->
  q <> t ->
  remote_dirs e !! t = None -> remote_files e !! t = Some f ->
  Sh.ordinary_mode (mode f) = true ->
  remote_dirs e !! q = None -> remote_files e !! q = Some G ->
  let f1 := if resolves e u g then chowned u g f else f in
  exists e',
    exec_remote false (ChownChmod t u g (smuggled p1 q p2)) e = Some (true, EmptyString, e') /\
    remote_dirs e' = remote_dirs e /\
    remote_files e' = <[t := chmodded p2 f1]> (<[q := chmodded p1 G]> (remote_files e)) /\
    local_files e' = local_files e /\ link_budget e' = link_budget e.
Proof.
  intros Ht Hu Hg Hp1 Hq Hp2 Hqt Hdt Hf Hord Hdq HG f1.
  unfold exec_remote, run_line, ssh_command_line.
  rewrite (read_chown_chmod_smuggled t u g p1 q p2 (is_path_inert t Ht) (is_name_inert u Hu)
             (is_name_inert g Hg) (octal_mode_inert p1 Hp1) (is_path_inert q Hq)
             (octal_mode_inert p2 Hp2)).
  cbn [run].
  rewrite utility_getent_passwd by exact Hu. unfold silent at 1.
  subst f1. unfold resolves.
  destruct (bool_decide (u ∈ passwd e)) eqn:Hpw; cbn [andb].
  - rewrite utility_getent_group by exact Hg. unfold silent at 1.
    destruct (bool_decide (g ∈ groups e)) eqn:Hgr.
    + rewrite utility_chown by assumption. unfold resolves. rewrite Hpw, Hgr. cbn [andb].
      rewrite Hdt, Hf, Hord. unfold silent at 1.
      rewrite utility_chmod by assumption. cbn [remote_dirs remote_files with_remote].
      rewrite Hdq, lookup_insert_ne, HG by congruence. unfold silent at 1.
      rewrite utility_chmod by assumption. cbn [remote_dirs remote_files with_remote].
      rewrite Hdt, lookup_insert_ne, lookup_insert_eq by exact Hqt. unfold silent.
      eexists. split; [reflexivity|]. cbn [remote_dirs remote_files with_remote local_files
        link_budget].
      split; [reflexivity|]. split; [|split; reflexivity].
      rewrite (insert_insert_ne (remote_files e) q t) by congruence.
      rewrite insert_insert_eq. reflexivity.
    + rewrite utility_chmod by assumption. rewrite Hdq, HG. unfold silent at 1.
      rewrite utility_chmod by assumption. cbn [remote_dirs remote_files with_remote].
      rewrite Hdt, lookup_insert_ne, Hf by exact Hqt. unfold silent.
      eexists. split; [reflexivity|]. cbn. auto.
  - rewrite utility_chmod by assumption. rewrite Hdq, HG. unfold silent at 1.
    rewrite utility_chmod by assumption. cbn [remote_dirs remote_files with_remote].
    rewrite Hdt, lookup_insert_ne, Hf by exact Hqt. unfold silent.
    eexists. split; [reflexivity|]. cbn. auto.
Qed.

(** Property X30.  The permissions of a secret can reach another
    file.  The source puts the [permissions] field between single quotes
    as it is; for a value that closes them and names a file [q], the line
    the shell reads holds one more [chmod].  In the reference
    environment, for a key that is otherwise in order, on a working
    connection to a machine laid out for it, [send_keys] processes the
    key without error, publishes it with the mode the value ends in, and
    has given [q], a file that is no path of the key, the mode the value
    begins with. *)
Theorem send_key_permissions_reach m e tr k opts d u g p1 q p2 c G :
  link_budget e = None -> state m <> RESCUE ->
  "root" ∈ passwd e -> "keys" ∈ groups e ->
  Sh.ordinary_mode (upload_mode e) = true ->
  Sh.component k = true -> dest_dir opts = Some d -> Sh.is_path d = true ->
  laid_out e [d] [outfile_of d k; tmp_outfile_of d k] ->
  scratch_content e opts = Some c -> opts !! "keyFile" <> Some (scratch_of m) ->
  opts !! "user" = Some u -> Sh.is_name u = true ->
  opts !! "group" = Some g -> Sh.is_name g = true ->
  opts !! "permissions" = Some (smuggled p1 q p2) ->
  Sh.octal_mode p1 = true -> Sh.octal_mode p2 = true ->
  Sh.is_path q = true -> q <> outfile_of d k -> q <> tmp_outfile_of d k ->
  remote_dirs e !! q = None -> remote_files e !! q = Some G ->
  exists s',
    send_key perform k opts (mkCtx m e tr) = (inr tt, s') /\
    remote_files (world s') !! q = Some (chmodded p1 G) /\
    remote_files (world s') !! outfile_of d k = Some (published e c u g p2).
Proof.
  intros Hlink Hst Hroot Hkeys Hord Hk Hd Hpd Hlay Hc Hkf Hu Hnu Hg Hng Hp Hp1 Hp2 Hpq Hqo Hqt
    Hdq HG.
  unfold dest_dir in Hd. destruct (opts !! "destDir") as [dd|] eqn:Hdd; [|discriminate].
  injection Hd as Hd.
  set (o := outfile_of d k) in *. set (t := tmp_outfile_of d k) in *.
  destruct Hlay as [Hdirs Hpaths].
  apply Forall_cons in Hdirs as [Hready _].
  apply Forall_cons in Hpaths as [[Hdo _] Hpaths].
  apply Forall_cons in Hpaths as [[Hdt _] _].
  assert (resolves e "root" "keys" = true) as Hrk by (apply resolves_spec; auto).
  destruct (outfile_path d k Hpd Hk) as [Hpo Hparo]. fold o in Hpo, Hparo.
  destruct (tmp_outfile_path d k Hpd Hk) as [Hpt Hpart]. fold t in Hpt, Hpart.
  pose proof (tmp_outfile_ne d k) as Hne. fold o t in Hne.
  assert (o <> d) as Hod by apply child_ne.
  assert (t <> d) as Htd.
  { subst t. unfold tmp_outfile_of. intros H. apply (f_equal String.length) in H.
    rewrite !length_append in H. cbn in H. lia. }
  assert (q <> d) as Hqd.
  { intros ->. destruct Hready as [[x Hx]|[Hx _]]; congruence. }
  destruct (ensure_dir_posix d e Hpd Hready Hrk) as (ds1 & He1 & Hds1 & Hds1q).
  set (e1 := with_remote (remote_files e) ds1 [] e) in *.
  assert (scratch_content e1 opts = Some c) as Hc1 by exact Hc.
  destruct (write_scratch_posix k opts m e1 c Hc1 Hkf) as [ev Hws].
  set (e2 := with_local (<[scratch_of m := c]> (local_files e1)) e1) in *.
  assert (ds1 !! o = None) as Hdo1 by (rewrite Hds1q by exact Hod; exact Hdo).
  assert (ds1 !! t = None) as Hdt1 by (rewrite Hds1q by exact Htd; exact Hdt).
  assert (ds1 !! q = None) as Hdq1 by (rewrite Hds1q by exact Hqd; exact Hdq).
  set (fs3 := delete t (delete o (remote_files e))).
  set (e3 := with_remote fs3 ds1 [delete o (remote_files e); fs3] e2).
  assert (fs3 !! t = None) as Ht3 by (subst fs3; apply lookup_delete_eq).
  assert (fs3 !! q = Some G) as Hq3.
  { subst fs3. rewrite !lookup_delete_ne by congruence. exact HG. }
  set (up := mkFile c "root" "root" (upload_mode e)).
  assert (uploaded fs3 (upload_mode e) t c = up) as Hup.
  { unfold uploaded. rewrite Ht3. reflexivity. }
  set (e4 := with_remote (<[t := up]> fs3) ds1
               (scp_stages fs3 (upload_mode e) t c ++ [<[t := up]> fs3]) e3).
  destruct (chown_chmod_smuggled_posix e4 t u g p1 q p2 up G Hpt Hnu Hng Hp1 Hpq Hp2 Hqt Hdt1)
    as (e5 & He5 & Hds5 & Hfs5 & Hloc5 & Hlink5);
    [apply lookup_insert_eq|exact Hord|exact Hdq1|
     cbn [remote_files with_remote e4]; rewrite lookup_insert_ne by congruence; exact Hq3|].
  change (resolves e4 u g) with (resolves e u g) in Hfs5.
  assert (chmodded p2 (if resolves e u g then chowned u g up else up) = published e c u g p2)
    as HF1.
  { unfold published, chmodded, chowned. destruct (resolves e u g); reflexivity. }
  rewrite HF1 in Hfs5. set (F := published e c u g p2) in *.
  cbn [remote_files remote_dirs local_files link_budget with_remote with_local e4 e3 e2 e1]
    in Hds5, Hfs5, Hloc5, Hlink5.
  assert (remote_files e5 !! t = Some F) as Ht5 by (rewrite Hfs5; apply lookup_insert_eq).
  assert (remote_dirs e5 !! t = None) as Hdt5 by (rewrite Hds5; exact Hdt1).
  assert (remote_dirs e5 !! o = None) as Hdo5 by (rewrite Hds5; exact Hdo1).
  assert (is_Some (remote_dirs e5 !! Sh.parent o)) as Hpar5.
  { rewrite Hds5, Hparo. exact Hds1. }
  assert (link_budget e5 = None) as Hl5 by (rewrite Hlink5; exact Hlink).
  set (fs6 := <[o := F]> (delete t (remote_files e5))).
  set (e6 := with_remote fs6 (remote_dirs e5) [fs6] e5).
  eexists. split.
  { unfold send_key.
    erewrite bind_ok by reflexivity.
    erewrite bind_ok by reflexivity.
    cbn [self]. rewrite Hdd, Hd. fold o t.
    erewrite bind_ok by (apply run_command_posix; [exact Hlink|exact Hst|exact He1]).
    erewrite bind_ok by apply Hws.
    erewrite bind_ok by
      (apply run_command_posix; [exact Hlink|exact Hst|];
       apply (rm_stale_posix o t e2 Hpo Hpt Hdo1 Hdt1)).
    erewrite bind_ok.
    2:{ apply (upload_file_posix m e3 _ (scratch_of m) t c);
          [exact Hlink|apply lookup_insert_eq|exact Hpt|exact Hdt1|].
        cbn [remote_dirs e3 with_remote]. rewrite Hpart. exact Hds1. }
    cbn [remote_files upload_mode remote_dirs with_remote with_local e3 e2 e1].
    rewrite Hup. fold e1 e2. fold e3. fold e4.
    unfold getitem. rewrite Hu, Hg, Hp.
    erewrite bind_ok by reflexivity.
    erewrite bind_ok by reflexivity.
    erewrite bind_ok by reflexivity.
    erewrite bind_ok by (apply run_command_posix; [exact Hlink|exact Hst|exact He5]).
    erewrite bind_ok.
    2:{ apply run_command_posix; [exact Hl5|exact Hst|].
        apply (rename_posix e5 t o F Hpt Hpo Hdt5 Hdo5 Hne); [congruence|exact Hpar5|exact Ht5]. }
    fold fs6. fold e6.
    erewrite bind_ok.
    2:{ eapply os_remove_posix. cbn [local_files e6 with_remote]. rewrite Hloc5.
        apply lookup_insert_eq. }
    reflexivity. }
  cbn [world remote_files with_remote with_local e6]. subst fs6. split.
  - rewrite lookup_insert_ne, lookup_delete_ne, Hfs5 by congruence.
    rewrite lookup_insert_ne, lookup_insert_eq by congruence. reflexivity.
  - apply lookup_insert_eq.
Qed.

End RemoteFacts.

Section GuardFacts.
Import StrFacts.
Context {World : Type} (perform : action -> World -> (exn + string) * World).

(** Property X25.  The scratch file of a machine is private to it.
    Every local path [send_keys] writes, removes or uploads from is the
    scratch file of the machine, and that path differs from the scratch
    file of every machine of the same deployment (same temporary
    directory) that has another name. *)
Theorem send_keys_scratch_private (s : ctx World) (other : MachineState) :
  tempdir other = tempdir (self s) -> name other <> name (self s) ->
  exists seg,
    trace (send_keys perform s).2 = trace s ++ seg /\
    forall ev p, ev ∈ seg -> scratch_use ev.1 = Some p ->
      p = scratch_of (self s) /\ p <> scratch_of other.
Proof.
  intros Hdir Hname.
  assert (scratch_of (self s) <> scratch_of other) as Hne.
  { unfold scratch_of. rewrite Hdir. intros H.
    apply (inj (String.app (tempdir (self s)))) in H.
    apply (inj (String.app "/key-")) in H. congruence. }
  destruct (send_keys_events perform s) as (seg & Htr & Hseg).
  exists seg. split; [exact Htr|].
  rewrite Forall_forall in Hseg. intros ev p Hin Hp.
  assert (p = scratch_of (self s)) as ->; [|split; [reflexivity|exact Hne]].
  destruct (Hseg _ Hin) as [(k & opts & _ & Hev)|(r & ->)]; [|discriminate Hp].
  unfold key_event in Hev. destruct ev as [a r]. cbn [fst] in *.
  destruct a; cbn in Hp; try discriminate Hp.
  - destruct Hev as [-> _]. congruence.
  - destruct Hev as [-> _]. congruence.
  - destruct Hev as [-> _]. congruence.
  - destruct Hev as (f & -> & _). cbn in Hp. congruence.
  - congruence.
Qed.

(** The first event of a key is its announcement. *)
Lemma send_key_announces k opts (s : ctx World) :
  exists rest,
    trace (send_key perform k opts s).2 =
      trace s ++ (Log ("uploading key ‘" +:+ k +:+ "’..."), inr EmptyString) :: rest.
Proof.
  destruct (send_key perform k opts s) as [r s'] eqn:H.
  repeat progress unfold send_key, write_scratch, run_command, upload_file, _logged_exec,
    getitem, get_keys, log, call, get_self, modify_self, raise, ret, mret, mbind,
    M_ret, M_bind in *.
  cbn in H.
  repeat (case_match; simplify_eq/=); rewrite <- ?app_assoc; cbn; eauto.
Qed.

(** [send_keys] past its guards does something. *)
Lemma send_keys_acts (s : ctx World) :
  state (self s) <> RESCUE -> store_keys_on_machine (self s) = false ->
  exists ev seg, trace (send_keys perform s).2 = trace s ++ ev :: seg.
Proof.
  intros Hst Hsk. unfold send_keys. erewrite bind_ok by reflexivity.
  rewrite bool_decide_eq_false_2 by exact Hst. rewrite Hsk.
  unfold get_keys. erewrite bind_ok by reflexivity.
  destruct (keys (self s)) as [|[k opts] ks] eqn:Hks.
  - cbn [for_each]. erewrite bind_ok by reflexivity.
    repeat progress unfold run_command, call, get_self, ret, mret, mbind, M_ret, M_bind.
    cbn [self world trace].
    destruct (perform _ _) as [[e|out] w']; cbn [snd trace]; eauto.
  - destruct (send_key_announces k opts s) as (rest & Hk).
    destruct (for_each_key_events perform ((k, opts) :: ks) s) as (seg & Htr & _).
    cbn [for_each] in *.
    destruct (send_key perform k opts s) as [[e|[]] s1] eqn:Hkey; cbn [snd] in *.
    + erewrite bind_raise by (erewrite bind_raise by exact Hkey; reflexivity).
      cbn [snd]. eauto.
    + destruct (for_each_key_events perform ks s1) as (seg1 & Htr1 & _).
      destruct (for_each ks _ s1) as [[e|[]] s2] eqn:Hloop; cbn [snd] in *.
      * erewrite bind_raise by (erewrite bind_ok by exact Hkey; exact Hloop).
        cbn [snd]. rewrite Htr1, Hk, <- app_assoc. cbn [app]. eauto.
      * erewrite bind_ok by (erewrite bind_ok by exact Hkey; exact Hloop).
        repeat progress unfold run_command, call, get_self, ret, mret, mbind, M_ret, M_bind.
        cbn [self world trace].
        destruct (perform _ _) as [[e|out] w']; cbn [snd trace];
          rewrite Htr1, Hk, <- !app_assoc; cbn [app]; eauto.
Qed.

(** Property X26.  A health check lifts the rescue guard of
    [send_keys].  On a machine in [RESCUE] whose keys are not stored on
    the machine, [send_keys] is a no-op; once [_check] has found the
    machine reachable, the state is [UP] and the same call acts: it
    performs at least one action. *)
Theorem check_lifts_rescue_guard res (s : ctx World) out0 w1 out w2 :
  state (self s) = RESCUE -> store_keys_on_machine (self s) = false ->
  perform (SshRun true CatLoadavg) (world s) = (inr out0, w1) ->
  3 <= List.length (load_fields out0) ->
  perform (SshRun false SystemctlList) w1 = (inr out, w2) ->
  send_keys perform s = (inr tt, s) /\
  exists res' s',
    _check perform res s = (inr res', s') /\
    state (self s') = UP /\
    exists ev seg, trace (send_keys perform s').2 = trace s' ++ ev :: seg.
Proof.
  intros Hst Hsk Hp Hlen Hl.
  split.
  { unfold send_keys. erewrite bind_ok by reflexivity.
    rewrite bool_decide_eq_true_2 by exact Hst. reflexivity. }
  assert (get_load_avg perform s =
            (inr (Some (load_fields out0)),
             mkCtx (self s) w1 (trace s ++ [(SshRun true CatLoadavg, inr out0)]))) as Hload.
  { rewrite get_load_avg_eval. rewrite bool_decide_eq_true_2 by exact Hst.
    rewrite Hp. cbn [fst snd]. apply Nat.leb_le in Hlen. rewrite Hlen. reflexivity. }
  rewrite (_check_reachable perform res s _ _ out w2 Hload Hl). cbn [self trace].
  match goal with |- context [check_lines perform ?o ?r ?c] =>
    destruct (check_lines_facts perform o r c) as (res' & w' & probes & Hrun & _)
  end.
  cbn [self world trace] in Hrun. rewrite Hrun.
  eexists _, _. split; [reflexivity|]. cbn [self]. split; [reflexivity|].
  apply send_keys_acts; cbn; [discriminate|exact Hsk].
Qed.

End GuardFacts.

Section InterruptFacts.
Import StrFacts ShFacts Posix.

Lemma run_command_budget m e tr c n out e' :
  link_budget e = Some (S n) -> state m <> RESCUE ->
  exec_remote false c (use_link e) = Some (true, out, e') ->
  run_command perform c (mkCtx m e tr) =
    (inr out, mkCtx m e' (tr ++ [(SshRun false c, inr out)])).
Proof.
  intros Hl Hst Hx.
  repeat progress unfold run_command, call, get_self, ret, mret, mbind, M_ret, M_bind.
  cbn. unfold link_up. rewrite Hl.
  rewrite bool_decide_eq_false_2 by exact Hst. rewrite Hx. reflexivity.
Qed.

Lemma upload_file_down m e tr src tgt :
  link_budget e = Some 0 ->
  upload_file perform src tgt (mkCtx m e tr) =
    (inl CommandFailed, mkCtx m e (tr ++ [(Scp src tgt, inl CommandFailed)])).
Proof. intros Hl. unfold upload_file, call. cbn. unfold link_up. rewrite Hl. reflexivity. Qed.

(** Property X27.  A connection lost between the removal of the stale
    files and the upload costs the key.  In the reference environment,
    when the link carries two more remote operations, the iteration for a
    key with a plain name, a destination the machine is laid out for and
    a source other than the scratch file itself raises [CommandFailed]
    from the upload; the final path and
    the temporary path are then absent on the machine, whatever was there
    before, and the secret is still in the scratch file on the local
    disk. *)
Theorem send_key_interrupted m e tr k opts d c :
  link_budget e = Some 2 -> state m <> RESCUE ->
  "root" ∈ passwd e -> "keys" ∈ groups e ->
  Sh.component k = true -> dest_dir opts = Some d -> Sh.is_path d = true ->
  laid_out e [d] [outfile_of d k; tmp_outfile_of d k] ->
  scratch_content e opts = Some c -> opts !! "keyFile" <> Some (scratch_of m) ->
  exists s',
    send_key perform k opts (mkCtx m e tr) = (inl CommandFailed, s') /\
    self s' = m /\
    remote_files (world s') !! outfile_of d k = None /\
    remote_files (world s') !! tmp_outfile_of d k = None /\
    local_files (world s') !! scratch_of m = Some c.
Proof.
  intros Hl Hst Hroot Hkeys Hk Hd Hpd Hlay Hc Hkf.
  unfold dest_dir in Hd. destruct (opts !! "destDir") as [dd|] eqn:Hdd; [|discriminate].
  injection Hd as Hd.
  set (o := outfile_of d k). set (t := tmp_outfile_of d k).
  destruct Hlay as [Hdirs Hpaths].
  apply Forall_cons in Hdirs as [Hready _].
  apply Forall_cons in Hpaths as [[Hdo _] Hpaths].
  apply Forall_cons in Hpaths as [[Hdt _] _]. fold o in Hdo. fold t in Hdt.
  assert (resolves e "root" "keys" = true) as Hrk by (apply resolves_spec; auto).
  destruct (outfile_path d k Hpd Hk) as [Hpo _]. fold o in Hpo.
  destruct (tmp_outfile_path d k Hpd Hk) as [Hpt _]. fold t in Hpt.
  assert (o <> d) as Hod by apply child_ne.
  assert (t <> d) as Htd.
  { subst t. unfold tmp_outfile_of. intros H. apply (f_equal String.length) in H.
    rewrite !length_append in H. cbn in H. lia. }
  destruct (ensure_dir_posix d (use_link e) Hpd Hready Hrk) as (ds1 & Hmk & _ & Hds1q).
  cbn [remote_files remote_dirs use_link with_budget] in Hmk, Hds1q.
  set (e1 := with_remote (remote_files e) ds1 [] (use_link e)) in *.
  assert (scratch_content e1 opts = Some c) as Hc1 by exact Hc.
  destruct (write_scratch_posix k opts m e1 c Hc1 Hkf) as [ev Hw].
  set (e2 := with_local (<[scratch_of m := c]> (local_files e1)) e1) in *.
  assert (remote_dirs (use_link e2) !! o = None) as Hdo2.
  { cbn. rewrite Hds1q by exact Hod. exact Hdo. }
  assert (remote_dirs (use_link e2) !! t = None) as Hdt2.
  { cbn. rewrite Hds1q by exact Htd. exact Hdt. }
  eexists. split.
  { unfold send_key. erewrite bind_ok by reflexivity. erewrite bind_ok by reflexivity.
    cbn [self]. rewrite Hdd, Hd. fold o t.
    erewrite bind_ok by (apply (run_command_budget _ _ _ _ 1); [exact Hl|exact Hst|exact Hmk]).
    erewrite bind_ok by apply Hw.
    erewrite bind_ok by
      (apply (run_command_budget _ _ _ _ 0);
       [cbn; unfold use_link; cbn; rewrite Hl; reflexivity|exact Hst|];
       apply (rm_stale_posix o t (use_link e2) Hpo Hpt Hdo2 Hdt2)).
    erewrite bind_raise; [reflexivity|].
    apply upload_file_down. cbn. unfold use_link. cbn. rewrite Hl. reflexivity. }
  cbn [self world]. split; [reflexivity|].
  cbn.
  split; [|split].
  - rewrite lookup_delete_ne by apply tmp_outfile_ne. apply lookup_delete_eq.
  - apply lookup_delete_eq.
  - apply lookup_insert_eq.
Qed.

End InterruptFacts.

(** * Further instances *)

Section FurtherInstances.
Import Sample Posix Lab.

Ltac decide_by_vm :=
  match goal with
  | |- ?P => apply (@bool_decide_unpack P _); vm_compute; exact I
  end.

Ltac sample_key :=
  split; [reflexivity|];
  split; [eexists; split; reflexivity|];
  split; [intros H; first [exfalso; vm_compute in H; discriminate H|vm_compute; reflexivity]|];
  split; [eexists; vm_compute; reflexivity|];
  vm_compute; discriminate.

Ltac sample_dir :=
  first [ left; vm_compute; eexists; reflexivity
        | right; split; [vm_compute; reflexivity|vm_compute; eexists; reflexivity] ].

Ltac sample_layout :=
  split; repeat (apply Forall_cons; split); try (by apply Forall_nil);
  first [ sample_dir | split; [vm_compute; reflexivity|decide_by_vm] ].

Lemma send_keys_first_error_witness :
  let s := start three_keys host in
  let run := send_keys perform s in
  state three_keys <> RESCUE /\ store_keys_on_machine three_keys = false /\
  run.1 = inl (Exception "Key 'bad' has no 'destDir' specified.") /\
  remote_files (world run.2) !! "/run/keys/db" = Some (mkFile "s3cr3t" "alice" "keys" "0640") /\
  remote_files (world run.2) !! "/run/keys/tls" = None /\
  remote_files (world run.2) !! "/run/keys/done" = None.
Proof.
  intros s run. subst run.
  split; [discriminate|]. split; [reflexivity|].
  set (loop := for_each [("db", text_opts)] (fun '(k, opts) => send_key perform k opts) s).
  assert (loop.1 = inr tt) as H1 by (vm_compute; reflexivity).
  set (fail := send_key perform "bad" no_destdir_opts loop.2).
  assert (fail.1 = inl (Exception "Key 'bad' has no 'destDir' specified.")) as H2
    by (vm_compute; reflexivity).
  destruct (send_keys_first_error perform [("db", text_opts)] "bad" no_destdir_opts
              [("tls", stranger_opts)] (Exception "Key 'bad' has no 'destDir' specified.")
              s loop.2 fail.2) as [Hrun _].
  - discriminate.
  - reflexivity.
  - reflexivity.
  - fold loop. rewrite <- H1. destruct loop. reflexivity.
  - fold fail. rewrite <- H2. destruct fail. reflexivity.
  - rewrite Hrun. cbn [fst snd]. split; [reflexivity|]. vm_compute. repeat split.
Defined.

Lemma send_key_destdir_slashes_witness :
  let s := start one_key host in
  text_opts !! "destDir" = Some "/run/keys/" /\
  send_key perform "db" (<["destDir" := "/run/keys///"]> text_opts) s =
  send_key perform "db" text_opts s.
Proof.
  intros s. split; [reflexivity|].
  exact (send_key_destdir_slashes perform "db" text_opts "/run/keys/" 2 s eq_refl).
Defined.

Lemma wait_for_ssh_settled_witness :
  let s := start fresh_machine host in
  let s1 := (wait_for_ssh perform true s).2 in
  wait_for_ssh perform true s = (inr tt, s1) /\
  wait_for_ssh perform true s1 = (inr tt, s1) /\
  wait_for_ssh perform false s1 = (inr tt, s1).
Proof.
  intros s s1. split; [reflexivity|].
  destruct (wait_for_ssh_settled perform true s s1 eq_refl) as (H1 & H2 & _). auto.
Defined.

Lemma wait_for_ssh_failure_witness :
  let s := mkCtx fresh_machine tt [] in
  let run := wait_for_ssh unplugged false s in
  run.1 = inl (Exception "timed out") /\ self run.2 = fresh_machine /\
  state (self run.2) = STARTING /\ ssh_pinged (self run.2) = false.
Proof.
  intros s run.
  destruct (wait_for_ssh_failure unplugged false s run.2 (Exception "timed out") eq_refl)
    as [Hself _].
  split; [reflexivity|]. split; [exact Hself|]. rewrite Hself. split; reflexivity.
Defined.

Lemma check_unreachable_report_witness :
  let s := start (machine UP false []) offline in
  (perform (SshRun false CatLoadavg) offline).1 = inl SSHConnectionFailed /\
  exists s',
    check perform s = (inr (set_is_reachable false CheckResult_init), s') /\
    state (self s') = UNREACHABLE /\ ssh_pinged (self s') = true.
Proof.
  intros s. split; [reflexivity|].
  destruct (check_unreachable_report perform CheckResult_init s)
    as (s' & Hrun & Hst & Hp & _); [left; reflexivity|].
  exists s'. split; [exact Hrun|]. split; [exact Hst|exact Hp].
Defined.

Lemma check_reachable_report_witness :
  let s := start rescued busy in
  exists res' s',
    check perform s = (inr res', s') /\
    state (self s') = UP /\ is_reachable res' = Some true /\
    load res' = Some ["0.10"; "0.20"; "0.30"; "1/200"; "1234"] /\
    in_progress_units res' = Some ["baz.service"].
Proof.
  intros s.
  destruct (check_reachable_report perform CheckResult_init s
              "0.10 0.20 0.30 1/200 1234" busy listing busy)
    as (res' & s' & Hrun & _ & Hst & _ & _ & Hr & Hl & _ & Hip & _ & _).
  - reflexivity.
  - vm_compute. lia.
  - reflexivity.
  - exists res', s'. split; [exact Hrun|]. split; [exact Hst|]. split; [exact Hr|].
    split; [exact Hl|]. rewrite Hip. vm_compute. reflexivity.
Defined.

Lemma check_listing_failure_witness :
  let s := start rescued flaky in
  let run := check perform s in
  run.1 = inl SSHConnectionFailed /\ state (self run.2) = UP /\
  ssh_pinged (self run.2) = true.
Proof.
  intros s run. subst run. unfold check.
  rewrite (check_listing_failure perform CheckResult_init s
             "0.10 0.20 0.30 1/200 1234" (with_budget (Some 0) host)
             SSHConnectionFailed (with_budget (Some 0) host)).
  - repeat split.
  - reflexivity.
  - vm_compute. lia.
  - reflexivity.
Defined.

Lemma check_healthy_witness :
  let s := start (machine STARTING false []) host in
  exists res' s',
    check perform s = (inr res', s') /\
    failed_units res' = Some [] /\ in_progress_units res' = Some [] /\
    state (self s') = UP /\ List.length (trace s') = 2.
Proof.
  intros s. unfold check.
  destruct (check_healthy perform CheckResult_init s
              "0.10 0.20 0.30 1/200 1234" host EmptyString host) as (Hrun & Hf & Hp).
  7:{ rewrite Hrun. eexists _, _. split; [reflexivity|]. repeat split. }
  - reflexivity.
  - vm_compute. lia.
  - reflexivity.
  - reflexivity.
  - reflexivity.
  - reflexivity.
Defined.

Lemma MachineDefinition_keys_witness :
  exists d,
    MachineDefinition.__init__ decimal xml = inr d /\
    NoDup (MachineDefinition.keys d).*1 /\
    (Some "db" ∈ (MachineDefinition.keys d).*1) /\
    dict_get (Some "db") (MachineDefinition.keys d) ≫= (fun opts => opts !! "text")
      = Some "second" /\
    dict_get (Some "db") (MachineDefinition.keys d) ≫= (fun opts => opts !! "keyCmd")
      = None.
Proof.
  destruct (MachineDefinition.__init__ decimal xml) as [err|d] eqn:Hinit;
    [vm_compute in Hinit; discriminate Hinit|].
  destruct (MachineDefinition_keys decimal xml d Hinit) as (Hnd & Hnames & Hget & _).
  exists d. split; [reflexivity|]. split; [exact Hnd|]. split; [|split].
  - apply Hnames. exists (key "db" "first"). split; [|reflexivity].
    vm_compute. left.
  - rewrite Hget. vm_compute. reflexivity.
  - rewrite Hget. vm_compute. reflexivity.
Defined.


Lemma reboot_sync_outcome_witness :
  let s := session0 rescued host in
  let run := reboot_sync perform grudging address false s in
  run.1 = inr tt /\ state (self run.2) = UP /\
  exists pre out,
    journal (world run.2) = pre ++ [inl (SshRun false KeysDone, inr out)].
Proof.
  intros s run.
  assert (run.1 = inr tt) as Hrun by (vm_compute; reflexivity).
  destruct (reboot_sync_outcome perform grudging address false s run.2)
    as (Hself & (host' & line & st1 & st2 & st3 & st4 & rest & _ & Hj & _ & _ & Hdone) & _).
  { rewrite <- Hrun. apply surjective_pairing. }
  split; [exact Hrun|]. split; [rewrite Hself; reflexivity|].
  destruct (Hdone eq_refl) as (pre & out & ->).
  eexists _, out. rewrite Hj. cbn [journal world s session0].
  rewrite app_nil_l, app_assoc. reflexivity.
Defined.

Lemma send_keys_hidden_name_collision_witness :
  exists s',
    exec (send_keys perform) shadowed host = (inr tt, s') /\
    remote_files (world s') !! "/run/keys/.db.tmp" = None /\
    remote_files (world s') !! "/run/keys/db"
      = Some (mkFile "hunter2" "root" "root" "0640").
Proof.
  assert ("root" ∈ passwd host) as Hr by decide_by_vm.
  assert ("keys" ∈ groups host) as Hk by decide_by_vm.
  destruct (send_keys_hidden_name_collision shadowed host "db" text_opts
              (<["text" := "hunter2"]> stranger_opts) "/run/keys")
    as (s' & F & Hrun & Hgone & HF & Hthere).
  - discriminate.
  - reflexivity.
  - reflexivity.
  - exact Hr.
  - exact Hk.
  - reflexivity.
  - reflexivity.
  - reflexivity.
  - reflexivity.
  - sample_key.
  - sample_key.
  - sample_layout.
  - exists s'. split; [exact Hrun|]. split; [exact Hgone|].
    etransitivity; [exact Hthere|]. vm_compute in HF. congruence.
Defined.

Lemma send_keys_frame_witness :
  exists s',
    exec (send_keys perform) two_keys host = (inr tt, s') /\
    remote_files (world s') !! "/etc/passwd" = remote_files host !! "/etc/passwd" /\
    remote_files (world s') !! "/run/keys/.db.tmp" = None /\
    is_Some (remote_files (world s') !! "/run/keys/done").
Proof.
  assert ("root" ∈ passwd host) as Hr by decide_by_vm.
  assert ("keys" ∈ groups host) as Hk by decide_by_vm.
  assert (Forall (well_formed host two_keys) (keys two_keys)) as Hwf.
  { repeat (apply Forall_cons; split); [sample_key|sample_key|by apply Forall_nil]. }
  assert (NoDup (key_paths (keys two_keys))) as Hnd by decide_by_vm.
  assert (staged host (keys two_keys)) as Hlay by sample_layout.
  destruct (send_keys_frame two_keys host) as (s' & Hrun & _ & Hframe & Htmp & Hdone & _);
    [discriminate|reflexivity|reflexivity|exact Hr|exact Hk|reflexivity|exact Hwf|exact Hnd
    |exact Hlay|].
  exists s'. split; [exact Hrun|]. split; [|split; [|exact Hdone]].
  - apply Hframe; [decide_by_vm|discriminate].
  - apply (Htmp "db" text_opts); [by left|reflexivity].
Defined.

Lemma send_keys_scratch_private_witness :
  let s := start one_key host in
  tempdir neighbour = tempdir one_key /\ name neighbour <> name one_key /\
  exists seg,
    trace (send_keys perform s).2 = trace s ++ seg /\
    forall ev p, ev ∈ seg -> scratch_use ev.1 = Some p ->
      p = "/tmp/nixops/key-web" /\ p <> "/tmp/nixops/key-db1".
Proof.
  intros s. split; [reflexivity|]. split; [discriminate|].
  apply (send_keys_scratch_private perform s neighbour); [reflexivity|discriminate].
Defined.

Lemma send_key_interrupted_witness :
  remote_files interrupted !! "/run/keys/db" = Some (mkFile "s3cr3t" "alice" "keys" "0640") /\
  exists s',
    send_key perform "db" text_opts (start one_key interrupted) = (inl CommandFailed, s') /\
    remote_files (world s') !! "/run/keys/db" = None /\
    local_files (world s') !! "/tmp/nixops/key-web" = Some "s3cr3t".
Proof.
  split; [vm_compute; reflexivity|].
  destruct (send_key_interrupted one_key interrupted [] "db" text_opts "/run/keys" "s3cr3t")
    as (s' & Hrun & _ & Ho & _ & Hloc).
  - reflexivity.
  - discriminate.
  - decide_by_vm.
  - decide_by_vm.
  - reflexivity.
  - reflexivity.
  - reflexivity.
  - sample_layout.
  - reflexivity.
  - discriminate.
  - exists s'. split; [exact Hrun|]. split; [exact Ho|exact Hloc].
Defined.

Lemma send_key_permissions_reach_witness :
  remote_files provisioned !! "/run/keys/db" = Some (mkFile "s3cr3t" "alice" "keys" "0640") /\
  reaching_opts !! "permissions" = Some "0666' '/run/keys/db'; chmod '0600" /\
  exists s',
    send_key perform "tls" reaching_opts (start one_key provisioned) = (inr tt, s') /\
    remote_files (world s') !! "/run/keys/db" = Some (mkFile "s3cr3t" "alice" "keys" "0666") /\
    remote_files (world s') !! "/run/keys/tls" = Some (mkFile "s3cr3t" "alice" "keys" "0600").
Proof.
  split; [vm_compute; reflexivity|]. split; [reflexivity|].
  destruct (send_key_permissions_reach one_key provisioned [] "tls" reaching_opts "/run/keys"
              "alice" "keys" "0666" "/run/keys/db" "0600" "s3cr3t"
              (mkFile "s3cr3t" "alice" "keys" "0640"))
    as (s' & Hrun & Hq & Ho).
  - vm_compute. reflexivity.
  - discriminate.
  - decide_by_vm.
  - decide_by_vm.
  - vm_compute. reflexivity.
  - reflexivity.
  - reflexivity.
  - reflexivity.
  - sample_layout.
  - reflexivity.
  - discriminate.
  - reflexivity.
  - reflexivity.
  - reflexivity.
  - reflexivity.
  - reflexivity.
  - reflexivity.
  - reflexivity.
  - reflexivity.
  - discriminate.
  - discriminate.
  - vm_compute. reflexivity.
  - vm_compute. reflexivity.
  - exists s'. split; [exact Hrun|]. split; [exact Hq|].
    etransitivity; [exact Ho|]. vm_compute. reflexivity.
Defined.

Lemma check_lifts_rescue_guard_witness :
  let s := start rescued busy in
  state (self s) = RESCUE /\ store_keys_on_machine (self s) = false /\
  send_keys perform s = (inr tt, s) /\
  exists res' s',
    check perform s = (inr res', s') /\ state (self s') = UP /\
    exists ev seg, trace (send_keys perform s').2 = trace s' ++ ev :: seg.
Proof.
  intros s. split; [reflexivity|]. split; [reflexivity|].
  apply (check_lifts_rescue_guard perform CheckResult_init s
           "0.10 0.20 0.30 1/200 1234" busy listing busy).
  - reflexivity.
  - reflexivity.
  - reflexivity.
  - vm_compute. lia.
  - reflexivity.
Defined.

End FurtherInstances.

